(** * gfauto: signature classifier, binary manager, fuzzing loop and CTS helper

    A shallow embedding of the parts of [gfauto] (the GraphicsFuzz
    automation package) that its specification talks about, followed by
    the theorems that settle the specification's claims.

    Source files embedded here:
    - [gfauto/util.py]                   ([Module Util])
    - [gfauto/fuzz.py]                   ([Module Fuzz], [Module FuzzLoop])
    - [gfauto/binaries_util.py]          ([Module BinariesUtil])
    - [gfauto/add_amber_tests_to_cts.py] ([Module AddAmberTestsToCts])

    Python text ([str]) is a sequence of Unicode code points: it is
    modelled as [list N].  Python integers are unbounded: [Z]. *)

From Stdlib Require Import ZArith NArith Ascii String List Bool Lia.
From stdpp Require Import gmap strings list.

Local Open Scope Z_scope.

(* ===================================================================== *)
(** * Part I: the embedding                                                *)
(* ===================================================================== *)

(** ** Python text *)

Module Text.

Definition char := N.
Definition str := list char.

(** [ord "a"] is the code point of an ASCII character. *)
Definition ord (a : ascii) : char := N_of_ascii a.
Arguments ord a%_char.

(** A Python string literal made of ASCII characters. *)
Definition text (x : string) : str := map ord (list_ascii_of_string x).

Definition newline : char := 10%N.

(** [s.startswith(p)] *)
Fixpoint startswith (s p : str) {struct p} : bool :=
  match p, s with
  | [], _ => true
  | _ :: _, [] => false
  | a :: p', b :: s' => (a =? b)%N && startswith s' p'
  end.

(** [s.endswith(e)] *)
Definition endswith (s e : str) : bool :=
  startswith (rev s) (rev e).

(** [s.find(sub)]: the lowest index at which [sub] occurs in [s], or
    [-1]. *)
Fixpoint find_from (i : Z) (s sub : str) : Z :=
  if startswith s sub then i
  else match s with
       | [] => -1
       | _ :: s' => find_from (i + 1) s' sub
       end.

Definition find (s sub : str) : Z := find_from 0 s sub.

(** [s.split(sep)] for a one-character separator: never an empty list. *)
Fixpoint split (sep : char) (s : str) : list str :=
  match s with
  | [] => [[]]
  | c :: s' =>
      if (c =? sep)%N then [] :: split sep s'
      else match split sep s' with
           | l :: ls => (c :: l) :: ls
           | [] => [[c]]
           end
  end.

(** [s[:stop]], with Python's treatment of a negative or too large
    stop index. *)
Definition slice_to (s : str) (stop : Z) : str :=
  let n := Z.of_nat (length s) in
  let stop' := if stop <? 0 then Z.max 0 (stop + n) else Z.min stop n in
  take (Z.to_nat stop') s.

(** [s[start:]] *)
Definition slice_from (s : str) (start : Z) : str :=
  let n := Z.of_nat (length s) in
  let start' := if start <? 0 then Z.max 0 (start + n) else Z.min start n in
  drop (Z.to_nat start') s.

(** Comparison of two strings, code point by code point. *)
Fixpoint compare (a b : str) : comparison :=
  match a, b with
  | [], [] => Eq
  | [], _ :: _ => Lt
  | _ :: _, [] => Gt
  | x :: a', y :: b' =>
      match (x ?= y)%N with
      | Eq => compare a' b'
      | c => c
      end
  end.

(** [a >= b] *)
Definition ge (a b : str) : bool :=
  match compare a b with Lt => false | _ => true end.

(** [a == b] *)
Definition eqb (a b : str) : bool :=
  match compare a b with Eq => true | _ => false end.

(** The lines a text file yields when it is iterated or read with
    [readline()]: every line keeps its newline, the last one has none
    when the file does not end with one. *)
Fixpoint readlines (s : str) : list str :=
  match s with
  | [] => []
  | c :: s' =>
      if (c =? newline)%N then [c] :: readlines s'
      else match readlines s' with
           | l :: ls => (c :: l) :: ls
           | [] => [[c]]
           end
  end.

(** [s.isascii()] *)
Definition isascii (s : str) : bool := forallb (fun c => (c <? 128)%N) s.

(** [sub] occurs somewhere in [s]. *)
Definition occurs_in (sub s : str) : Prop := exists a b, s = a ++ sub ++ b.

End Text.

(** ** Python's [re] on the patterns of [fuzz.py]

    A backtracking matcher, in continuation-passing style, for the
    fragment of regular expressions that [fuzz.py] uses: literals,
    character classes, greedy repetition of a class, concatenation,
    alternation, capture groups and the anchors [^] and [$]. *)

Module Re.
Import Text.

(** For a [str] pattern, [\w] and [\d] follow the Unicode character
    database.  In the ASCII range they are [[a-zA-Z0-9_]] and [[0-9]];
    above it the database decides, and it is a parameter here. *)
Class Unicode := {
  isalnum_hi : char -> bool;   (* [chr(c).isalnum()], for [c >= 128] *)
  isdecimal_hi : char -> bool  (* [chr(c).isdecimal()], for [c >= 128] *)
}.

(** The tables of an interpreter that knows no alphanumeric beyond
    ASCII.  Concrete ASCII inputs are evaluated with it: on them the
    tables are not consulted. *)
Definition ascii_only : Unicode :=
  {| isalnum_hi := fun _ => false; isdecimal_hi := fun _ => false |}.

(** What is written between [[] and []]. *)
Inductive item :=
| Chr (c : char)   (* a character *)
| Word             (* [\w] *)
| Digit.           (* [\d] *)

Inductive cset :=
| Dot                          (* [.]: any character but a newline *)
| OneOf (items : list item)    (* [[...]] *)
| NoneOf (items : list item).  (* [[^...]] *)

Inductive regex :=
| Lit (s : str)                (* literal characters *)
| One (cs : cset)              (* one character of a class *)
| Star (cs : cset)             (* [cs*], greedy *)
| Plus (cs : cset)             (* [cs+], greedy *)
| Cat (r1 r2 : regex)          (* [r1 r2] *)
| Alt (r1 r2 : regex)          (* [r1|r2] *)
| Group (n : nat) (r : regex)  (* [(r)], the [n]-th capture group *)
| Bol                          (* [^] *)
| Eol.                         (* [$] *)

Notation "r1 >> r2" := (Cat r1 r2) (at level 60, right associativity).

(** The text captured by each group of a match. *)
Definition groups := list (nat * str).

(** A match: where it ends, and its groups. *)
Definition found := (nat * groups)%type.

Definition cont := nat -> str -> groups -> option found.

Definition final : cont := fun e _ g => Some (e, g).

(** [match.group(n)]; every pattern of [fuzz.py] sets its group 1 on
    every match (lemma [group_1_set] below), so the default is not
    used. *)
Fixpoint group (g : groups) (n : nat) : str :=
  match g with
  | [] => []
  | (i, w) :: g' => if (i =? n)%nat then w else group g' n
  end.

Definition in_range (lo hi : ascii) (c : char) : bool :=
  (ord lo <=? c)%N && (c <=? ord hi)%N.

(** [[0-9]] *)
Definition ascii_digit (c : char) : bool := in_range "0" "9" c.

(** [[a-zA-Z0-9_]] *)
Definition ascii_word (c : char) : bool :=
  in_range "a" "z" c || in_range "A" "Z" c || in_range "0" "9" c
  || (c =? ord "_")%N.

Section Engine.
Context {U : Unicode}.

(** [\d] *)
Definition is_digit (c : char) : bool :=
  if (c <? 128)%N then ascii_digit c else isdecimal_hi c.

(** [\w] *)
Definition is_word (c : char) : bool :=
  if (c <? 128)%N then ascii_word c else isalnum_hi c.

Definition in_item (i : item) (c : char) : bool :=
  match i with
  | Chr a => (c =? a)%N
  | Word => is_word c
  | Digit => is_digit c
  end.

Definition in_cset (cs : cset) (c : char) : bool :=
  match cs with
  | Dot => negb (c =? newline)%N
  | OneOf l => existsb (fun i => in_item i c) l
  | NoneOf l => negb (existsb (fun i => in_item i c) l)
  end.

(** Greedy repetition: take one more character when possible, and
    give it back when the rest of the pattern then fails. *)
Fixpoint star (p : char -> bool) (pos : nat) (s : str) (g : groups)
         (k : cont) {struct s} : option found :=
  match s with
  | c :: s' =>
      if p c then
        match star p (S pos) s' g k with
        | Some r => Some r
        | None => k pos s g
        end
      else k pos s g
  | [] => k pos s g
  end.

(** [m r pos s g k]: match [r] at position [pos], where [s] is what
    remains of the string, then go on with [k]. *)
Fixpoint m (r : regex) (pos : nat) (s : str) (g : groups) (k : cont)
  : option found :=
  match r with
  | Lit l =>
      if startswith s l
      then k (pos + length l)%nat (drop (length l) s) g
      else None
  | One cs =>
      match s with
      | c :: s' => if in_cset cs c then k (S pos) s' g else None
      | [] => None
      end
  | Star cs => star (in_cset cs) pos s g k
  | Plus cs =>
      match s with
      | c :: s' =>
          if in_cset cs c then star (in_cset cs) (S pos) s' g k else None
      | [] => None
      end
  | Cat r1 r2 => m r1 pos s g (fun pos' s' g' => m r2 pos' s' g' k)
  | Alt r1 r2 =>
      match m r1 pos s g k with
      | Some x => Some x
      | None => m r2 pos s g k
      end
  | Group n r1 =>
      m r1 pos s g
        (fun pos' s' g' => k pos' s' ((n, take (pos' - pos) s) :: g'))
  | Bol => if (pos =? 0)%nat then k pos s g else None
  | Eol =>
      match s with
      | [] => k pos s g
      | [c] => if (c =? newline)%N then k pos s g else None
      | _ => None
      end
  end.

(** The leftmost match: what [next(re.finditer(r, s), None)] is. *)
Fixpoint search_from (r : regex) (pos : nat) (s : str) : option found :=
  match m r pos s [] final with
  | Some x => Some x
  | None =>
      match s with
      | [] => None
      | _ :: s' => search_from r (S pos) s'
      end
  end.

Definition search (r : regex) (s : str) : option found :=
  search_from r 0 s.

(** [re.sub(r, repl, s)] for a replacement without group
    references: scan from the left and replace every match.  An
    empty match is replaced too and the scan moves on by one
    character; the two patterns [fuzz.py] substitutes match at
    least one character. *)
Fixpoint sub_from (fuel : nat) (r : regex) (repl : str) (pos : nat)
         (s : str) : str :=
  match fuel with
  | O => s
  | S fuel' =>
      match m r pos s [] final with
      | Some (e, _) =>
          if (pos <? e)%nat
          then repl ++ sub_from fuel' r repl e (drop (e - pos) s)
          else repl ++
               match s with
               | [] => []
               | c :: s' => c :: sub_from fuel' r repl (S pos) s'
               end
      | None =>
          match s with
          | [] => []
          | c :: s' => c :: sub_from fuel' r repl (S pos) s'
          end
      end
  end.

Definition sub (r : regex) (repl : str) (s : str) : str :=
  sub_from (S (length s)) r repl 0 s.

(** *** A declarative reading of the patterns *)

(** [matches r pos s g pos' s' g']: [r] matches a prefix of [s] that
    starts at position [pos], leaves [s'] at position [pos'], and
    turns the groups [g] into [g']. *)
Fixpoint matches (r : regex) (pos : nat) (s : str) (g : groups)
         (pos' : nat) (s' : str) (g' : groups) : Prop :=
  match r with
  | Lit l => s = l ++ s' /\ pos' = (pos + length l)%nat /\ g' = g
  | One cs =>
      exists c, in_cset cs c = true /\ s = c :: s' /\ pos' = S pos /\ g' = g
  | Star cs =>
      exists w, forallb (in_cset cs) w = true /\ s = w ++ s' /\
                pos' = (pos + length w)%nat /\ g' = g
  | Plus cs =>
      exists w, w <> [] /\ forallb (in_cset cs) w = true /\ s = w ++ s' /\
                pos' = (pos + length w)%nat /\ g' = g
  | Cat r1 r2 =>
      exists p1 s1 g1,
        matches r1 pos s g p1 s1 g1 /\ matches r2 p1 s1 g1 pos' s' g'
  | Alt r1 r2 =>
      matches r1 pos s g pos' s' g' \/ matches r2 pos s g pos' s' g'
  | Group n r1 =>
      exists g1, matches r1 pos s g pos' s' g1 /\
                 g' = (n, take (pos' - pos) s) :: g1
  | Bol => pos = 0%nat /\ s' = s /\ pos' = pos /\ g' = g
  | Eol => (s = [] \/ s = [newline]) /\ s' = s /\ pos' = pos /\ g' = g
  end.

End Engine.

(** [sets n r]: every match of [r] sets group [n]. *)
Fixpoint sets (n : nat) (r : regex) : bool :=
  match r with
  | Cat r1 r2 => sets n r1 || sets n r2
  | Alt r1 r2 => sets n r1 && sets n r2
  | Group k r1 => (k =? n)%nat || sets n r1
  | _ => false
  end.

Definition has (n : nat) (g : groups) : bool :=
  existsb (fun x => (fst x =? n)%nat) g.

End Re.

(** ** [gfauto/util.py] *)

Module Util.
Import Text.

Inductive result (A : Type) :=
| Ok (a : A)
| AssertionError.
Arguments Ok {A} a.
Arguments AssertionError {A}.

(** [[
def remove_end(str_in: str, str_end: str):
  assert str_in.endswith(str_end), ...
  return str_in[: -len(str_end)]
]] *)
Definition remove_end (str_in str_end : str) : result str :=
  if endswith str_in str_end
  then Ok (slice_to str_in (- Z.of_nat (length str_end)))
  else AssertionError.

End Util.

(** ** [gfauto/fuzz.py]: the signature classifier *)

Module Fuzz.
Import Text Re.

Definition word : cset := OneOf [Word].
Definition digit : cset := OneOf [Digit].

(** The double quote character. *)
Definition dquote : char := 34%N.

(** [PATTERN_CPP_FUNCTION = re.compile(r"::(\w+)\(")] *)
Definition PATTERN_CPP_FUNCTION : regex :=
  Lit (text "::") >> Group 1 (Plus word) >> Lit (text "(").

(** [PATTERN_C_FUNCTION = re.compile(r"\((\w+)(\+\d+\)|\()")] *)
Definition PATTERN_C_FUNCTION : regex :=
  Lit (text "(") >> Group 1 (Plus word) >>
  Group 2 (Alt (Lit (text "+") >> Plus digit >> Lit (text ")"))
               (Lit (text "("))).

(** [PATTERN_GLSLANG_ERROR = re.compile(r"\w+:\d+: '([\w ]+)'")] *)
Definition PATTERN_GLSLANG_ERROR : regex :=
  Plus word >> Lit (text ":") >> Plus digit >> Lit (text ": '") >>
  Group 1 (Plus (OneOf [Word; Chr (ord " ")])) >> Lit (text "'").

(** [PATTERN_AMBER_ERROR = re.compile(r"\w: \d+: ([\w ]+)$")] *)
Definition PATTERN_AMBER_ERROR : regex :=
  One word >> Lit (text ": ") >> Plus digit >> Lit (text ": ") >>
  Group 1 (Plus (OneOf [Word; Chr (ord " ")])) >> Eol.

(** [PATTERN_SPIRV_OPT_ERROR]: [^error: line \d+: (C+)], where the
    class [C] holds [\w], the space, the dot, the apostrophe, the
    hyphen and the double quote. *)
Definition PATTERN_SPIRV_OPT_ERROR : regex :=
  Bol >> Lit (text "error: line ") >> Plus digit >> Lit (text ": ") >>
  Group 1 (Plus (OneOf [Word; Chr (ord " "); Chr (ord "."); Chr (ord "'");
                        Chr (ord "-"); Chr dquote])).

(** [PATTERN_CATCHSEGV_STACK_FRAME =
      re.compile(r"Backtrace:\n.*/([^/(]*\([^)+]+)\+")] *)
Definition PATTERN_CATCHSEGV_STACK_FRAME : regex :=
  Lit (text "Backtrace:" ++ [newline]) >> Star Dot >> Lit (text "/") >>
  Group 1 (Star (NoneOf [Chr (ord "/"); Chr (ord "(")]) >> Lit (text "(") >>
           Plus (NoneOf [Chr (ord ")"); Chr (ord "+")])) >>
  Lit (text "+").

(** [log_contents.find(trigger) != -1] *)
Definition found_in (log_contents : str) (trigger : string) : bool :=
  negb (find log_contents (text trigger) =? -1).

(** An early [return] out of a rule of the cascade: [Some] is a
    returned signature, [None] falls through to the next statement. *)
Definition or_else (r : option str) (rest : str) : str :=
  match r with
  | Some signature => signature
  | None => rest
  end.

(** The format the specification gives for a signature:
    [^[A-Za-z0-9_]{1,50}$]. *)
Definition signature_format (signature : str) : bool :=
  (1 <=? length signature)%nat && (length signature <=? 50)%nat &&
  forallb ascii_word signature.

(** The [catchsegv] log of the specification's fourth scenario. *)
Definition catchsegv_log : str :=
  text "Backtrace:" ++ [newline] ++
  text "/path/spirv-opt(_ZN8spvtools3opt21StructuredCFGAnalysisXYZ+0x5)".

Section Classifier.
Context {U : Unicode}.

(** [re.sub(r"\d+", "", group)] *)
Definition remove_numbers (group : str) : str :=
  sub (Plus digit) [] group.

(** [re.sub(r"[^\w]", "_", group)] *)
Definition replace_non_word (group : str) : str :=
  sub (One (NoneOf [Word])) (text "_") group.

(** The loop over the lines of the ["error: line "] rule. *)
Fixpoint spirv_opt_error_lines (lines : list str) : option str :=
  match lines with
  | [] => None
  | line :: lines' =>
      match search PATTERN_SPIRV_OPT_ERROR line with
      | Some (_, g) =>
          let group := group g 1 in
          let group := remove_numbers group in
          let group := replace_non_word group in
          let group := slice_to group 20 in
          Some group
      | None => spirv_opt_error_lines lines'
      end
  end.

(** The loop over the lines of the ["0 pass, 1 fail"] rule. *)
Fixpoint amber_error_lines (lines : list str) : option str :=
  match lines with
  | [] => None
  | line :: lines' =>
      match search PATTERN_AMBER_ERROR line with
      | Some (_, g) =>
          let group := group g 1 in
          let group := remove_numbers group in
          let group := replace_non_word group in
          Some group
      | None => amber_error_lines lines'
      end
  end.

(** The loop over the lines of the
    ["SPIR-V is not generated for failed compile or link"] rule. *)
Fixpoint glslang_error_lines (lines : list str) : option str :=
  match lines with
  | [] => None
  | line :: lines' =>
      match search PATTERN_GLSLANG_ERROR line with
      | Some (_, g) =>
          let group := group g 1 in
          let group := remove_numbers group in
          let group := replace_non_word group in
          Some group
      | None => glslang_error_lines lines'
      end
  end.

(** The loop over the lines of the ["#00 pc"] rule: lines without
    ["#00 pc"] are skipped, the first line with it decides, and the
    loop ends after it ([break]). *)
Fixpoint android_backtrace_lines (lines : list str) : option str :=
  match lines with
  | [] => None
  | line :: lines' =>
      let pc_pos := find line (text "#00 pc") in
      if pc_pos =? -1 then android_backtrace_lines lines'
      else
        let line := slice_from line pc_pos in
        if found_in line "/amber_ndk" then Some (text "amber_ndk")
        else
          match search PATTERN_CPP_FUNCTION line with
          | Some (_, g) => Some (group g 1)
          | None =>
              match search PATTERN_C_FUNCTION line with
              | Some (_, g) => Some (group g 1)
              | None => None
              end
          end
  end.

(** The ["Backtrace:"] rule. *)
Definition catchsegv_frame (log_contents : str) : option str :=
  match search PATTERN_CATCHSEGV_STACK_FRAME log_contents with
  | Some (_, g) =>
      let group := group g 1 in
      let group := replace_non_word group in
      let group := slice_to group 50 in
      Some group
  | None => None
  end.

(** [if trigger in the log: rule] *)
Definition when (log_contents : str) (trigger : string)
           (rule : option str) : option str :=
  if found_in log_contents trigger then rule else None.

Definition get_signature_from_log_contents (log_contents : str) : str :=
  if found_in log_contents "Shader compilation failed"
  then text "compile_error" else
  if found_in log_contents "Failed to link shaders"
  then text "link_error" else
  if found_in log_contents "Calling vkCreateGraphicsPipelines Fail"
  then text "pipeline_failure" else
  if found_in log_contents "Resource deadlock would occur"
  then text "Resource_deadlock_would_occur" else
  or_else (when log_contents "error: line "
             (spirv_opt_error_lines (split newline log_contents))) (
  or_else (when log_contents "0 pass, 1 fail"
             (amber_error_lines (split newline log_contents))) (
  or_else (when log_contents
             "SPIR-V is not generated for failed compile or link"
             (glslang_error_lines (split newline log_contents))) (
  or_else (when log_contents "#00 pc"
             (android_backtrace_lines (split newline log_contents))) (
  or_else (when log_contents "Backtrace:"
             (catchsegv_frame log_contents)) (
  text "no_signature"))))).

End Classifier.

End Fuzz.

(** ** [gfauto/fuzz.py]: running a shader job, and the fuzzing loop *)

Module FuzzLoop.

Definition Path := string.

(** [a / b] on paths. *)
Definition join (a b : Path) : Path := a +:+ "/" +:+ b.
Declare Scope path_scope.
Delimit Scope path_scope with path.
Infix "/" := join : path_scope.

(** *** [run_shader_job] *)

(** Modelled from the spec: [device.proto] is not among the sources.  A
    device has a name and is of one of four kinds (a [oneof], which may
    be unset): preprocess, SwiftShader, host, or Android. *)
Inductive device_kind := preprocess | swift_shader | host | android.

Record Device := {
  name : string;
  device : option device_kind
}.

(** [device.HasField(kind)] *)
Definition HasField (d : Device) (kind : device_kind) : bool :=
  match device d, kind with
  | Some preprocess, preprocess => true
  | Some swift_shader, swift_shader => true
  | Some host, host => true
  | Some android, android => true
  | _, _ => false
  end.

(** The calls [run_shader_job] makes to the outside, in order.  Each is
    taken to return normally, but for the conversion to an Amber script,
    which may raise [SubprocessError]. *)
Inductive call :=
| push_stream_for_logging
| glsl_shader_job_to_amber_script
| file_write_text_STATUS (status : string)
| run_amber (dump_image dump_buffer : bool)
    (* [host_device_util.run_amber]: Amber on the host *)
| run_amber_on_device (dump_image dump_buffer : bool)
    (* [android_device.run_amber_on_device]: Amber on an Android device *)
| log_a_file
| pop_stream_for_logging.

(** [conversion_fails]: [glsl_shader_job_to_amber_script] raises
    [SubprocessError]; [is_compute]: the shader job has a compute
    shader.  The [finally] clause pops the logging stream on every
    path. *)
Definition run_shader_job (conversion_fails is_compute : bool) (d : Device)
  : list call :=
  [push_stream_for_logging; glsl_shader_job_to_amber_script] ++
  (if conversion_fails then [file_write_text_STATUS "HOST_CRASH"]
   else if HasField d preprocess then [file_write_text_STATUS "SUCCESS"]
   else
     (if HasField d host || HasField d swift_shader
      then [run_amber (negb is_compute) is_compute]
      else []) ++
     [run_amber_on_device (negb is_compute) is_compute; log_a_file]) ++
  [pop_stream_for_logging].

(** *** One iteration of the loop of [main] *)

(** The test metadata [make_subtest] writes:
    [Test(glsl=TestGlsl(glslang_version_hash="",
    spirv_opt_version_hash="", spirv_opt_args=spirv_opt_args))];
    [None] for the arguments leaves the repeated field empty. *)
Record TestGlsl := {
  glslang_version_hash : string;
  spirv_opt_version_hash : string;
  spirv_opt_args : list string
}.

(** What a call of [handle_test] comes to: the report paths it returns,
    or an exception. *)
Inductive outcome :=
| Returns (report_paths : list Path)
| Raises.

Section Loop.

(** The file system and the devices, and what is outside [main]: the
    theorems hold whatever these do. *)
Variable World : Type.
Variable copy_dir : Path -> Path -> World -> World.
Variable test_dir_metadata_write : TestGlsl -> Path -> World -> World.
Variable random_spirv_opt_args : World -> list string * World.
Variable handle_test : Path -> World -> outcome * World.

(** [test_get_source_dir(test_dir)] *)
Definition test_get_source_dir (test_dir : Path) : Path :=
  (test_dir / "source")%path.

Definition make_subtest (base_source_dir subtest_dir : Path)
           (args : option (list string)) (w : World) : Path * World :=
  let w := copy_dir base_source_dir (test_get_source_dir subtest_dir) w in
  let w :=
    test_dir_metadata_write
      {| glslang_version_hash := "";
         spirv_opt_version_hash := "";
         spirv_opt_args := match args with Some l => l | None => [] end |}
      subtest_dir w in
  (subtest_dir, w).

(** The six sibling tests of an iteration, as [main] lists them. *)
Definition make_test_dirs (test_dir : Path) (test_name : string) (w : World)
  : list Path * World :=
  let base_source_dir := (test_dir / "base_source")%path in
  let '(d1, w) :=
    make_subtest base_source_dir
      (test_dir / (test_name +:+ "_no_opt_test"))%path None w in
  let '(d2, w) :=
    make_subtest base_source_dir
      (test_dir / (test_name +:+ "_opt_O_test"))%path (Some ["-O"%string]) w in
  let '(d3, w) :=
    make_subtest base_source_dir
      (test_dir / (test_name +:+ "_opt_Os_test"))%path (Some ["-Os"%string]) w in
  let '(a4, w) := random_spirv_opt_args w in
  let '(d4, w) :=
    make_subtest base_source_dir
      (test_dir / (test_name +:+ "_opt_rand1_test"))%path (Some a4) w in
  let '(a5, w) := random_spirv_opt_args w in
  let '(d5, w) :=
    make_subtest base_source_dir
      (test_dir / (test_name +:+ "_opt_rand2_test"))%path (Some a5) w in
  let '(a6, w) := random_spirv_opt_args w in
  let '(d6, w) :=
    make_subtest base_source_dir
      (test_dir / (test_name +:+ "_opt_rand3_test"))%path (Some a6) w in
  ([d1; d2; d3; d4; d5; d6], w).

(** [[
for test_dir in test_dirs:
    if handle_test(test_dir, reports_dir, active_devices):
        break
    ]]
    The loop, with a log of the calls of [handle_test] and of what each
    came to.  A list is true when it is not empty; an exception leaves
    the loop (and [main]). *)
Fixpoint for_test_dirs (test_dirs : list Path) (w : World)
         (calls : list (Path * outcome)) : list (Path * outcome) * World :=
  match test_dirs with
  | [] => (calls, w)
  | test_dir :: rest =>
      let '(r, w) := handle_test test_dir w in
      let calls := calls ++ [(test_dir, r)] in
      match r with
      | Raises => (calls, w)
      | Returns (_ :: _) => (calls, w)
      | Returns [] => for_test_dirs rest w calls
      end
  end.

(** The part of an iteration of [while True] from the creation of the
    sibling tests on. *)
Definition iteration (temp_dir : Path) (test_name : string) (w : World)
  : list (Path * outcome) * World :=
  let test_dir := (temp_dir / test_name)%path in
  let '(test_dirs, w) := make_test_dirs test_dir test_name w in
  for_test_dirs test_dirs w [].

End Loop.

(** A [handle_test] that finds a crash in the [opt_O] sibling of test
    [t]; the world counts the calls. *)
Definition sample_handle_test (test_dir : Path) (w : nat) : outcome * nat :=
  (if String.eqb test_dir "temp/t/t_opt_O_test"
   then Returns ["reports/crashes/compile_error/t_opt_O_test_host"%string]
   else Returns [],
   S w).

(** The directories of the six presets, in the order of [main]. *)
Definition preset_dirs (temp_dir : Path) (test_name : string) : list Path :=
  map (fun preset =>
         (temp_dir / test_name / (test_name +:+ "_" +:+ preset +:+ "_test"))%path)
      ["no_opt"; "opt_O"; "opt_Os"; "opt_rand1"; "opt_rand2"; "opt_rand3"]%string.

End FuzzLoop.

(** ** [gfauto/binaries_util.py] *)

Module BinariesUtil.

Definition Path := string.

(** The [Binary] message, with the fields [binaries_util.py] gives it:
    [name], [tags], [path], [version]. *)
Record Binary := {
  name : string;
  tags : list string;
  path : string;
  version : string
}.

Record Archive := {
  url : string;
  output_file : string;
  output_directory : string
}.

Record ArchiveSet := {
  archives : list Archive;
  binaries : list Binary
}.

(** [binary.SerializePartialToString()], the key of the dictionary of
    resolved paths: the serialized message is given by the values of
    its fields, the repeated [tags] in their order. *)
Definition SerializePartialToString (b : Binary)
  : string * list string * string * string :=
  (name b, tags b, path b, version b).

(** [@attr.dataclass class BinaryPathAndInfo] *)
Record BinaryPathAndInfo := {
  info_path : Path;
  info_binary : Binary
}.

Inductive error :=
| BinaryNotFound (name : string) (binary_list : list Binary)
| BinaryPathNotFound (binary : Binary).

Inductive result (A : Type) :=
| Ok (a : A)
| Raise (e : error).
Arguments Ok {A} a.
Arguments Raise {A} e.

(** A [BinaryManager]: its list of binaries, its platform and the
    catalog of binary artifacts (archive sets with their artifact
    paths). *)
Record BinaryManager := {
  _binary_list : list Binary;
  _platform : string;
  _binary_artifacts : list (ArchiveSet * string)
}.

(** What the managers of one family share, and what their calls leave
    behind: the dictionary [_resolved_paths] (a child manager holds the
    very dictionary of its parent) and the artifact paths handed to
    [artifact_util.artifact_execute_recipe_if_needed], in order. *)
Record Store := {
  _resolved_paths : gmap (string * list string * string * string) Path;
  executed_recipes : list string
}.

(** The store of a manager that [BinaryManager(...)] has just made. *)
Definition new_store : Store :=
  {| _resolved_paths := ∅; executed_recipes := [] |}.

Section Manager.

(** [artifact_util.artifact_get_inner_file_path(inner_path, artifact_path)]
    is not among the sources: any function of its two arguments. *)
Variable artifact_get_inner_file_path : string -> string -> Path.

(** The loop over [archive_set.binaries]: the first binary that passes
    the three tests. *)
Fixpoint scan_binaries (binary_tags : gset string) (binary : Binary)
         (binaries : list Binary) : option Binary :=
  match binaries with
  | [] => None
  | artifact_binary :: rest =>
      if negb (String.eqb (name artifact_binary) (name binary))
      then scan_binaries binary_tags binary rest
      else if negb (String.eqb (version artifact_binary) (version binary))
      then scan_binaries binary_tags binary rest
      else
        let recipe_binary_tags : gset string :=
          list_to_set (tags artifact_binary) in
        if negb (bool_decide (binary_tags ⊆ recipe_binary_tags))
        then scan_binaries binary_tags binary rest
        else Some artifact_binary
  end.

(** The loop over [self._binary_artifacts]. *)
Fixpoint scan_artifacts (binary_tags : gset string) (binary : Binary)
         (artifacts : list (ArchiveSet * string)) : option (Binary * string) :=
  match artifacts with
  | [] => None
  | (archive_set, artifact_path) :: rest =>
      match scan_binaries binary_tags binary (binaries archive_set) with
      | Some artifact_binary => Some (artifact_binary, artifact_path)
      | None => scan_artifacts binary_tags binary rest
      end
  end.

(** A [Path] is true, so [if result:] asks whether the key is in the
    dictionary.  [artifact_util.artifact_execute_recipe_if_needed] is
    taken to return; its call is recorded in the store. *)
Definition get_binary_path (self : BinaryManager) (binary : Binary)
           (st : Store) : result Path * Store :=
  match _resolved_paths st !! SerializePartialToString binary with
  | Some result => (Ok result, st)
  | None =>
      let binary_tags : gset string :=
        list_to_set (tags binary) ∪ {[ _platform self ]} in
      match scan_artifacts binary_tags binary (_binary_artifacts self) with
      | Some (artifact_binary, artifact_path) =>
          let result :=
            artifact_get_inner_file_path (path artifact_binary) artifact_path in
          (Ok result,
           {| _resolved_paths :=
                <[SerializePartialToString binary := result]>
                  (_resolved_paths st);
              executed_recipes := executed_recipes st ++ [artifact_path] |})
      | None => (Raise (BinaryPathNotFound binary), st)
      end
  end.

(** The loop of [get_binary_by_name_from_list]. *)
Fixpoint first_named (n : string) (binary_list : list Binary)
  : option Binary :=
  match binary_list with
  | [] => None
  | binary :: rest =>
      if String.eqb (name binary) n then Some binary else first_named n rest
  end.

Definition get_binary_by_name_from_list (n : string)
           (binary_list : list Binary) : result Binary :=
  match first_named n binary_list with
  | Some binary => Ok binary
  | None => Raise (BinaryNotFound n binary_list)
  end.

Definition get_binary_by_name (self : BinaryManager) (n : string)
  : result Binary :=
  get_binary_by_name_from_list n (_binary_list self).

Definition get_binary_path_by_name (self : BinaryManager) (n : string)
           (st : Store) : result BinaryPathAndInfo * Store :=
  match get_binary_by_name self n with
  | Raise e => (Raise e, st)
  | Ok binary =>
      match get_binary_path self binary st with
      | (Ok p, st') => (Ok {| info_path := p; info_binary := binary |}, st')
      | (Raise e, st') => (Raise e, st')
      end
  end.

(** The child works on the store of its parent. *)
Definition get_child_binary_manager (self : BinaryManager)
           (binary_list : list Binary) : BinaryManager :=
  {| _binary_list := binary_list ++ _binary_list self;
     _platform := _platform self;
     _binary_artifacts := _binary_artifacts self |}.

(** The store after a run of calls of [get_binary_path] on a new
    manager. *)
Definition after (self : BinaryManager) (requests : list Binary) : Store :=
  foldl (fun st binary => snd (get_binary_path self binary st))
        new_store requests.

(** Every path in the cache is the one the scan of the catalog gives
    for its key. *)
Definition cache_agrees (self : BinaryManager) (st : Store) : Prop :=
  forall binary p,
    _resolved_paths st !! SerializePartialToString binary = Some p ->
    exists artifact_binary artifact_path,
      scan_artifacts (list_to_set (tags binary) ∪ {[ _platform self ]}) binary
                     (_binary_artifacts self)
      = Some (artifact_binary, artifact_path) /\
      p = artifact_get_inner_file_path (path artifact_binary) artifact_path.

End Manager.

(** *** The specification's reading of the resolution *)

(** [accepts platform D B]: the names and versions are equal and
    [D.tags ∪ {platform} ⊆ B.tags]. *)
Definition accepts (platform : string) (D B : Binary) : Prop :=
  name B = name D /\ version B = version D /\
  forall t, (In t (tags D) \/ t = platform) -> In t (tags B).

(** The binaries of the catalog with their artifact paths, archive set
    after archive set. *)
Definition catalog_binaries (catalog : list (ArchiveSet * string))
  : list (Binary * string) :=
  flat_map (fun '(archive_set, artifact_path) =>
              map (fun b => (b, artifact_path)) (binaries archive_set))
           catalog.

(** [first_accepted platform D l r]: [r] is the first binary of [l] that
    [D] accepts, if there is one. *)
Inductive first_accepted (platform : string) (D : Binary)
  : list (Binary * string) -> option (Binary * string) -> Prop :=
| first_none : first_accepted platform D [] None
| first_here B a l :
    accepts platform D B -> first_accepted platform D ((B, a) :: l) (Some (B, a))
| first_later B a l r :
    ~ accepts platform D B -> first_accepted platform D l r ->
    first_accepted platform D ((B, a) :: l) r.

(** *** The specification's fifth scenario *)

Definition spirv_opt_V1 : Binary :=
  {| name := "spirv-opt"; tags := []; path := ""; version := "V1" |}.

Definition spirv_opt_V1_Linux : Binary :=
  {| name := "spirv-opt"; tags := ["Linux"; "x64"; "Release"];
     path := "v1/bin/spirv-opt"; version := "V1" |}.

Definition sample_catalog : list (ArchiveSet * string) :=
  [ ({| archives := [];
        binaries :=
          [ {| name := "spirv-val"; tags := ["Linux"; "x64"; "Release"];
               path := "v2/bin/spirv-val"; version := "V2" |};
            {| name := "spirv-opt"; tags := ["Linux"; "x64"; "Release"];
               path := "v2/bin/spirv-opt"; version := "V2" |} ] |},
     "//binaries/tools_V2");
    ({| archives := [];
        binaries :=
          [ {| name := "spirv-opt"; tags := ["Windows"; "x64"; "Release"];
               path := "v1/bin/spirv-opt.exe"; version := "V1" |};
            spirv_opt_V1_Linux ] |},
     "//binaries/tools_V1") ]%string.

Definition sample_manager : BinaryManager :=
  {| _binary_list := [spirv_opt_V1];
     _platform := "Linux";
     _binary_artifacts := sample_catalog |}.

(** A stand-in for [artifact_get_inner_file_path]: the inner path
    under the artifact path. *)
Definition sample_inner_file_path (inner_path artifact_path : string) : Path :=
  artifact_path +:+ "/" +:+ inner_path.

End BinariesUtil.

(** ** [gfauto/add_amber_tests_to_cts.py] *)

Module AddAmberTestsToCts.
Import Text.

(** [line.startswith("dEQP-VK.graphicsfuzz.")] *)
Definition test_line (line : str) : bool :=
  startswith line (text "dEQP-VK.graphicsfuzz.").

(** [[
for line in pass_in:
    if line.startswith("dEQP-VK.graphicsfuzz."):
        break
    pass_out.write(line)
    ]]
    Returns [line], what remains to be read and what has been written.
    When the file is exhausted, [line] keeps the last value it had. *)
Fixpoint to_first_test (pass_in : list str) (line pass_out : str)
  : str * list str * str :=
  match pass_in with
  | [] => (line, [], pass_out)
  | l :: rest =>
      if test_line l then (l, rest, pass_out)
      else to_first_test rest l (pass_out ++ l)
  end.

(** [[
while True:
    if len(line) == 0 or line >= line_to_write:
        break
    pass_out.write(line)
    line = pass_in.readline()
    ]]
    At the end of the file [readline()] returns the empty string. *)
Fixpoint to_insertion_point (line_to_write : str) (pass_in : list str)
         (line pass_out : str) : str * list str * str :=
  if (length line =? 0)%nat || ge line line_to_write
  then (line, pass_in, pass_out)
  else
    match pass_in with
    | [] => ([], [], pass_out ++ line)
    | l :: rest => to_insertion_point line_to_write rest l (pass_out ++ line)
    end.

(** [line_to_write = "dEQP-VK.graphicsfuzz.{}\n".format(amber_test_name)] *)
Definition line_to_write (amber_test_name : str) : str :=
  text "dEQP-VK.graphicsfuzz." ++ amber_test_name ++ [newline].

(** What the body of the two [with] blocks writes, from the lines that
    [pass_in] yields. *)
Definition write_lines (line_to_write : str) (pass_in : list str) : str :=
  let '(line, pass_in, pass_out) := to_first_test pass_in [] [] in
  let '(line, pass_in, pass_out) :=
    to_insertion_point line_to_write pass_in line pass_out in
  let pass_out :=
    if negb (eqb line line_to_write) then pass_out ++ line_to_write
    else pass_out in
  let pass_out := pass_out ++ line in
  pass_out ++ concat pass_in.

(** The new content of the must-pass file, from its old content: the
    text that reading the copy [must_pass_file_path + ".bak"] gives
    (decoded, every line end read as a newline). *)
Definition must_pass_content (amber_test_name : str) (content : str) : str :=
  write_lines (line_to_write amber_test_name) (readlines content).

(** The files, by path; [None] stands for [FileNotFoundError]. *)
Definition add_amber_test_to_must_pass (amber_test_name : str)
           (must_pass_file_path : string) (files : gmap string str)
  : option (gmap string str) :=
  let must_pass_file_path_bak := must_pass_file_path +:+ ".bak" in
  match files !! must_pass_file_path with
  | None => None
  | Some content =>
      let files := <[must_pass_file_path_bak := content]> files in
      let files :=
        <[must_pass_file_path := must_pass_content amber_test_name content]>
          files in
      Some (delete must_pass_file_path_bak files)
  end.


(** A complete line: it ends with a newline and holds no other. *)
Definition complete_line (l : str) : Prop :=
  exists body, l = body ++ [newline] /\ ~ In newline body.

End AddAmberTestsToCts.

(** ** [gfauto/add_amber_tests_to_cts.py]: the C++ table of tests *)

Module CtsCpp.
Import Text AddAmberTestsToCts.

Definition tab : char := 9%N.
Definition carriage_return : char := 13%N.
Definition space : char := 32%N.

(** [len(s)] *)
Definition len (s : str) : Z := Z.of_nat (length s).

(** What an assertion that fails says. *)
Inductive assertion :=
| assertion_failed                               (* an [assert] without message *)
| too_long (string_name : string) (string_value : str)
| field_index_incorrect (field_index : Z).

Inductive outcome (A : Type) :=
| Ok (a : A)
| AssertionError (why : assertion)
| Loops.   (* the [while] loop does not end *)
Arguments Ok {A} a.
Arguments AssertionError {A} why.
Arguments Loops {A}.

Definition bind {A B : Type} (x : outcome A) (f : A -> outcome B) : outcome B :=
  match x with
  | Ok a => f a
  | AssertionError why => AssertionError why
  | Loops => Loops
  end.

Notation "'do' x <- e1 ; e2" := (bind e1 (fun x => e2))
  (at level 10, x name, e1 at level 100, e2 at level 200).

(** [[
def remove_start(string, start):
    assert string.startswith(start)
    return string[len(start) :]
    ]] *)
Definition remove_start (string start : str) : outcome str :=
  if startswith string start then Ok (slice_from string (len start))
  else AssertionError assertion_failed.

Definition SHORT_DESCRIPTION_LINE_PREFIX : str := text "# Short description: ".

(** The loop of [get_amber_test_short_description] over the lines of
    the Amber test file; [line[:-1]] is meant to remove the newline. *)
Fixpoint short_description_of (lines : list str) : outcome str :=
  match lines with
  | [] => Ok []
  | line :: rest =>
      if startswith line SHORT_DESCRIPTION_LINE_PREFIX then
        do line <- remove_start line SHORT_DESCRIPTION_LINE_PREFIX ;
        Ok (slice_to line (-1))
      else short_description_of rest
  end.

(** [get_amber_test_short_description], on the text of the file. *)
Definition get_amber_test_short_description (amber_test : str) : outcome str :=
  short_description_of (readlines amber_test).

(** [s.expandtabs(tabsize)]: a tab becomes the spaces that lead to the
    next multiple of [tabsize] (none when [tabsize] is not positive);
    the column starts again after a newline or a carriage return. *)
Fixpoint expandtabs_from (tabsize : Z) (column : Z) (s : str) : str :=
  match s with
  | [] => []
  | c :: s' =>
      if (c =? tab)%N then
        if 0 <? tabsize then
          let incr := tabsize - column mod tabsize in
          repeat space (Z.to_nat incr) ++
          expandtabs_from tabsize (column + incr) s'
        else expandtabs_from tabsize column s'
      else
        c :: expandtabs_from tabsize
               (if (c =? newline)%N || (c =? carriage_return)%N then 0
                else column + 1) s'
  end.

Definition expandtabs (s : str) (tabsize : Z) : str :=
  expandtabs_from tabsize 0 s.

(** [[
while len(line.expandtabs(tab_size)) < field_index:
    line += "\t"
    ]]
    [None]: the loop has not ended within [fuel] rounds. *)
Fixpoint add_tabs (fuel : nat) (line : str) (field_index tab_size : Z)
  : option str :=
  if len (expandtabs line tab_size) <? field_index then
    match fuel with
    | O => None
    | S fuel' => add_tabs fuel' (line ++ [tab]) field_index tab_size
    end
  else Some line.

(** The loop is given [field_index] rounds.  With a positive
    [tab_size] it ends within them; with another it ends at once or
    never (lemmas [add_tabs_ends] and [add_tabs_never_ends]). *)
Definition check_and_add_tabs (line : str) (string_name : string)
           (string_value : str) (field_index tab_size : Z) : outcome str :=
  let field_index := field_index - 1 in
  if negb (len (expandtabs line tab_size) <=? field_index)
  then AssertionError (too_long string_name string_value)
  else
    match add_tabs (Z.to_nat field_index) line field_index tab_size with
    | None => Loops
    | Some line =>
        if len (expandtabs line tab_size) =? field_index then Ok line
        else AssertionError (field_index_incorrect field_index)
    end.

(** The double quote. *)
Definition quote : char := 34%N.

Definition get_cpp_line_to_write (amber_test_name short_description : str)
  : outcome str :=
  let test_file_name_start_index := 13 in
  let test_name_start_index := 61 in
  let test_description_start_index := 101 in
  let test_close_bracket_index := 189 in
  let tab_size := 4 in
  let line := [tab; tab] ++ text "{" in
  do line <- check_and_add_tabs line "internal" (text "internal")
            test_file_name_start_index tab_size ;
  let line := line ++ [quote] ++ amber_test_name ++ text ".amber" ++ [quote]
                   ++ text "," in
  do line <- check_and_add_tabs line "amber test name" amber_test_name
            test_name_start_index tab_size ;
  let line := line ++ [quote] ++ amber_test_name ++ [quote] ++ text "," in
  do line <- check_and_add_tabs line "amber test name" amber_test_name
            test_description_start_index tab_size ;
  let line := line ++ [quote] ++ short_description ++ [quote] in
  do line <- check_and_add_tabs line "short description" short_description
            test_close_bracket_index tab_size ;
  Ok (line ++ text "}," ++ [newline]).

(** [line.startswith("\ttests[] =")] *)
Definition tests_array_line (line : str) : bool :=
  startswith line ([tab] ++ text "tests[] =").

(** [line.startswith("\t\t{")] *)
Definition cpp_test_line (line : str) : bool :=
  startswith line ([tab; tab] ++ text "{").

(** [[
for line in cpp_in:
    cpp_out.write(line)
    if line.startswith("\ttests[] ="):
        break
    ]]
    Returns what remains to be read and what has been written. *)
Fixpoint to_tests_array (cpp_in : list str) (cpp_out : str)
  : list str * str :=
  match cpp_in with
  | [] => ([], cpp_out)
  | line :: rest =>
      if tests_array_line line then (rest, cpp_out ++ line)
      else to_tests_array rest (cpp_out ++ line)
  end.

(** [cpp_in.readline()]: the empty string at the end of the file. *)
Definition readline (cpp_in : list str) : str * list str :=
  match cpp_in with
  | [] => ([], [])
  | line :: rest => (line, rest)
  end.

(** [[
for line in cpp_in:
    if not line.startswith("\t\t{"):
        break
    elif line >= line_to_write:
        break
    else:
        cpp_out.write(line)
    ]]
    Returns [line], what remains to be read and what has been written. *)
Fixpoint to_cpp_insertion_point (line_to_write : str) (cpp_in : list str)
         (line cpp_out : str) : str * list str * str :=
  match cpp_in with
  | [] => (line, [], cpp_out)
  | l :: rest =>
      if negb (cpp_test_line l) then (l, rest, cpp_out)
      else if ge l line_to_write then (l, rest, cpp_out)
      else to_cpp_insertion_point line_to_write rest l (cpp_out ++ l)
  end.

(** What the two [with] blocks of [add_amber_test_to_cpp] write, from
    the lines that [cpp_in] yields. *)
Definition write_cpp_lines (line_to_write : str) (cpp_in : list str) : str :=
  let '(cpp_in, cpp_out) := to_tests_array cpp_in [] in
  let '(line, cpp_in) := readline cpp_in in
  let cpp_out := cpp_out ++ line in
  let '(line, cpp_in, cpp_out) :=
    to_cpp_insertion_point line_to_write cpp_in [] cpp_out in
  let cpp_out :=
    if negb (eqb line line_to_write) then cpp_out ++ line_to_write
    else cpp_out in
  let cpp_out := cpp_out ++ line in
  cpp_out ++ concat cpp_in.

(** [os.path.join(a, b)] of [posixpath]. *)
Definition path_join (a b : str) : str :=
  if startswith b (text "/") then b
  else if (length a =? 0)%nat || endswith a (text "/") then a ++ b
  else a ++ text "/" ++ b.

Definition get_amber_test_file_path (vk_gl_cts amber_test_name : str) : str :=
  fold_left path_join
    [text "external"; text "vulkancts"; text "data"; text "vulkan";
     text "amber"; text "graphicsfuzz"; amber_test_name ++ text ".amber"]
    vk_gl_cts.

Definition get_graphics_fuzz_tests_cpp_file_path (vk_gl_cts : str) : str :=
  fold_left path_join
    [text "external"; text "vulkancts"; text "modules"; text "vulkan";
     text "amber"; text "vktAmberGraphicsFuzzTests.cpp"]
    vk_gl_cts.

(** What [add_amber_test_to_cpp] comes to. *)
Inductive cpp_result :=
| Done (files : gmap str str)
| FileNotFoundError
| Failed (why : assertion) (files : gmap str str)
| NeverEnds.

(** The files, by path, with their text.  The C++ file is copied to
    [cpp_file + ".bak"], written anew from the copy, and the copy is
    removed.  An assertion stops the run with the files as they are
    then. *)
Definition add_amber_test_to_cpp (vk_gl_cts amber_test_name : str)
           (files : gmap str str) : cpp_result :=
  match files !! get_amber_test_file_path vk_gl_cts amber_test_name with
  | None => FileNotFoundError
  | Some amber_test =>
      match get_amber_test_short_description amber_test with
      | AssertionError why => Failed why files
      | Loops => NeverEnds
      | Ok short_description =>
          let cpp_file := get_graphics_fuzz_tests_cpp_file_path vk_gl_cts in
          let cpp_file_bak := cpp_file ++ text ".bak" in
          match files !! cpp_file with
          | None => FileNotFoundError
          | Some cpp =>
              let files := <[cpp_file_bak := cpp]> files in
              match get_cpp_line_to_write amber_test_name short_description with
              | AssertionError why => Failed why files
              | Loops => NeverEnds
              | Ok line_to_write =>
                  let files :=
                    <[cpp_file := write_cpp_lines line_to_write (readlines cpp)]>
                      files in
                  Done (delete cpp_file_bak files)
              end
          end
      end
  end.

(** Words for the statements: a text without line break, a text
    without line break or tab, the width of a line once its tabs are
    expanded, and [n] tabs. *)
Definition no_line_break (s : str) : bool :=
  forallb (fun c => negb ((c =? newline)%N || (c =? carriage_return)%N)) s.

Definition plain (s : str) : bool :=
  forallb (fun c => negb ((c =? tab)%N || (c =? newline)%N ||
                          (c =? carriage_return)%N)) s.

Definition width (tab_size : Z) (line : str) : Z :=
  len (expandtabs line tab_size).

Definition tabs (n : Z) : str := repeat tab (Z.to_nat n).

(** The fields of a line of the table, each with the tabs that follow
    it: the opening bracket, the file name, the test name, the
    description and the closing bracket. *)
Definition cpp_fields (amber_test_name short_description : str) : list str :=
  let n := len amber_test_name in
  let d := len short_description in
  [ [tab; tab] ++ text "{" ++ tabs 1;
    [quote] ++ amber_test_name ++ text ".amber" ++ [quote] ++ text "," ++
      tabs (15 - (21 + n) / 4);
    [quote] ++ amber_test_name ++ [quote] ++ text "," ++
      tabs (25 - (63 + n) / 4);
    [quote] ++ short_description ++ [quote] ++ tabs (47 - (102 + d) / 4);
    text "}," ++ [newline] ].

(** The two [break]s of the loop of [to_cpp_insertion_point]: the line
    is not a line of the table, or it is not smaller than the line to
    write. *)
Definition stops_at (line_to_write line : str) : bool :=
  negb (cpp_test_line line) || ge line line_to_write.

(** A checkout with one Amber test and a table without tests, and the
    checkout after the test has been added to the table. *)
Definition sample_amber_test : str :=
  text "#!amber" ++ [newline] ++
  text "# Short description: A test" ++ [newline].

Definition sample_cpp : list str :=
  [ [tab] ++ text "tests[] =" ++ [newline];
    [tab] ++ text "{" ++ [newline];
    [tab] ++ text "};" ++ [newline] ].


(** The same checkout, for a test whose name has 39 characters. *)
Definition sample_long_name : str :=
  text "a-fragment-shader-with-a-very-long-name".

Definition sample_long_cts : gmap str str :=
  <[get_amber_test_file_path (text "cts") sample_long_name := sample_amber_test]>
    (<[get_graphics_fuzz_tests_cpp_file_path (text "cts") := concat sample_cpp]>
       ∅).


End CtsCpp.

(** ** [gfauto/binaries_util.py]: the built-in recipes *)

Module BuiltInRecipes.
Import BinariesUtil.
Local Open Scope string_scope.

Definition SPIRV_OPT_NO_VALIDATE_AFTER_ALL_TAG : string := "no-validate-after-all".

Definition PLATFORM_SUFFIXES_DEBUG : list string :=
  ["Linux_x64_Debug"; "Windows_x64_Debug"; "Mac_x64_Debug"].

Definition PLATFORM_SUFFIXES_RELEASE : list string :=
  ["Linux_x64_Release"; "Windows_x64_Release"; "Mac_x64_Release"].

Definition PLATFORM_SUFFIXES_RELWITHDEBINFO : list string :=
  ["Linux_x64_RelWithDebInfo"; "Windows_x64_RelWithDebInfo";
   "Mac_x64_RelWithDebInfo"].

(** A [Binary] made without a path has the empty path. *)
Definition DEFAULT_BINARIES : list Binary :=
  [ {| name := "glslangValidator"; tags := ["Debug"]; path := "";
       version := "9866ad9195cec8f266f16191fb4ec2ce4896e5c0" |};
    {| name := "spirv-opt"; tags := ["Debug"]; path := "";
       version := "4a00a80c40484a6f6f72f48c9d34943cf8f180d4" |};
    {| name := "spirv-dis"; tags := ["Debug"]; path := "";
       version := "4a00a80c40484a6f6f72f48c9d34943cf8f180d4" |};
    {| name := "spirv-val"; tags := ["Debug"]; path := "";
       version := "4a00a80c40484a6f6f72f48c9d34943cf8f180d4" |};
    {| name := "swift_shader_icd"; tags := ["Debug"]; path := "";
       version := "a0b3a02601da8c48012a4259d335be04d00818da" |} ].

(** [@attr.dataclass class ToolNameAndPath] *)
Module ToolNameAndPath.
Record t := {
  name : string;
  subpath : string;
  add_exe_on_windows : bool
}.
End ToolNameAndPath.

(** [sub in s], on strings *)
Fixpoint contains (s sub : string) : bool :=
  String.prefix sub s ||
  match s with
  | EmptyString => false
  | String _ s' => contains s' sub
  end.

(** [None]: the [AssertionError] at the end. *)
Definition get_platform_from_platform_suffix (platform_suffix : string)
  : option string :=
  let platforms := ["Linux"; "Mac"; "Windows"] in
  List.find (fun platform => contains platform_suffix platform) platforms.

(** The list [tags] is extended in place: here the extended list is
    returned. *)
Definition add_common_tags_from_platform_suffix (tags : list string)
           (platform_suffix : string) : option (list string) :=
  match get_platform_from_platform_suffix platform_suffix with
  | None => None
  | Some platform =>
      let tags := (tags ++ [platform])%list in
      let common_tags := ["Release"; "Debug"; "RelWithDebInfo"; "x64"] in
      Some (tags ++
            List.filter (fun common_tag => contains platform_suffix common_tag)
              common_tags)%list
  end.

(** [recipe_wrap.RecipeWrap(path, recipe)], as [binaries_util.py] makes
    it: the recipe is a [Recipe] that downloads and extracts an archive
    set. *)
Record RecipeWrap := {
  recipe_path : string;
  download_and_extract_archive_set : ArchiveSet
}.

(** The recipe of one platform suffix. *)
Definition built_in_recipe (project_name version_hash build_version_hash : string)
           (tools : list ToolNameAndPath.t) (platform_suffix : string)
           (tags : list string) : RecipeWrap :=
  let binaries :=
    map (fun binary =>
           {| name := ToolNameAndPath.name binary;
              tags := tags;
              path :=
                project_name +:+ "/" +:+
                (if existsb (String.eqb "Windows") tags &&
                    ToolNameAndPath.add_exe_on_windows binary
                 then ToolNameAndPath.subpath binary +:+ ".exe"
                 else ToolNameAndPath.subpath binary);
              version := version_hash |})
        tools in
  {| recipe_path :=
       "//binaries/" +:+ project_name +:+ "_" +:+ version_hash +:+ "_" +:+
       platform_suffix;
     download_and_extract_archive_set :=
       {| archives :=
            [ {| url :=
                   "https://github.com/paulthomson/build-" +:+ project_name +:+
                   "/releases/download/github/paulthomson/build-" +:+
                   project_name +:+ "/" +:+ build_version_hash +:+ "/build-" +:+
                   project_name +:+ "-" +:+ build_version_hash +:+ "-" +:+
                   platform_suffix +:+ ".zip";
                 output_file := project_name +:+ ".zip";
                 output_directory := project_name |} ];
          binaries := binaries |} |}.

(** The loop over the platform suffixes; [None] when a suffix names no
    platform. *)
Fixpoint recipes_from_build_github_repo
         (project_name version_hash build_version_hash : string)
         (platform_suffixes : list string) (tools : list ToolNameAndPath.t)
         (result : list RecipeWrap) : option (list RecipeWrap) :=
  match platform_suffixes with
  | [] => Some result
  | platform_suffix :: rest =>
      match add_common_tags_from_platform_suffix [] platform_suffix with
      | None => None
      | Some tags =>
          recipes_from_build_github_repo project_name version_hash
            build_version_hash rest tools
            (result ++
             [built_in_recipe project_name version_hash build_version_hash
                tools platform_suffix tags])%list
      end
  end.

Definition _get_built_in_binary_recipe_from_build_github_repo
           (project_name version_hash build_version_hash : string)
           (platform_suffixes : list string) (tools : list ToolNameAndPath.t)
  : option (list RecipeWrap) :=
  recipes_from_build_github_repo project_name version_hash build_version_hash
    platform_suffixes tools [].

Definition tool (name subpath : string) : ToolNameAndPath.t :=
  {| ToolNameAndPath.name := name;
     ToolNameAndPath.subpath := subpath;
     ToolNameAndPath.add_exe_on_windows := true |}.

Definition _get_built_in_swift_shader_version
           (version_hash build_version_hash : string)
  : option (list RecipeWrap) :=
  _get_built_in_binary_recipe_from_build_github_repo
    "swiftshader" version_hash build_version_hash
    (PLATFORM_SUFFIXES_RELEASE ++ PLATFORM_SUFFIXES_DEBUG ++
     PLATFORM_SUFFIXES_RELWITHDEBINFO)%list
    [ {| ToolNameAndPath.name := "swift_shader_icd";
         ToolNameAndPath.subpath := "lib/vk_swiftshader_icd.json";
         ToolNameAndPath.add_exe_on_windows := false |} ].

Definition _get_built_in_spirv_tools_version
           (version_hash build_version_hash : string)
  : option (list RecipeWrap) :=
  _get_built_in_binary_recipe_from_build_github_repo
    "SPIRV-Tools" version_hash build_version_hash
    (PLATFORM_SUFFIXES_RELEASE ++ PLATFORM_SUFFIXES_DEBUG)%list
    [ tool "spirv-as" "bin/spirv-as";
      tool "spirv-dis" "bin/spirv-dis";
      tool "spirv-opt" "bin/spirv-opt";
      tool "spirv-val" "bin/spirv-val" ].

Definition _get_built_in_glslang_version
           (version_hash build_version_hash : string)
  : option (list RecipeWrap) :=
  _get_built_in_binary_recipe_from_build_github_repo
    "glslang" version_hash build_version_hash
    (PLATFORM_SUFFIXES_RELEASE ++ PLATFORM_SUFFIXES_DEBUG)%list
    [ tool "glslangValidator" "bin/glslangValidator" ].

Definition get_graphics_fuzz_121 : list RecipeWrap :=
  [ {| recipe_path := "//binaries/graphicsfuzz_v1.2.1";
       download_and_extract_archive_set :=
         {| archives :=
              [ {| url :=
                     "https://github.com/google/graphicsfuzz/releases/download/v1.2.1/graphicsfuzz.zip";
                   output_file := "graphicsfuzz.zip";
                   output_directory := "graphicsfuzz" |} ];
            binaries :=
              [ {| name := "glslangValidator"; tags := ["Linux"; "x64"; "Release"];
            path := "graphicsfuzz/bin/Linux/glslangValidator";
            version := "40c16ec0b3ad03fc170f1369a58e7bbe662d82cd" |};
          {| name := "glslangValidator"; tags := ["Windows"; "x64"; "Release"];
            path := "graphicsfuzz/bin/Windows/glslangValidator.exe";
            version := "40c16ec0b3ad03fc170f1369a58e7bbe662d82cd" |};
          {| name := "glslangValidator"; tags := ["Mac"; "x64"; "Release"];
            path := "graphicsfuzz/bin/Mac/glslangValidator";
            version := "40c16ec0b3ad03fc170f1369a58e7bbe662d82cd" |};
          {| name := "spirv-opt"; tags := ["Linux"; "x64"; "Release"; SPIRV_OPT_NO_VALIDATE_AFTER_ALL_TAG];
            path := "graphicsfuzz/bin/Linux/spirv-opt";
            version := "a2ef7be242bcacaa9127a3ce011602ec54b2c9ed" |};
          {| name := "spirv-opt"; tags := ["Windows"; "x64"; "Release"; SPIRV_OPT_NO_VALIDATE_AFTER_ALL_TAG];
            path := "graphicsfuzz/bin/Windows/spirv-opt.exe";
            version := "a2ef7be242bcacaa9127a3ce011602ec54b2c9ed" |};
          {| name := "spirv-opt"; tags := ["Mac"; "x64"; "Release"; SPIRV_OPT_NO_VALIDATE_AFTER_ALL_TAG];
            path := "graphicsfuzz/bin/Mac/spirv-opt";
            version := "a2ef7be242bcacaa9127a3ce011602ec54b2c9ed" |};
          {| name := "spirv-dis"; tags := ["Linux"; "x64"; "Release"];
            path := "graphicsfuzz/bin/Linux/spirv-dis";
            version := "a2ef7be242bcacaa9127a3ce011602ec54b2c9ed" |};
          {| name := "spirv-dis"; tags := ["Windows"; "x64"; "Release"];
            path := "graphicsfuzz/bin/Windows/spirv-dis.exe";
            version := "a2ef7be242bcacaa9127a3ce011602ec54b2c9ed" |};
          {| name := "spirv-dis"; tags := ["Mac"; "x64"; "Release"];
            path := "graphicsfuzz/bin/Mac/spirv-dis";
            version := "a2ef7be242bcacaa9127a3ce011602ec54b2c9ed" |};
          {| name := "spirv-as"; tags := ["Linux"; "x64"; "Release"];
            path := "graphicsfuzz/bin/Linux/spirv-as";
            version := "a2ef7be242bcacaa9127a3ce011602ec54b2c9ed" |};
          {| name := "spirv-as"; tags := ["Windows"; "x64"; "Release"];
            path := "graphicsfuzz/bin/Windows/spirv-as.exe";
            version := "a2ef7be242bcacaa9127a3ce011602ec54b2c9ed" |};
          {| name := "spirv-as"; tags := ["Mac"; "x64"; "Release"];
            path := "graphicsfuzz/bin/Mac/spirv-as";
            version := "a2ef7be242bcacaa9127a3ce011602ec54b2c9ed" |};
          {| name := "spirv-val"; tags := ["Linux"; "x64"; "Release"];
            path := "graphicsfuzz/bin/Linux/spirv-val";
            version := "a2ef7be242bcacaa9127a3ce011602ec54b2c9ed" |};
          {| name := "spirv-val"; tags := ["Windows"; "x64"; "Release"];
            path := "graphicsfuzz/bin/Windows/spirv-val.exe";
            version := "a2ef7be242bcacaa9127a3ce011602ec54b2c9ed" |};
          {| name := "spirv-val"; tags := ["Mac"; "x64"; "Release"];
            path := "graphicsfuzz/bin/Mac/spirv-val";
            version := "a2ef7be242bcacaa9127a3ce011602ec54b2c9ed" |} ] |} |} ].

(** The [+] of two lists, when both have been made. *)
Definition and_then (a b : option (list RecipeWrap))
  : option (list RecipeWrap) :=
  match a, b with
  | Some x, Some y => Some (x ++ y)%list
  | _, _ => None
  end.

Definition BUILT_IN_BINARY_RECIPES : option (list RecipeWrap) :=
  and_then
    (and_then
       (and_then
          (and_then
             (_get_built_in_spirv_tools_version
                "4a00a80c40484a6f6f72f48c9d34943cf8f180d4"
                "422f2fe0f0f32494fa687a12ba343d24863b330a")
             (_get_built_in_glslang_version
                "9866ad9195cec8f266f16191fb4ec2ce4896e5c0"
                "1586e566f4949b1957e7c32454cbf27e501ed632"))
          (_get_built_in_swift_shader_version
             "a0b3a02601da8c48012a4259d335be04d00818da"
             "08fb8d429272ef8eedb4d610943b9fe59d336dc6"))
       (Some get_graphics_fuzz_121))
    (_get_built_in_spirv_tools_version
       "1c1e749f0b51603032ed573acb5ee4cd6fee8d01"
       "7663d620a7fbdccb330d2baec138d0e3e096457c").

(** The catalog of a manager that finds the recipes above among its
    artifacts: their archive sets with their paths, in order. *)
Definition artifacts_of (recipes : list RecipeWrap)
  : list (ArchiveSet * string) :=
  map (fun r => (download_and_extract_archive_set r, recipe_path r)) recipes.

(** Where a default binary is expected: the project that builds it,
    with the path of the tool in the archive. *)
Definition project_of (b : Binary) : string * string :=
  if String.eqb (name b) "glslangValidator"
  then ("glslang", "bin/glslangValidator")
  else if String.eqb (name b) "swift_shader_icd"
  then ("swiftshader", "lib/vk_swiftshader_icd.json")
  else ("SPIRV-Tools", "bin/" +:+ name b).

Definition exe_on (platform : string) (b : Binary) : string :=
  if String.eqb platform "Windows" &&
     negb (String.eqb (name b) "swift_shader_icd")
  then ".exe" else "".

End BuiltInRecipes.

(** ** Words for the statements about the rules of the classifier *)

Module FuzzRules.
Import Text Re Fuzz.

(** The class of group 1 of [PATTERN_SPIRV_OPT_ERROR]: [\w], the space,
    the dot, the apostrophe, the hyphen and the double quote. *)
Definition spirv_opt_message : cset :=
  OneOf [Word; Chr (ord " "); Chr (ord "."); Chr (ord "'");
         Chr (ord "-"); Chr dquote].

(** The class of group 1 of [PATTERN_AMBER_ERROR] and of
    [PATTERN_GLSLANG_ERROR]: [\w] and the space. *)
Definition words_and_spaces : cset := OneOf [Word; Chr (ord " ")].

(** The two classes of group 1 of [PATTERN_CATCHSEGV_STACK_FRAME]: the
    name of the file, without slash or parenthesis, and the symbol,
    without closing parenthesis or plus. *)
Definition file_name_chars : cset := NoneOf [Chr (ord "/"); Chr (ord "(")].
Definition symbol_chars : cset := NoneOf [Chr (ord ")"); Chr (ord "+")].

(** A run of characters of a class ends before [s]: [s] is empty or
    starts with a character outside the class. *)
Definition ends_run (p : char -> bool) (s : str) : Prop :=
  match s with
  | [] => True
  | c :: _ => p c = false
  end.

(** [::q1::q2...::fn], a qualified name of C++. *)
Definition qualified (quals : list str) (fn : str) : str :=
  concat (map (fun q => text "::" ++ q) quals) ++ text "::" ++ fn.

(** The triggers of the four fixed signatures, and those of the three
    rules that read an error message. *)
Definition fixed_triggers : list string :=
  ["Shader compilation failed"; "Failed to link shaders";
   "Calling vkCreateGraphicsPipelines Fail";
   "Resource deadlock would occur"]%string.

Definition message_triggers : list string :=
  ["error: line "; "0 pass, 1 fail";
   "SPIR-V is not generated for failed compile or link"]%string.

Definition backtrace_triggers : list string :=
  ["#00 pc"; "Backtrace:"]%string.

(** None of the triggers occurs in the log. *)
Definition none_occurs (triggers : list string) (log_contents : str) : Prop :=
  Forall (fun trigger => ~ occurs_in (text trigger) log_contents) triggers.

(** No colon of [s] is followed by a digit. *)
Definition colon_digit_free {U : Unicode} (s : str) : Prop :=
  forall a d b, s = a ++ text ":" ++ d :: b -> is_digit d = false.

(** The same, as a test. *)
Fixpoint no_colon_digit {U : Unicode} (s : str) : bool :=
  match s with
  | [] => true
  | c :: s' =>
      match s' with
      | d :: _ => negb ((c =? ord ":")%N && is_digit d)
      | [] => true
      end && no_colon_digit s'
  end.

(** [s] is empty or ends with a character that is not a word
    character. *)
Definition ends_outside_word {U : Unicode} (s : str) : Prop :=
  forall p z, s = p ++ [z] -> is_word z = false.

(** The two ways a name of word characters after a parenthesis is
    followed: by an offset, [+digits)], or by another parenthesis. *)
Definition c_function_tail {U : Unicode} (tail : str) : Prop :=
  (exists ds rest,
      tail = text "+" ++ ds ++ text ")" ++ rest /\
      ds <> [] /\ forallb is_digit ds = true) \/
  (exists rest, tail = text "(" ++ rest).

End FuzzRules.

(** ** [gfauto/fuzz.py]: [handle_test] and [handle_glsl_test] *)

Module HandleGlslTest.
Import FuzzLoop.
Local Open Scope string_scope.

Definition REFERENCE_DIR : string := "reference".
Definition VARIANT_DIR : string := "variant".
Definition SHADER_JOB : string := "shader.json".

Definition test_get_shader_job_path (test_dir : Path) (is_variant : bool)
  : Path :=
  (test_dir / "source" / (if is_variant then VARIANT_DIR else REFERENCE_DIR)
   / SHADER_JOB)%path.

Definition test_get_device_directory (test_dir : Path) (device_name : string)
  : Path :=
  (test_dir / "results" / device_name)%path.

Definition test_get_results_directory (test_dir : Path) (device_name : string)
           (is_variant : bool) : Path :=
  (test_get_device_directory test_dir device_name
   / (if is_variant then VARIANT_DIR else REFERENCE_DIR))%path.

Definition test_get_reduced_test_dir (test_dir : Path)
           (device_name reduction_name : string) : Path :=
  (test_get_device_directory test_dir device_name / "reductions"
   / reduction_name)%path.

Definition result_get_status_path (result_output_dir : Path) : Path :=
  (result_output_dir / "STATUS")%path.

Definition result_get_log_path (result_output_dir : Path) : Path :=
  (result_output_dir / "log.txt")%path.

(** What a call comes to: a value, or an exception. *)
Inductive result (A : Type) :=
| Returns (a : A)
| Raises.
Arguments Returns {A} a.
Arguments Raises {A}.

Section Handle.
Context {U : Re.Unicode}.

(** The file system and the devices, the test metadata, and what is
    outside [fuzz.py] or depends on external tools: the theorems hold
    whatever these do.  A function that only reads takes the world and
    returns no new one. *)
Variable World : Type.
Variable Test : Type.
Variable run_shader_job :
  Path -> Path -> TestGlsl -> Device -> World -> result Path * World.
Variable file_read_text_or_else : Path -> string -> World -> string.
Variable file_read_text : Path -> World -> result Text.str.
Variable copy_dir : Path -> Path -> World -> result Path * World.
Variable test_dir_metadata_read : Path -> World -> result Test.
Variable test_dir_metadata_write :
  Test -> Path -> World -> result unit * World.
Variable run_reduction :
  Path -> Path -> bool -> string -> World -> result Path * World.
Variable symlink_to : Path -> string -> World -> result unit * World.

(** [test.HasField("glsl")] with [test.glsl];
    [test.crash_signature = signature]; [test.device.CopyFrom(device)];
    [test.device.name]. *)
Variable glsl : Test -> option TestGlsl.
Variable set_crash_signature : Text.str -> Test -> Test.
Variable device_CopyFrom : Device -> Test -> Test.
Variable device_name : Test -> string.

(** [test_dir.name], and a text as a part of a path. *)
Variable path_name : Path -> string.
Variable path_of_text : Text.str -> string.

Definition result_get_status (result_output_dir : Path) (w : World) : string :=
  let status_file := result_get_status_path result_output_dir in
  file_read_text_or_else status_file "UNEXPECTED_ERROR" w.

(** The first loop of [handle_glsl_test], with a log of the devices
    [run_shader_job] has been called for, each with the status read
    after the call ([None] when the call raised). *)
Fixpoint run_devices (test : TestGlsl) (test_dir : Path)
         (devices : list Device) (w : World)
         (ran : list (Device * option string))
  : result unit * World * list (Device * option string) :=
  match devices with
  | [] => (Returns tt, w, ran)
  | device :: rest =>
      let '(r, w) :=
        run_shader_job (test_get_shader_job_path test_dir true)
          (test_get_results_directory test_dir (name device) true)
          test device w in
      match r with
      | Raises => (Raises, w, (ran ++ [(device, None)])%list)
      | Returns result_output_dir =>
          let status := result_get_status result_output_dir w in
          let ran := (ran ++ [(device, Some status)])%list in
          if HasField device preprocess && String.eqb status "HOST_CRASH"
          then (Returns tt, w, ran)
          else run_devices test test_dir rest w ran
      end
  end.

(** The second loop: a report for every device whose status is
    [CRASH] or [HOST_CRASH]. *)
Fixpoint report_devices (test_dir reports_dir : Path)
         (devices : list Device) (w : World) (report_paths : list Path)
  : result (list Path) * World :=
  match devices with
  | [] => (Returns report_paths, w)
  | device :: rest =>
      let result_output_dir :=
        test_get_results_directory test_dir (name device) true in
      let status := result_get_status result_output_dir w in
      let report_subdirectory_name :=
        if String.eqb status "CRASH" then "crashes"
        else if String.eqb status "HOST_CRASH" then "host_crashes"
        else "" in
      if negb (String.eqb report_subdirectory_name "") then
        let log_path := result_get_log_path result_output_dir in
        match file_read_text log_path w with
        | Raises => (Raises, w)
        | Returns log_contents =>
            let signature := Fuzz.get_signature_from_log_contents log_contents in
            match copy_dir result_output_dir
                    (reports_dir / report_subdirectory_name
                     / path_of_text signature
                     / (path_name test_dir +:+ "_" +:+ name device))%path w
            with
            | (Raises, w) => (Raises, w)
            | (Returns test_dir_in_reports, w) =>
                match test_dir_metadata_read test_dir_in_reports w with
                | Raises => (Raises, w)
                | Returns test_metadata =>
                    let test_metadata :=
                      set_crash_signature signature test_metadata in
                    let test_metadata :=
                      device_CopyFrom device test_metadata in
                    match test_dir_metadata_write test_metadata
                            test_dir_in_reports w with
                    | (Raises, w) => (Raises, w)
                    | (Returns _, w) =>
                        report_devices test_dir reports_dir rest w
                          (report_paths ++ [test_dir_in_reports])%list
                    end
                end
            end
        end
      else report_devices test_dir reports_dir rest w report_paths
  end.

(** The third loop: two reductions for every report, and a link to the
    second. *)
Fixpoint reduce_reports (report_paths : list Path) (w : World)
  : result unit * World :=
  match report_paths with
  | [] => (Returns tt, w)
  | test_dir_in_reports :: rest =>
      match run_reduction test_dir_in_reports test_dir_in_reports true
              "part_1_preserve_semantics" w with
      | (Raises, w) => (Raises, w)
      | (Returns part_1_reduced_test, w) =>
          let part_2_name := "part_2_change_semantics" in
          match run_reduction test_dir_in_reports part_1_reduced_test false
                  part_2_name w with
          | (Raises, w) => (Raises, w)
          | (Returns _, w) =>
              match test_dir_metadata_read test_dir_in_reports w with
              | Raises => (Raises, w)
              | Returns test_metadata =>
                  let best_reduced_test :=
                    test_get_reduced_test_dir test_dir_in_reports
                      (device_name test_metadata) "best" in
                  match symlink_to best_reduced_test part_2_name w with
                  | (Raises, w) => (Raises, w)
                  | (Returns _, w) => reduce_reports rest w
                  end
              end
          end
      end
  end.

(** [handle_glsl_test], with the log of the first loop. *)
Definition handle_glsl_test (test : TestGlsl) (test_dir reports_dir : Path)
           (active_devices : list Device) (w : World)
  : result (list Path) * World * list (Device * option string) :=
  match run_devices test test_dir active_devices w [] with
  | (Raises, w, ran) => (Raises, w, ran)
  | (Returns _, w, ran) =>
      match report_devices test_dir reports_dir active_devices w [] with
      | (Raises, w) => (Raises, w, ran)
      | (Returns report_paths, w) =>
          match reduce_reports report_paths w with
          | (Raises, w) => (Raises, w, ran)
          | (Returns _, w) => (Returns report_paths, w, ran)
          end
      end
  end.

(** [handle_test]: a test that is not a GLSL test raises
    [AssertionError]. *)
Definition handle_test (test_dir reports_dir : Path)
           (active_devices : list Device) (w : World)
  : result (list Path) * World * list (Device * option string) :=
  match test_dir_metadata_read test_dir w with
  | Raises => (Raises, w, [])
  | Returns test =>
      match glsl test with
      | Some test_glsl =>
          handle_glsl_test test_glsl test_dir reports_dir active_devices w
      | None => (Raises, w, [])
      end
  end.

(** The status that ends the first loop after a device. *)
Definition stops_after (entry : Device * option string) : bool :=
  match entry with
  | (device, Some status) =>
      HasField device preprocess && String.eqb status "HOST_CRASH"
  | (_, None) => true
  end.

(** The status of a device gives a report. *)
Definition crashed (status : string) : bool :=
  String.eqb status "CRASH" || String.eqb status "HOST_CRASH".

End Handle.

(** A world in which every run succeeds: [run_shader_job] returns its
    output directory and every status file holds [SUCCESS].  The world
    counts the calls of [run_shader_job]. *)
Definition sample_run_shader_job (shader_job output_dir : Path)
           (test : TestGlsl) (device : Device) (w : nat)
  : result Path * nat :=
  (Returns output_dir, S w).

Definition sample_status (file : Path) (default : string) (w : nat) : string :=
  "SUCCESS".

Definition sample_devices : list Device :=
  [ {| name := "host_preprocessor"; device := Some preprocess |};
    {| name := "pixel"; device := Some android |} ].

Definition sample_test_glsl : TestGlsl :=
  {| glslang_version_hash := ""; spirv_opt_version_hash := "";
     spirv_opt_args := ["-O"] |}.

End HandleGlslTest.

(* ===================================================================== *)
(** * Part II: the theorems                                                *)
(* ===================================================================== *)

Section TextFacts.
Import Text.

Lemma startswith_app (p s : str) : startswith (p ++ s) p = true.
Proof.
  induction p as [|a p IH]; simpl; [done|].
  by rewrite N.eqb_refl, IH.
Qed.

Lemma startswith_spec (s p : str) :
  startswith s p = true <-> exists r, s = p ++ r.
Proof.
  split.
  - revert s; induction p as [|a p IH]; intros s H; simpl in *.
    + by exists s.
    + destruct s as [|b s]; [done|].
      apply andb_true_iff in H as [Hab H].
      apply N.eqb_eq in Hab as ->.
      destruct (IH _ H) as [r ->]. by exists r.
  - intros [r ->]. apply startswith_app.
Qed.

Lemma endswith_app (s e : str) : endswith (s ++ e) e = true.
Proof.
  unfold endswith. rewrite rev_app_distr. apply startswith_app.
Qed.

End TextFacts.

Section UtilFacts.
Import Text Util.

Lemma slice_to_neg_app (s e : str) :
  e <> [] -> slice_to (s ++ e) (- Z.of_nat (length e)) = s.
Proof.
  intros He. unfold slice_to.
  destruct e as [|c e]; [done|].
  rewrite length_app.
  replace (- Z.of_nat (length (c :: e)) <? 0) with true
    by (symmetry; apply Z.ltb_lt; simpl; lia).
  replace (Z.to_nat _) with (length s) by lia.
  by rewrite take_app_length.
Qed.

(** C10: for a nonempty suffix [e], [remove_end (s + e, e)] returns
    [s]; for the empty suffix, [remove_end (s, "")] returns the empty
    string, not [s]. *)
Theorem remove_end_strips_suffix :
  (forall s e : str, e <> [] -> remove_end (s ++ e) e = Ok s) /\
  (forall s : str, remove_end s [] = Ok []).
Proof.
  split.
  - intros s e He. unfold remove_end.
    rewrite endswith_app. f_equal. by apply slice_to_neg_app.
  - intros s. unfold remove_end, endswith. simpl.
    f_equal. unfold slice_to. simpl.
    rewrite Z.min_l by lia. apply take_0.
Qed.

(** [remove_end] on ["shader.amber"]. *)
Lemma remove_end_strips_suffix_witness :
  text ".amber" <> [] /\
  remove_end (text "shader.amber") (text ".amber") = Ok (text "shader") /\
  remove_end (text "shader.amber") [] = Ok [].
Proof.
  destruct remove_end_strips_suffix as [H1 H2].
  split; [discriminate|]. split.
  - apply (H1 (text "shader") (text ".amber")). discriminate.
  - apply H2.
Defined.

End UtilFacts.

(** ** The matcher is sound for a declarative reading of the patterns *)

Section ReFacts.
Import Text Re.
Context {U : Unicode}.

Lemma star_sound (p : char -> bool) (s : str) :
  forall pos g k x,
    star p pos s g k = Some x ->
    exists w s', s = w ++ s' /\ forallb p w = true /\
                 k (pos + length w)%nat s' g = Some x.
Proof.
  induction s as [|c s IH]; intros pos g k x H; simpl in H.
  - exists [], []. simpl. by rewrite Nat.add_0_r.
  - destruct (p c) eqn:Hc.
    + destruct (star p (S pos) s g k) eqn:E.
      * injection H as <-. apply IH in E as (w & s' & -> & Hw & Hk).
        exists (c :: w), s'. simpl. rewrite Hc, Hw.
        by rewrite Nat.add_succ_r.
      * exists [], (c :: s). simpl. by rewrite Nat.add_0_r.
    + exists [], (c :: s). simpl. by rewrite Nat.add_0_r.
Qed.

Lemma m_sound (r : regex) :
  forall pos s g k x,
    m r pos s g k = Some x ->
    exists pos' s' g', matches r pos s g pos' s' g' /\ k pos' s' g' = Some x.
Proof.
  induction r as [l|cs|cs|cs|r1 IH1 r2 IH2|r1 IH1 r2 IH2|n r1 IH1| |];
    intros pos s g k x H; simpl in H.
  - destruct (startswith s l) eqn:E; [|done].
    apply startswith_spec in E as [t ->].
    rewrite drop_app_length in H.
    by exists (pos + length l)%nat, t, g.
  - destruct s as [|c s]; [done|].
    destruct (in_cset cs c) eqn:E; [|done].
    exists (S pos), s, g. split; [|done]. by exists c.
  - apply star_sound in H as (w & s' & -> & Hw & Hk).
    exists (pos + length w)%nat, s', g. split; [|done]. by exists w.
  - destruct s as [|c s]; [done|].
    destruct (in_cset cs c) eqn:E; [|done].
    apply star_sound in H as (w & s' & -> & Hw & Hk).
    exists (S pos + length w)%nat, s', g. split; [|done].
    exists (c :: w). simpl. rewrite E, Hw.
    repeat split; try done; lia.
  - apply IH1 in H as (p1 & s1 & g1 & M1 & H).
    apply IH2 in H as (p2 & s2 & g2 & M2 & H).
    exists p2, s2, g2. split; [|done]. by exists p1, s1, g1.
  - destruct (m r1 pos s g k) eqn:E.
    + injection H as <-. apply IH1 in E as (p1 & s1 & g1 & M1 & H).
      exists p1, s1, g1. split; [by left|done].
    + apply IH2 in H as (p2 & s2 & g2 & M2 & H).
      exists p2, s2, g2. split; [by right|done].
  - apply IH1 in H as (p1 & s1 & g1 & M1 & H).
    exists p1, s1, ((n, take (p1 - pos) s) :: g1). split; [|done].
    by exists g1.
  - destruct (pos =? 0)%nat eqn:E; [|done].
    apply Nat.eqb_eq in E. by exists pos, s, g.
  - destruct s as [|c [|c' s]]; [| |done].
    + exists pos, [], g. split; [|done]. repeat split; by left.
    + destruct (c =? newline)%N eqn:E; [|done].
      apply N.eqb_eq in E as ->.
      exists pos, [newline], g. split; [|done]. repeat split; by right.
Qed.

(** A match consumes a prefix of what remained, and the position
    moves on by its length. *)
Lemma matches_consumes (r : regex) :
  forall pos s g pos' s' g',
    matches r pos s g pos' s' g' ->
    exists w, s = w ++ s' /\ pos' = (pos + length w)%nat.
Proof.
  induction r as [l|cs|cs|cs|r1 IH1 r2 IH2|r1 IH1 r2 IH2|n r1 IH1| |];
    intros pos s g pos' s' g' H; simpl in H.
  - destruct H as (-> & -> & _). by exists l.
  - destruct H as (c & _ & -> & -> & _). exists [c]. simpl. split; [done|lia].
  - destruct H as (w & _ & -> & -> & _). by exists w.
  - destruct H as (w & _ & _ & -> & -> & _). by exists w.
  - destruct H as (p1 & s1 & g1 & M1 & M2).
    apply IH1 in M1 as (w1 & -> & ->). apply IH2 in M2 as (w2 & -> & ->).
    exists (w1 ++ w2). rewrite length_app, <- app_assoc. split; [done|lia].
  - destruct H as [H|H]; eauto.
  - destruct H as (g1 & M1 & _). eauto.
  - destruct H as (_ & -> & -> & _). exists []. simpl. split; [done|lia].
  - destruct H as (_ & -> & -> & _). exists []. simpl. split; [done|lia].
Qed.

(** What a group captures is the text its body consumed. *)
Lemma matches_group (n : nat) (r : regex) pos s g pos' s' g' :
  matches (Group n r) pos s g pos' s' g' ->
  exists w g1, s = w ++ s' /\ matches r pos s g pos' s' g1 /\
               g' = (n, w) :: g1.
Proof.
  intros (g1 & M & ->).
  destruct (matches_consumes _ _ _ _ _ _ _ M) as (w & -> & ->).
  exists w, g1. repeat split; [done|].
  replace (pos + length w - pos)%nat with (length w) by lia.
  by rewrite take_app_length.
Qed.

Lemma search_from_sound (r : regex) (s : str) :
  forall pos e g,
    search_from r pos s = Some (e, g) ->
    exists pre p s0 s', s = pre ++ s0 /\ matches r p s0 [] e s' g.
Proof.
  induction s as [|c s IH]; intros pos e g H; simpl in H.
  - destruct (m r pos [] [] final) eqn:E; [|done].
    injection H as ->. apply m_sound in E as (p' & s' & g' & M & Hk).
    injection Hk as -> ->. by exists [], pos, [], s'.
  - destruct (m r pos (c :: s) [] final) eqn:E.
    + injection H as ->. apply m_sound in E as (p' & s' & g' & M & Hk).
      injection Hk as -> ->. by exists [], pos, (c :: s), s'.
    + apply IH in H as (pre & p & s0 & s' & -> & M).
      by exists (c :: pre), p, s0, s'.
Qed.

(** A match found by [search] is a match of the pattern somewhere in
    the string. *)
Lemma search_sound (r : regex) (s : str) e g :
  search r s = Some (e, g) ->
  exists pre p s0 s', s = pre ++ s0 /\ matches r p s0 [] e s' g.
Proof. apply search_from_sound. Qed.

End ReFacts.

(** ** What the two substitutions of the classifier compute *)

Section SubFacts.
Import Text Re Fuzz.
Context {U : Unicode}.

Lemma star_final_total (p : char -> bool) (s : str) :
  forall pos g, exists x, star p pos s g final = Some x.
Proof.
  induction s as [|c s IH]; intros pos g; simpl; [by eexists|].
  destruct (p c); [|by eexists].
  destruct (IH (S pos) g) as [x ->]. by eexists.
Qed.

(** Against the final continuation, a repetition stops after a run of
    characters of the class. *)
Lemma star_final_run (p : char -> bool) (s : str) pos g :
  exists w s', s = w ++ s' /\ forallb p w = true /\
               star p pos s g final = Some ((pos + length w)%nat, g).
Proof.
  destruct (star_final_total p s pos g) as [x Hx].
  destruct (star_sound _ _ _ _ _ _ Hx) as (w & s' & -> & Hw & Hk).
  exists w, s'. repeat split; [done|]. by rewrite Hx, <- Hk.
Qed.

Lemma sub_from_one (cs : cset) (repl : str) :
  forall fuel pos s,
    (length s < fuel)%nat ->
    sub_from fuel (One cs) repl pos s =
    flat_map (fun c => if in_cset cs c then repl else [c]) s.
Proof.
  induction fuel as [|fuel IH]; intros pos s Hlen; [lia|].
  destruct s as [|c s]; [done|].
  simpl in Hlen. cbn [sub_from m flat_map].
  destruct (in_cset cs c); cbn [final].
  - replace (pos <? S pos)%nat with true by (symmetry; apply Nat.ltb_lt; lia).
    replace (S pos - pos)%nat with 1%nat by lia.
    cbn [drop]. rewrite drop_0. f_equal. apply IH. lia.
  - cbn [app]. f_equal. apply IH. lia.
Qed.

Lemma filter_all_out (p : char -> bool) (w : str) :
  forallb p w = true -> List.filter (fun c => negb (p c)) w = [].
Proof.
  induction w as [|c w IH]; simpl; [done|].
  intros [Hc Hw]%andb_true_iff. rewrite Hc. simpl. by apply IH.
Qed.

Lemma sub_from_plus_delete (cs : cset) :
  forall fuel pos s,
    (length s < fuel)%nat ->
    sub_from fuel (Plus cs) [] pos s =
    List.filter (fun c => negb (in_cset cs c)) s.
Proof.
  induction fuel as [|fuel IH]; intros pos s Hlen; [lia|].
  destruct s as [|c s]; [done|].
  simpl in Hlen. cbn [sub_from m List.filter].
  destruct (in_cset cs c) eqn:Hc; cbn [negb].
  - destruct (star_final_run (in_cset cs) s (S pos) []) as (w & s' & -> & Hw & ->).
    replace (pos <? S pos + length w)%nat with true
      by (symmetry; apply Nat.ltb_lt; lia).
    replace (S pos + length w - pos)%nat with (S (length w)) by lia.
    cbn [drop app]. rewrite drop_app_length.
    rewrite List.filter_app, (filter_all_out _ _ Hw). cbn [app].
    apply IH. rewrite length_app in Hlen. lia.
  - f_equal. apply IH. lia.
Qed.

(** [re.sub(r"\d+", "", group)] deletes the digits. *)
Lemma remove_numbers_spec (group : str) :
  remove_numbers group = List.filter (fun c => negb (is_digit c)) group.
Proof.
  unfold remove_numbers, sub. rewrite sub_from_plus_delete by lia.
  apply List.filter_ext. intros c. simpl. by rewrite orb_false_r.
Qed.

(** [re.sub(r"[^\w]", "_", group)] turns every character that is not a
    word character into an underscore. *)
Lemma replace_non_word_spec (group : str) :
  replace_non_word group =
  map (fun c => if is_word c then c else ord "_") group.
Proof.
  unfold replace_non_word, sub. rewrite sub_from_one by lia.
  induction group as [|c group IH]; [done|].
  cbn [flat_map map]. rewrite IH. simpl.
  rewrite orb_false_r. by destruct (is_word c).
Qed.

Lemma is_word_underscore : is_word (ord "_") = true.
Proof. reflexivity. Qed.

Lemma replace_non_word_word (group : str) :
  forallb is_word (replace_non_word group) = true.
Proof.
  rewrite replace_non_word_spec.
  induction group as [|c group IH]; [done|].
  cbn [map forallb]. rewrite IH, andb_true_r.
  destruct (is_word c) eqn:E; [done|apply is_word_underscore].
Qed.

Lemma replace_non_word_length (group : str) :
  length (replace_non_word group) = length group.
Proof. rewrite replace_non_word_spec. apply length_map. Qed.

End SubFacts.

(** ** [str.find] and occurrence of a substring *)

Section FindFacts.
Import Text Fuzz.

Lemma find_from_unfold (i : Z) (s sub : str) :
  find_from i s sub =
  if startswith s sub then i
  else match s with
       | [] => -1
       | _ :: s' => find_from (i + 1) s' sub
       end.
Proof. by destruct s. Qed.

Lemma find_from_occurs (sub b : str) (a : str) :
  forall i, 0 <= i -> find_from i (a ++ sub ++ b) sub <> -1.
Proof.
  induction a as [|c a IH]; intros i Hi; rewrite find_from_unfold.
  - simpl. rewrite startswith_app. lia.
  - destruct (startswith _ _); [lia|]. simpl. apply IH. lia.
Qed.

Lemma find_from_found (sub : str) (s : str) :
  forall i, find_from i s sub <> -1 -> occurs_in sub s.
Proof.
  induction s as [|c s IH]; intros i H; rewrite find_from_unfold in H.
  - destruct (startswith [] sub) eqn:E; [|done].
    apply startswith_spec in E as [r E]. by exists [], r.
  - destruct (startswith (c :: s) sub) eqn:E.
    + apply startswith_spec in E as [r E]. by exists [], r.
    + apply IH in H as (a & b & ->). by exists (c :: a), b.
Qed.

(** [log_contents.find(trigger) != -1] holds exactly when the trigger
    occurs in the log. *)
Lemma found_in_spec (log_contents : str) (trigger : string) :
  found_in log_contents trigger = true <->
  occurs_in (text trigger) log_contents.
Proof.
  unfold found_in, find. rewrite negb_true_iff, Z.eqb_neq. split.
  - apply find_from_found.
  - intros (a & b & ->). by apply find_from_occurs.
Qed.

Lemma found_in_false (log_contents : str) (trigger : string) :
  ~ occurs_in (text trigger) log_contents ->
  found_in log_contents trigger = false.
Proof.
  intros H. destruct (found_in log_contents trigger) eqn:E; [|done].
  by apply found_in_spec in E.
Qed.

End FindFacts.

(** ** The groups of a match *)

Section GroupFacts.
Import Text Re Fuzz.
Context {U : Unicode}.

(** Every group a match holds was there before, or captures text of
    the string. *)
Lemma matches_groups_occur (r : regex) :
  forall pos s g pos' s' g',
    matches r pos s g pos' s' g' ->
    forall n w, In (n, w) g' -> In (n, w) g \/ occurs_in w s.
Proof.
  induction r as [l|cs|cs|cs|r1 IH1 r2 IH2|r1 IH1 r2 IH2|n r1 IH1| |];
    intros pos s g pos' s' g' H k w Hin.
  - destruct H as (_ & _ & ->). by left.
  - destruct H as (c & _ & _ & _ & ->). by left.
  - destruct H as (v & _ & _ & _ & ->). by left.
  - destruct H as (v & _ & _ & _ & _ & ->). by left.
  - destruct H as (p1 & s1 & g1 & M1 & M2).
    destruct (IH2 _ _ _ _ _ _ M2 _ _ Hin) as [Hin1|(a & b & ->)].
    + eauto.
    + right. destruct (matches_consumes _ _ _ _ _ _ _ M1) as (v & -> & _).
      exists (v ++ a), b. by rewrite <- app_assoc.
  - destruct H as [H|H]; eauto.
  - apply matches_group in H as (v & g1 & -> & M & ->).
    destruct Hin as [[= <- <-]|Hin].
    + right. by exists [], s'.
    + eauto.
  - destruct H as (_ & _ & _ & ->). by left.
  - destruct H as (_ & _ & _ & ->). by left.
Qed.

Lemma group_in (g : groups) (n : nat) :
  group g n = [] \/ In (n, group g n) g.
Proof.
  induction g as [|[i w] g IH]; [by left|]. simpl.
  destruct (i =? n)%nat eqn:E.
  - apply Nat.eqb_eq in E as ->. right. by left.
  - destruct IH; [by left|right; by right].
Qed.

Lemma forallb_occurs (p : char -> bool) (w s : str) :
  occurs_in w s -> forallb p s = true -> forallb p w = true.
Proof.
  intros (a & b & ->). rewrite !forallb_app.
  intros [_ [H _]%andb_true_iff]%andb_true_iff. done.
Qed.

(** A group of a match found in [s] holds only characters of [s]. *)
Lemma search_group_chars (p : char -> bool) (r : regex) (s : str) e g n :
  search r s = Some (e, g) ->
  forallb p s = true -> forallb p (group g n) = true.
Proof.
  intros (pre & p0 & s0 & s' & -> & M)%search_sound Hs.
  destruct (group_in g n) as [->|Hin]; [done|].
  destruct (matches_groups_occur _ _ _ _ _ _ _ M _ _ Hin)
    as [[]|(a & b & ->)].
  eapply forallb_occurs; [|exact Hs].
  exists (pre ++ a), b. by rewrite <- app_assoc.
Qed.

Lemma forallb_in_cset_word (w : str) :
  forallb (in_cset word) w = true -> forallb is_word w = true.
Proof.
  induction w as [|c w IH]; [done|]. simpl.
  rewrite orb_false_r. intros [-> Hw]%andb_true_iff. by apply IH.
Qed.

(** Group 1 of [PATTERN_CPP_FUNCTION]: one or more word characters. *)
Lemma cpp_function_group (line : str) e g :
  search PATTERN_CPP_FUNCTION line = Some (e, g) ->
  group g 1 <> [] /\ forallb is_word (group g 1) = true.
Proof.
  intros (pre & p & s0 & s' & -> & M)%search_sound.
  destruct M as (p1 & s1 & g1 & (_ & _ & ->) & p2 & s2 & g2 & M2 & M3).
  apply matches_group in M2 as (w & g3 & -> & M2 & ->).
  destruct M2 as (v & Hne & Hv & E & _ & ->).
  apply app_inv_tail in E as ->.
  destruct M3 as (_ & _ & ->). simpl.
  split; [done|by apply forallb_in_cset_word].
Qed.

(** Group 1 of [PATTERN_C_FUNCTION]: one or more word characters. *)
Lemma c_function_group (line : str) e g :
  search PATTERN_C_FUNCTION line = Some (e, g) ->
  group g 1 <> [] /\ forallb is_word (group g 1) = true.
Proof.
  intros (pre & p & s0 & s' & -> & M)%search_sound.
  destruct M as (p1 & s1 & g1 & (_ & _ & ->) & p2 & s2 & g2 & M2 & M3).
  apply matches_group in M2 as (w & g3 & -> & M2 & ->).
  destruct M2 as (v & Hne & Hv & E & _ & ->).
  apply app_inv_tail in E as ->.
  apply matches_group in M3 as (w2 & g4 & _ & M3 & ->).
  assert (g4 = [(1%nat, v)]) as ->.
  { destruct M3 as [M3|M3].
    - destruct M3 as (? & ? & ? & (_ & _ & ->) & ? & ? & ? & M4 & M5).
      destruct M4 as (? & _ & _ & _ & _ & ->). by destruct M5 as (_ & _ & ->).
    - by destruct M3 as (_ & _ & ->). }
  simpl. split; [done|by apply forallb_in_cset_word].
Qed.

(** Group 1 of [PATTERN_CATCHSEGV_STACK_FRAME] is not empty: it holds
    an opening parenthesis. *)
Lemma catchsegv_group (log_contents : str) e g :
  search PATTERN_CATCHSEGV_STACK_FRAME log_contents = Some (e, g) ->
  group g 1 <> [].
Proof.
  intros (pre & p & s0 & s' & -> & M)%search_sound.
  destruct M as (p1 & s1 & g1 & (_ & _ & ->) & p2 & s2 & g2 & M2
                 & p3 & s3 & g3 & (_ & _ & ->) & p4 & s4 & g4 & M4 & M5).
  destruct M2 as (? & _ & _ & _ & ->).
  apply matches_group in M4 as (w & g5 & -> & M4 & ->).
  destruct M5 as (_ & _ & ->).
  destruct M4 as (p5 & s5 & g6 & M6 & p6 & s6 & g7 & M7 & M8).
  destruct M6 as (v1 & _ & E1 & _ & _).
  destruct M7 as (E2 & _ & _).
  destruct M8 as (v2 & _ & _ & E3 & _).
  subst s5 s6. apply (f_equal length) in E1.
  rewrite !length_app in E1. simpl in *.
  destruct w; [simpl in E1; lia|done].
Qed.

Lemma matches_sets (n : nat) (r : regex) :
  forall pos s g pos' s' g',
    matches r pos s g pos' s' g' ->
    sets n r || has n g = true -> has n g' = true.
Proof.
  induction r as [l|cs|cs|cs|r1 IH1 r2 IH2|r1 IH1 r2 IH2|k r1 IH1| |];
    intros pos s g pos' s' g' H Hs; simpl in Hs.
  - by destruct H as (_ & _ & ->).
  - by destruct H as (c & _ & _ & _ & ->).
  - by destruct H as (v & _ & _ & _ & ->).
  - by destruct H as (v & _ & _ & _ & _ & ->).
  - destruct H as (p1 & s1 & g1 & M1 & M2).
    apply (IH2 _ _ _ _ _ _ M2).
    destruct (sets n r2); [done|]. rewrite orb_false_r in Hs. simpl.
    by apply (IH1 _ _ _ _ _ _ M1).
  - destruct (has n g) eqn:Hg.
    + destruct H as [H|H];
        [apply (IH1 _ _ _ _ _ _ H)|apply (IH2 _ _ _ _ _ _ H)];
        rewrite Hg; apply orb_true_r.
    + rewrite orb_false_r in Hs. apply andb_true_iff in Hs as [H1 H2].
      destruct H as [H|H];
        [apply (IH1 _ _ _ _ _ _ H)|apply (IH2 _ _ _ _ _ _ H)];
        by rewrite ?H1, ?H2.
  - destruct H as (g1 & M & ->). simpl.
    destruct (k =? n)%nat; [done|]. simpl in *.
    by apply (IH1 _ _ _ _ _ _ M).
  - by destruct H as (_ & _ & _ & ->).
  - by destruct H as (_ & _ & _ & ->).
Qed.

(** The six patterns set group 1 on every match, so [group _ 1] never
    falls back on its default. *)
Lemma group_1_set (r : regex) (s : str) e g :
  In r [PATTERN_CPP_FUNCTION; PATTERN_C_FUNCTION; PATTERN_GLSLANG_ERROR;
        PATTERN_AMBER_ERROR; PATTERN_SPIRV_OPT_ERROR;
        PATTERN_CATCHSEGV_STACK_FRAME] ->
  search r s = Some (e, g) -> has 1 g = true.
Proof.
  intros Hr (pre & p & s0 & s' & -> & M)%search_sound.
  apply (matches_sets 1 _ _ _ _ _ _ _ M).
  simpl in Hr.
  repeat (destruct Hr as [<-|Hr]; [reflexivity|]). done.
Qed.

End GroupFacts.

(** ** The signature classifier *)

Section ClassifierFacts.
Import Text Re Fuzz.
Context {U : Unicode}.

Lemma forallb_take (p : char -> bool) (s : str) :
  forall n, forallb p s = true -> forallb p (take n s) = true.
Proof.
  induction s as [|c s IH]; intros [|n]; simpl; try done.
  intros [-> Hs]%andb_true_iff. by apply IH.
Qed.

Lemma forallb_drop (p : char -> bool) (s : str) :
  forall n, forallb p s = true -> forallb p (drop n s) = true.
Proof.
  induction s as [|c s IH]; intros [|n]; simpl; try done.
  intros [_ Hs]%andb_true_iff. by apply IH.
Qed.

Lemma forallb_filter (p q : char -> bool) (s : str) :
  forallb p s = true -> forallb p (List.filter q s) = true.
Proof.
  induction s as [|c s IH]; simpl; [done|].
  intros [Hc Hs]%andb_true_iff. destruct (q c); simpl; rewrite ?Hc; by apply IH.
Qed.

Lemma forallb_slice_to (p : char -> bool) (s : str) (k : Z) :
  forallb p s = true -> forallb p (slice_to s k) = true.
Proof. apply forallb_take. Qed.

Lemma forallb_slice_from (p : char -> bool) (s : str) (k : Z) :
  forallb p s = true -> forallb p (slice_from s k) = true.
Proof. apply forallb_drop. Qed.

Lemma slice_to_length (s : str) (k : Z) :
  0 <= k -> length (slice_to s k) = Nat.min (Z.to_nat k) (length s).
Proof.
  intros Hk. unfold slice_to.
  replace (k <? 0) with false by (symmetry; apply Z.ltb_ge; lia).
  rewrite length_take. lia.
Qed.

Lemma split_chars (p : char -> bool) (sep : char) (s : str) :
  forallb p s = true -> Forall (fun l => forallb p l = true) (split sep s).
Proof.
  induction s as [|c s IH]; simpl; [by repeat constructor|].
  intros [Hc Hs]%andb_true_iff. specialize (IH Hs).
  destruct (c =? sep)%N; [by constructor|].
  destruct (split sep s) as [|l ls].
  - repeat constructor. simpl. by rewrite Hc.
  - inversion IH; subst. constructor; [|done]. simpl. by rewrite Hc.
Qed.

Lemma isascii_remove_numbers (group : str) :
  isascii group = true -> isascii (remove_numbers group) = true.
Proof. rewrite remove_numbers_spec. apply forallb_filter. Qed.

Lemma isascii_replace_non_word (group : str) :
  isascii group = true -> isascii (replace_non_word group) = true.
Proof.
  rewrite replace_non_word_spec. unfold isascii.
  induction group as [|c group IH]; simpl; [done|].
  intros [Hc Hs]%andb_true_iff. apply andb_true_iff. split; [|by apply IH].
  by destruct (is_word c).
Qed.

(** In the ASCII range the word characters are [[a-zA-Z0-9_]]. *)
Lemma ascii_word_chars (s : str) :
  forallb is_word s = true -> isascii s = true ->
  forallb ascii_word s = true.
Proof.
  unfold isascii. induction s as [|c s IH]; simpl; [done|].
  intros [Hc Hs]%andb_true_iff [Ha Has]%andb_true_iff.
  apply andb_true_iff. split; [|by apply IH].
  unfold is_word in Hc. by rewrite Ha in Hc.
Qed.

(** *** What each rule of the cascade returns *)

Lemma spirv_opt_error_lines_shape (lines : list str) (signature : str) :
  spirv_opt_error_lines lines = Some signature ->
  forallb is_word signature = true /\ (length signature <= 20)%nat /\
  (Forall (fun l => isascii l = true) lines -> isascii signature = true).
Proof.
  induction lines as [|line lines IH]; simpl; [done|].
  destruct (search PATTERN_SPIRV_OPT_ERROR line) as [[e g]|] eqn:E.
  - intros [= <-]. repeat split.
    + apply forallb_slice_to, replace_non_word_word.
    + rewrite slice_to_length by lia. lia.
    + intros [Hl _]%Forall_cons.
      apply forallb_slice_to, isascii_replace_non_word, isascii_remove_numbers.
      by eapply search_group_chars.
  - intros H. destruct (IH H) as (? & ? & Ha). repeat split; try done.
    intros [_ Hl]%Forall_cons. by apply Ha.
Qed.

Lemma amber_error_lines_shape (lines : list str) (signature : str) :
  amber_error_lines lines = Some signature ->
  forallb is_word signature = true /\
  (Forall (fun l => isascii l = true) lines -> isascii signature = true).
Proof.
  induction lines as [|line lines IH]; simpl; [done|].
  destruct (search PATTERN_AMBER_ERROR line) as [[e g]|] eqn:E.
  - intros [= <-]. split.
    + apply replace_non_word_word.
    + intros [Hl _]%Forall_cons.
      apply isascii_replace_non_word, isascii_remove_numbers.
      by eapply search_group_chars.
  - intros H. destruct (IH H) as (? & Ha). split; [done|].
    intros [_ Hl]%Forall_cons. by apply Ha.
Qed.

Lemma glslang_error_lines_shape (lines : list str) (signature : str) :
  glslang_error_lines lines = Some signature ->
  forallb is_word signature = true /\
  (Forall (fun l => isascii l = true) lines -> isascii signature = true).
Proof.
  induction lines as [|line lines IH]; simpl; [done|].
  destruct (search PATTERN_GLSLANG_ERROR line) as [[e g]|] eqn:E.
  - intros [= <-]. split.
    + apply replace_non_word_word.
    + intros [Hl _]%Forall_cons.
      apply isascii_replace_non_word, isascii_remove_numbers.
      by eapply search_group_chars.
  - intros H. destruct (IH H) as (? & Ha). split; [done|].
    intros [_ Hl]%Forall_cons. by apply Ha.
Qed.

Lemma android_backtrace_lines_shape (lines : list str) (signature : str) :
  android_backtrace_lines lines = Some signature ->
  forallb is_word signature = true /\ signature <> [] /\
  (Forall (fun l => isascii l = true) lines -> isascii signature = true).
Proof.
  induction lines as [|line lines IH]; simpl; [done|].
  destruct (find line (text "#00 pc") =? -1).
  { intros H. destruct (IH H) as (? & ? & Ha). repeat split; try done.
    intros [_ Hl]%Forall_cons. by apply Ha. }
  destruct (found_in _ "/amber_ndk").
  { intros [= <-]. by repeat split. }
  destruct (search PATTERN_CPP_FUNCTION _) as [[e g]|] eqn:E.
  { intros [= <-]. destruct (cpp_function_group _ _ _ E). repeat split; try done.
    intros [Hl _]%Forall_cons.
    eapply search_group_chars; [exact E|]. by apply forallb_slice_from. }
  destruct (search PATTERN_C_FUNCTION _) as [[e g]|] eqn:E'; [|done].
  intros [= <-]. destruct (c_function_group _ _ _ E'). repeat split; try done.
  intros [Hl _]%Forall_cons.
  eapply search_group_chars; [exact E'|]. by apply forallb_slice_from.
Qed.

Lemma catchsegv_frame_shape (log_contents : str) (signature : str) :
  catchsegv_frame log_contents = Some signature ->
  forallb is_word signature = true /\ (length signature <= 50)%nat /\
  signature <> [] /\
  (isascii log_contents = true -> isascii signature = true).
Proof.
  unfold catchsegv_frame.
  destruct (search PATTERN_CATCHSEGV_STACK_FRAME _) as [[e g]|] eqn:E; [|done].
  intros [= <-]. repeat split.
  - apply forallb_slice_to, replace_non_word_word.
  - rewrite slice_to_length by lia. lia.
  - intros H. apply (f_equal length) in H.
    rewrite slice_to_length, replace_non_word_length in H by lia.
    pose proof (catchsegv_group _ _ _ E) as Hne.
    destruct (group g 1); [done|]. simpl in H. lia.
  - intros Hl. apply forallb_slice_to, isascii_replace_non_word.
    by eapply search_group_chars.
Qed.

(** The cascade, rule by rule: a property of every value a rule can
    return is a property of the signature. *)
Lemma signature_cases (Q : str -> Prop) (log_contents : str) :
  Q (text "compile_error") ->
  Q (text "link_error") ->
  Q (text "pipeline_failure") ->
  Q (text "Resource_deadlock_would_occur") ->
  (forall signature,
      found_in log_contents "error: line " = true ->
      spirv_opt_error_lines (split newline log_contents) = Some signature ->
      Q signature) ->
  (forall signature,
      found_in log_contents "0 pass, 1 fail" = true ->
      amber_error_lines (split newline log_contents) = Some signature ->
      Q signature) ->
  (forall signature,
      found_in log_contents
        "SPIR-V is not generated for failed compile or link" = true ->
      glslang_error_lines (split newline log_contents) = Some signature ->
      Q signature) ->
  (forall signature,
      found_in log_contents "#00 pc" = true ->
      android_backtrace_lines (split newline log_contents) = Some signature ->
      Q signature) ->
  (forall signature,
      found_in log_contents "Backtrace:" = true ->
      catchsegv_frame log_contents = Some signature ->
      Q signature) ->
  Q (text "no_signature") ->
  Q (get_signature_from_log_contents log_contents).
Proof.
  intros Q1 Q2 Q3 Q4 Q5 Q6 Q7 Q8 Q9 Q10.
  unfold get_signature_from_log_contents, when, or_else.
  destruct (found_in log_contents "Shader compilation failed"); [done|].
  destruct (found_in log_contents "Failed to link shaders"); [done|].
  destruct (found_in log_contents "Calling vkCreateGraphicsPipelines Fail");
    [done|].
  destruct (found_in log_contents "Resource deadlock would occur"); [done|].
  destruct (found_in log_contents "error: line ") eqn:T5;
    [destruct (spirv_opt_error_lines _) eqn:R5; [by apply Q5|]|];
  (destruct (found_in log_contents "0 pass, 1 fail") eqn:T6;
    [destruct (amber_error_lines _) eqn:R6; [by apply Q6|]|]);
  (destruct (found_in log_contents
               "SPIR-V is not generated for failed compile or link") eqn:T7;
    [destruct (glslang_error_lines _) eqn:R7; [by apply Q7|]|]);
  (destruct (found_in log_contents "#00 pc") eqn:T8;
    [destruct (android_backtrace_lines _) eqn:R8; [by apply Q8|]|]);
  (destruct (found_in log_contents "Backtrace:") eqn:T9;
    [destruct (catchsegv_frame _) eqn:R9; [by apply Q9|]|]);
  done.
Qed.

End ClassifierFacts.

Section ClassifierTheorems.
Import Text Re Fuzz.
Context {U : Unicode}.

(** C1, as amended: for every log text the signature consists of word
    characters only ([\w]), which for a log of ASCII characters are
    [[A-Za-z0-9_]]; it is at most 50 characters long when the log holds
    none of the triggers of the three rules that do not truncate
    (["0 pass, 1 fail"], ["SPIR-V is not generated for failed compile or
    link"], ["#00 pc"]); and it is not empty when the log holds none of
    the triggers of the three rules that delete digits (["error: line "],
    ["0 pass, 1 fail"], ["SPIR-V is not generated for failed compile or
    link"]). *)
Theorem signature_shape (log_contents : str) :
  forallb is_word (get_signature_from_log_contents log_contents) = true /\
  (isascii log_contents = true ->
   forallb ascii_word (get_signature_from_log_contents log_contents) = true) /\
  (~ occurs_in (text "0 pass, 1 fail") log_contents ->
   ~ occurs_in (text "SPIR-V is not generated for failed compile or link")
       log_contents ->
   ~ occurs_in (text "#00 pc") log_contents ->
   (length (get_signature_from_log_contents log_contents) <= 50)%nat) /\
  (~ occurs_in (text "error: line ") log_contents ->
   ~ occurs_in (text "0 pass, 1 fail") log_contents ->
   ~ occurs_in (text "SPIR-V is not generated for failed compile or link")
       log_contents ->
   get_signature_from_log_contents log_contents <> []).
Proof.
  assert (forallb is_word (get_signature_from_log_contents log_contents) = true)
    as Hword.
  { apply signature_cases; try reflexivity; intros signature _ R.
    - by apply spirv_opt_error_lines_shape in R as (? & _).
    - by apply amber_error_lines_shape in R as (? & _).
    - by apply glslang_error_lines_shape in R as (? & _).
    - by apply android_backtrace_lines_shape in R as (? & _).
    - by apply catchsegv_frame_shape in R as (? & _). }
  split; [done|]. split; [|split].
  - intros Hascii. apply ascii_word_chars; [done|].
    pose proof (split_chars _ newline _ Hascii) as Hlines.
    apply signature_cases; try reflexivity; intros signature _ R.
    + apply spirv_opt_error_lines_shape in R as (_ & _ & H). by apply H.
    + apply amber_error_lines_shape in R as (_ & H). by apply H.
    + apply glslang_error_lines_shape in R as (_ & H). by apply H.
    + apply android_backtrace_lines_shape in R as (_ & _ & H). by apply H.
    + apply catchsegv_frame_shape in R as (_ & _ & _ & H). by apply H.
  - intros N6%found_in_false N7%found_in_false N8%found_in_false.
    apply signature_cases; try (simpl; lia); intros signature T R;
      try congruence.
    + apply spirv_opt_error_lines_shape in R as (_ & ? & _). lia.
    + apply catchsegv_frame_shape in R as (_ & ? & _). lia.
  - intros N5%found_in_false N6%found_in_false N7%found_in_false.
    apply signature_cases; try discriminate; intros signature T R;
      try congruence.
    + by apply android_backtrace_lines_shape in R as (_ & ? & _).
    + by apply catchsegv_frame_shape in R as (_ & _ & ? & _).
Qed.

(** C5: the log ["error: line 0: Module contains unreachable blocks"]
    gets the signature ["Module_contains_unre"]. *)
Theorem spirv_opt_example_signature :
  get_signature_from_log_contents
    (text "error: line 0: Module contains unreachable blocks")
  = text "Module_contains_unre".
Proof. vm_compute. reflexivity. Qed.

(** C2, as amended: the [catchsegv] example gets the first 50 characters
    of ["spirv_opt__ZN8spvtools3opt21StructuredCFGAnalysisXYZ"]. *)
Theorem catchsegv_example_signature :
  get_signature_from_log_contents
    (text "Backtrace:" ++ [newline] ++
     text "/path/spirv-opt(_ZN8spvtools3opt21StructuredCFGAnalysisXYZ+0x5)")
  = text "spirv_opt__ZN8spvtools3opt21StructuredCFGAnalysisX".
Proof. vm_compute. reflexivity. Qed.

(** C6: a log that contains ["Shader compilation failed"] gets the
    signature ["compile_error"], whatever else it contains. *)
Theorem compile_error_wins (log_contents : str) :
  occurs_in (text "Shader compilation failed") log_contents ->
  get_signature_from_log_contents log_contents = text "compile_error".
Proof.
  intros H%found_in_spec. unfold get_signature_from_log_contents.
  by rewrite H.
Qed.

(** The empty log gets ["no_signature"]. *)
Lemma empty_log_signature :
  get_signature_from_log_contents [] = text "no_signature".
Proof. reflexivity. Qed.

(** The Android backtrace of the specification's third scenario
    gets ["Bar"]: the first [::Name(] of the frame is [::Bar(]. *)
Lemma android_backtrace_example_signature :
  get_signature_from_log_contents
    (text "#00 pc 0000x /lib.so ((anonymous namespace)::Foo::Bar(int)+12)")
  = text "Bar".
Proof. vm_compute. reflexivity. Qed.

(** The digits-only message: the signature is empty, whatever the
    Unicode tables. *)
Lemma signature_empty_example :
  get_signature_from_log_contents (text "error: line 0: 1") = [].
Proof. vm_compute. reflexivity. Qed.

(** An Amber error message is not truncated. *)
Lemma signature_long_example :
  get_signature_from_log_contents
    (text "0 pass, 1 fail" ++ [newline] ++
     text "test.amber: 256: probe ssbo format does not match buffer format at all")
  = text "probe_ssbo_format_does_not_match_buffer_format_at_all".
Proof. vm_compute. reflexivity. Qed.

(** A word character beyond ASCII (here U+00E9) is let through. *)
Lemma signature_non_ascii_example :
  isalnum_hi 233%N = true ->
  get_signature_from_log_contents
    (text "#00 pc 0 /lib.so (" ++ [233%N] ++ text "+12)") = [233%N].
Proof.
  intros H. vm_compute in H |- *. rewrite H. reflexivity.
Qed.

End ClassifierTheorems.

Section ClassifierExamples.
Import Text Re Fuzz.

Lemma not_occurs_in (log_contents : str) (trigger : string) :
  found_in log_contents trigger = false ->
  ~ occurs_in (text trigger) log_contents.
Proof. intros H O%found_in_spec. congruence. Qed.

(** C1, as stated, fails: whatever the Unicode tables, some log gets a
    signature that does not match [^[A-Za-z0-9_]{1,50}$] (the log
    ["error: line 0: 1"] gets the empty signature). *)
Lemma signature_format_fails :
  ~ exists U : Unicode,
      forall log_contents : str,
        signature_format (get_signature_from_log_contents log_contents) = true.
Proof.
  intros [U H]. specialize (H (text "error: line 0: 1")).
  by rewrite signature_empty_example in H.
Qed.

(** The four parts of [signature_shape] on the [catchsegv] log. *)
Lemma signature_shape_witness :
  (isascii catchsegv_log = true /\
   ~ occurs_in (text "error: line ") catchsegv_log /\
   ~ occurs_in (text "0 pass, 1 fail") catchsegv_log /\
   ~ occurs_in (text "SPIR-V is not generated for failed compile or link")
       catchsegv_log /\
   ~ occurs_in (text "#00 pc") catchsegv_log) /\
  forallb (is_word (U := ascii_only))
    (get_signature_from_log_contents (U := ascii_only) catchsegv_log) = true /\
  forallb ascii_word
    (get_signature_from_log_contents (U := ascii_only) catchsegv_log) = true /\
  (length (get_signature_from_log_contents (U := ascii_only) catchsegv_log)
   <= 50)%nat /\
  get_signature_from_log_contents (U := ascii_only) catchsegv_log <> [].
Proof.
  assert (isascii catchsegv_log = true) as A by reflexivity.
  assert (~ occurs_in (text "error: line ") catchsegv_log) as N5
    by (apply not_occurs_in; reflexivity).
  assert (~ occurs_in (text "0 pass, 1 fail") catchsegv_log) as N6
    by (apply not_occurs_in; reflexivity).
  assert (~ occurs_in
            (text "SPIR-V is not generated for failed compile or link")
            catchsegv_log) as N7
    by (apply not_occurs_in; reflexivity).
  assert (~ occurs_in (text "#00 pc") catchsegv_log) as N8
    by (apply not_occurs_in; reflexivity).
  destruct (signature_shape (U := ascii_only) catchsegv_log)
    as (H1 & H2 & H3 & H4).
  split; [by repeat split|].
  split; [exact H1|]. split; [exact (H2 A)|].
  split; [exact (H3 N6 N7 N8)|exact (H4 N5 N6 N7)].
Defined.

(** C2, as stated, fails: whatever the Unicode tables, the signature of
    the [catchsegv] example is not the 40 characters
    ["spirv_opt__ZN8spvtools3opt21StructuredCF"]. *)
Lemma catchsegv_example_not_as_stated :
  ~ exists U : Unicode,
      get_signature_from_log_contents
        (text "Backtrace:" ++ [newline] ++
         text "/path/spirv-opt(_ZN8spvtools3opt21StructuredCFGAnalysisXYZ+0x5)")
      = text "spirv_opt__ZN8spvtools3opt21StructuredCF".
Proof.
  intros [U H]. vm_compute in H. discriminate H.
Qed.

(** A log with the triggers of the first two rules. *)
Lemma compile_error_wins_witness :
  occurs_in (text "Shader compilation failed")
    (text "Failed to link shaders. Shader compilation failed.") /\
  get_signature_from_log_contents (U := ascii_only)
    (text "Failed to link shaders. Shader compilation failed.")
  = text "compile_error".
Proof.
  assert (occurs_in (text "Shader compilation failed")
            (text "Failed to link shaders. Shader compilation failed."))
    as H by (exists (text "Failed to link shaders. "), (text "."); reflexivity).
  split; [exact H|exact (compile_error_wins (U := ascii_only) _ H)].
Defined.

End ClassifierExamples.

(** ** Running a shader job *)

Section RunShaderJobFacts.
Import FuzzLoop.

(** C3, what the code does: on a host device and on a SwiftShader
    device, after a successful conversion, [run_shader_job] runs Amber
    on the host and then goes on to the Android runner
    [run_amber_on_device]: the branch of the host devices does not
    return. *)
Theorem host_device_reaches_android_runner (n : string) (is_compute : bool) :
  run_shader_job false is_compute {| name := n; device := Some host |} =
    [push_stream_for_logging; glsl_shader_job_to_amber_script;
     run_amber (negb is_compute) is_compute;
     run_amber_on_device (negb is_compute) is_compute;
     log_a_file; pop_stream_for_logging] /\
  run_shader_job false is_compute {| name := n; device := Some swift_shader |} =
    [push_stream_for_logging; glsl_shader_job_to_amber_script;
     run_amber (negb is_compute) is_compute;
     run_amber_on_device (negb is_compute) is_compute;
     log_a_file; pop_stream_for_logging].
Proof. split; reflexivity. Qed.

(** On an Android device the Android runner is the only one called; a
    preprocess device calls neither. *)
Lemma android_device_runs_android_runner (n : string) (is_compute : bool) :
  run_shader_job false is_compute {| name := n; device := Some android |} =
    [push_stream_for_logging; glsl_shader_job_to_amber_script;
     run_amber_on_device (negb is_compute) is_compute;
     log_a_file; pop_stream_for_logging] /\
  run_shader_job false is_compute {| name := n; device := Some preprocess |} =
    [push_stream_for_logging; glsl_shader_job_to_amber_script;
     file_write_text_STATUS "SUCCESS"; pop_stream_for_logging].
Proof. split; reflexivity. Qed.

End RunShaderJobFacts.

(** ** The fuzzing loop *)

Section LoopFacts.
Import FuzzLoop.

Variable World : Type.
Variable copy_dir : Path -> Path -> World -> World.
Variable test_dir_metadata_write : TestGlsl -> Path -> World -> World.
Variable random_spirv_opt_args : World -> list string * World.
Variable handle_test : Path -> World -> outcome * World.

Abbreviation for_test_dirs := (for_test_dirs World handle_test).
Abbreviation make_test_dirs :=
  (make_test_dirs World copy_dir test_dir_metadata_write random_spirv_opt_args).
Abbreviation iteration :=
  (iteration World copy_dir test_dir_metadata_write random_spirv_opt_args
             handle_test).

Lemma for_test_dirs_app (test_dirs : list Path) :
  forall w calls,
    fst (for_test_dirs test_dirs w calls) =
    calls ++ fst (for_test_dirs test_dirs w []).
Proof.
  induction test_dirs as [|d rest IH]; intros w calls; simpl.
  - by rewrite app_nil_r.
  - destruct (handle_test d w) as [[[|p ps]|] w']; simpl; try done.
    rewrite (IH w' (calls ++ _)), (IH w' [_]). by rewrite <- app_assoc.
Qed.

(** The calls of the loop, from an empty log: a prefix of the
    directories in their order; a call that is followed by another
    returned the empty list; and when every call returned the empty
    list, every directory was handled. *)
Lemma for_test_dirs_calls (test_dirs : list Path) :
  forall w,
    (exists k, map fst (fst (for_test_dirs test_dirs w [])) = take k test_dirs) /\
    (forall before c after,
        fst (for_test_dirs test_dirs w []) = before ++ c :: after ->
        after <> [] -> snd c = Returns []) /\
    (Forall (fun c => snd c = Returns []) (fst (for_test_dirs test_dirs w [])) ->
     length (fst (for_test_dirs test_dirs w [])) = length test_dirs).
Proof.
  induction test_dirs as [|d rest IH]; intros w; simpl.
  { split; [by exists 0%nat|]. split; [|done].
    intros before c after H. by destruct before. }
  destruct (handle_test d w) as [[[|p ps]|] w']; simpl.
  - rewrite for_test_dirs_app. destruct (IH w') as ((k & Hk) & Hmid & Hall).
    split; [|split].
    + exists (S k). simpl. by rewrite Hk.
    + intros [|b before] c after H Hafter; simpl in H.
      * by injection H as <- _.
      * injection H as _ H. exact (Hmid before c after H Hafter).
    + intros [_ H]%Forall_cons. simpl. f_equal. by apply Hall.
  - split; [by exists 1%nat|]. split.
    + intros [|b [|b' before]] c after H Hafter; by simplify_eq/=.
    + by intros [[=] _]%Forall_cons.
  - split; [by exists 1%nat|]. split.
    + intros [|b [|b' before]] c after H Hafter; by simplify_eq/=.
    + by intros [[=] _]%Forall_cons.
Qed.

Lemma make_test_dirs_presets (temp_dir : Path) (test_name : string) (w : World) :
  fst (make_test_dirs (temp_dir / test_name)%path test_name w) =
  preset_dirs temp_dir test_name.
Proof.
  unfold FuzzLoop.make_test_dirs, make_subtest.
  repeat (destruct (random_spirv_opt_args _) as [? ?]). reflexivity.
Qed.

(** C7: within one iteration, [handle_test] is called on the sibling
    tests in preset order ([no_opt], [opt_O], [opt_Os], [opt_rand1],
    [opt_rand2], [opt_rand3]); a call that is followed by another one
    returned the empty list, so after a call that returns report paths
    no other sibling is handled; and when every call returns the empty
    list all six are handled. *)
Theorem siblings_stop_at_first_report (temp_dir : Path) (test_name : string)
        (w : World) :
  (exists k,
      map fst (fst (iteration temp_dir test_name w)) =
      take k (preset_dirs temp_dir test_name)) /\
  (forall before c after,
      fst (iteration temp_dir test_name w) = before ++ c :: after ->
      after <> [] -> snd c = Returns []) /\
  (Forall (fun c => snd c = Returns []) (fst (iteration temp_dir test_name w)) ->
   length (fst (iteration temp_dir test_name w)) = 6%nat).
Proof.
  unfold FuzzLoop.iteration.
  pose proof (make_test_dirs_presets temp_dir test_name w) as Hdirs.
  destruct (make_test_dirs _ _ _) as [test_dirs w']. simpl in Hdirs.
  subst test_dirs.
  destruct (for_test_dirs_calls (preset_dirs temp_dir test_name) w')
    as (Hk & Hmid & Hall).
  repeat split; try done.
Qed.

End LoopFacts.

(** ** The binary manager *)

Section BinaryManagerFacts.
Import BinariesUtil.

Variable artifact_get_inner_file_path : string -> string -> Path.

Abbreviation get_binary_path := (get_binary_path artifact_get_inner_file_path).
Abbreviation get_binary_path_by_name :=
  (get_binary_path_by_name artifact_get_inner_file_path).
Abbreviation cache_agrees := (cache_agrees artifact_get_inner_file_path).
Abbreviation after := (after artifact_get_inner_file_path).

(** The three tests of the scan are the specification's condition. *)
Lemma accepts_tests (platform : string) (D B : Binary) :
  accepts platform D B <->
  String.eqb (name B) (name D) = true /\
  String.eqb (version B) (version D) = true /\
  bool_decide (list_to_set (tags D) ∪ {[ platform ]}
               ⊆ (list_to_set (tags B) : gset string)) = true.
Proof.
  unfold accepts. rewrite !String.eqb_eq, bool_decide_eq_true.
  assert ((forall t, In t (tags D) \/ t = platform -> In t (tags B)) <->
          list_to_set (tags D) ∪ {[ platform ]}
          ⊆ (list_to_set (tags B) : gset string)) as Htags.
  { set_unfold. by setoid_rewrite list_elem_of_In. }
  by rewrite Htags.
Qed.

(** Every list has its first accepted binary, or none. *)
Lemma first_accepted_total (platform : string) (D : Binary)
      (l : list (Binary * string)) :
  exists r, first_accepted platform D l r.
Proof.
  induction l as [|[B a] l [r IH]]; [exists None; constructor|].
  destruct (String.eqb (name B) (name D) &&
            String.eqb (version B) (version D) &&
            bool_decide (list_to_set (tags D) ∪ {[ platform ]}
                         ⊆ (list_to_set (tags B) : gset string))) eqn:E.
  - apply andb_true_iff in E as [[En Ev]%andb_true_iff Et].
    exists (Some (B, a)). apply first_here. by apply accepts_tests.
  - exists r. apply first_later; [|done].
    intros (En & Ev & Et)%accepts_tests. by rewrite En, Ev, Et in E.
Qed.

Lemma scan_binaries_first (platform : string) (D : Binary) (a : string)
      (bs : list Binary) :
  forall l r,
    first_accepted platform D (map (fun b => (b, a)) bs ++ l) r ->
    match scan_binaries (list_to_set (tags D) ∪ {[ platform ]}) D bs with
    | Some B => r = Some (B, a)
    | None => first_accepted platform D l r
    end.
Proof.
  induction bs as [|b bs IH]; intros l r H; simpl in *; [done|].
  inversion H as [|B a' l' Hacc|B a' l' r' Hno Hrest]; subst.
  - apply accepts_tests in Hacc as (-> & -> & ->). done.
  - assert (scan_binaries (list_to_set (tags D) ∪ {[ platform ]}) D (b :: bs)
            = scan_binaries (list_to_set (tags D) ∪ {[ platform ]}) D bs)
      as Hskip.
    { simpl. destruct (String.eqb (name b) (name D)) eqn:En; [|done].
      destruct (String.eqb (version b) (version D)) eqn:Ev; [|done].
      destruct (bool_decide _) eqn:Et; [|done].
      destruct Hno. by apply accepts_tests. }
    simpl in Hskip. rewrite Hskip. by apply IH.
Qed.

(** The nested loops return the first binary of the catalog that the
    descriptor accepts. *)
Lemma scan_artifacts_first (platform : string) (D : Binary)
      (catalog : list (ArchiveSet * string)) :
  forall r,
    first_accepted platform D (catalog_binaries catalog) r ->
    scan_artifacts (list_to_set (tags D) ∪ {[ platform ]}) D catalog = r.
Proof.
  induction catalog as [|[archive_set a] catalog IH]; intros r H; simpl in *.
  - by inversion H.
  - apply scan_binaries_first in H.
    destruct (scan_binaries _ D (binaries archive_set)); [done|]. by apply IH.
Qed.

Lemma SerializePartialToString_inj (a b : Binary) :
  SerializePartialToString a = SerializePartialToString b -> a = b.
Proof. destruct a, b. by intros [= -> -> -> ->]. Qed.

Lemma cache_agrees_new (self : BinaryManager) : cache_agrees self new_store.
Proof. intros binary p H. simpl in H. by rewrite lookup_empty in H. Qed.

Lemma cache_agrees_get_binary_path (self : BinaryManager) (binary : Binary)
      (st : Store) :
  cache_agrees self st ->
  cache_agrees self (snd (get_binary_path self binary st)).
Proof.
  intros Hst. unfold BinariesUtil.get_binary_path.
  destruct (_resolved_paths st !! _) eqn:Hc; [done|].
  destruct (scan_artifacts _ binary _) as [[B a]|] eqn:Hs; [|done].
  intros binary' p. simpl. rewrite lookup_insert.
  case_decide as Hb.
  - apply SerializePartialToString_inj in Hb as <-.
    intros [= <-]. by exists B, a.
  - apply Hst.
Qed.

Lemma cache_agrees_after (self : BinaryManager) (requests : list Binary) :
  cache_agrees self (after self requests).
Proof.
  unfold BinariesUtil.after.
  assert (forall st, cache_agrees self st ->
            cache_agrees self
              (foldl (fun st binary => snd (get_binary_path self binary st))
                     st requests)) as H.
  { induction requests as [|b requests IH]; intros st Hst; simpl; [done|].
    apply IH. by apply cache_agrees_get_binary_path. }
  apply H, cache_agrees_new.
Qed.

(** With a cache that agrees with the catalog, a lookup returns what the
    scan of the catalog gives. *)
Lemma get_binary_path_scan (self : BinaryManager) (binary : Binary)
      (st : Store) :
  cache_agrees self st ->
  fst (get_binary_path self binary st) =
  match scan_artifacts (list_to_set (tags binary) ∪ {[ _platform self ]})
                       binary (_binary_artifacts self) with
  | Some (artifact_binary, artifact_path) =>
      Ok (artifact_get_inner_file_path (path artifact_binary) artifact_path)
  | None => Raise (BinaryPathNotFound binary)
  end.
Proof.
  intros Hst. unfold BinariesUtil.get_binary_path.
  destruct (_resolved_paths st !! _) eqn:Hc.
  - destruct (Hst _ _ Hc) as (B & a & -> & ->). done.
  - by destruct (scan_artifacts _ binary _) as [[B a]|].
Qed.

(** X2: a second lookup of the same descriptor gives what the first
    gave, the same path or [BinaryPathNotFound] again, whatever the cache
    held before. *)
Lemma get_binary_path_again (self : BinaryManager) (binary : Binary)
      (st : Store) :
  fst (get_binary_path self binary (snd (get_binary_path self binary st))) =
  fst (get_binary_path self binary st).
Proof.
  unfold BinariesUtil.get_binary_path.
  destruct (_resolved_paths st !! _) eqn:Hc; simpl; [by rewrite Hc|].
  destruct (scan_artifacts _ binary _) as [[B a]|] eqn:Hs; simpl.
  - by rewrite lookup_insert_eq.
  - by rewrite Hc.
Qed.

(** A child manager resolves paths as its parent does. *)
Lemma get_binary_path_child (self : BinaryManager) (binary_list : list Binary)
      (binary : Binary) (st : Store) :
  get_binary_path (get_child_binary_manager self binary_list) binary st =
  get_binary_path self binary st.
Proof. reflexivity. Qed.

(** C4: after any run of earlier lookups on a new manager,
    [get_binary_path] returns the path of the first binary of the
    catalog, archive set after archive set, whose name and version are
    those of the requested descriptor and whose tags hold the
    descriptor's tags and the platform; when the catalog has no such
    binary it raises [BinaryPathNotFound]. *)
Theorem get_binary_path_first_accepted (self : BinaryManager)
        (requests : list Binary) (D : Binary) (r : option (Binary * string)) :
  first_accepted (_platform self) D (catalog_binaries (_binary_artifacts self)) r ->
  fst (get_binary_path self D (after self requests)) =
  match r with
  | Some (B, artifact_path) =>
      Ok (artifact_get_inner_file_path (path B) artifact_path)
  | None => Raise (BinaryPathNotFound D)
  end.
Proof.
  intros H. rewrite get_binary_path_scan by apply cache_agrees_after.
  by rewrite (scan_artifacts_first _ _ _ _ H).
Qed.

Lemma first_named_none (n : string) (binary_list : list Binary) :
  first_named n binary_list = None <->
  Forall (fun b => name b <> n) binary_list.
Proof.
  induction binary_list as [|b l IH]; simpl.
  - split; [by constructor|done].
  - destruct (String.eqb (name b) n) eqn:E.
    + apply String.eqb_eq in E. split; [done|].
      by intros [? _]%Forall_cons.
    + apply String.eqb_neq in E. rewrite IH. split.
      * by constructor.
      * by intros [_ ?]%Forall_cons.
Qed.

Lemma first_named_first (n : string) (pre : list Binary) (b : Binary)
      (post : list Binary) :
  Forall (fun x => name x <> n) pre -> name b = n ->
  first_named n (pre ++ b :: post) = Some b.
Proof.
  intros Hpre Hb. induction pre as [|x pre IH]; simpl.
  - apply String.eqb_eq in Hb. by rewrite Hb.
  - apply Forall_cons in Hpre as [Hx Hpre].
    apply String.eqb_neq in Hx. rewrite Hx. by apply IH.
Qed.

(** C8: [get_binary_path_by_name] resolves the first descriptor of the
    list of the manager that has the requested name, and it raises
    [BinaryNotFound] exactly when no descriptor of the list has that
    name. *)
Theorem get_binary_path_by_name_first (self : BinaryManager) (n : string)
        (st : Store) :
  (forall pre b post,
      _binary_list self = pre ++ b :: post ->
      Forall (fun x => name x <> n) pre -> name b = n ->
      get_binary_path_by_name self n st =
      match get_binary_path self b st with
      | (Ok p, st') => (Ok {| info_path := p; info_binary := b |}, st')
      | (Raise e, st') => (Raise e, st')
      end) /\
  ((exists l, fst (get_binary_path_by_name self n st)
              = Raise (BinaryNotFound n l)) <->
   Forall (fun x => name x <> n) (_binary_list self)).
Proof.
  unfold BinariesUtil.get_binary_path_by_name, get_binary_by_name,
    get_binary_by_name_from_list.
  split.
  - intros pre b post -> Hpre Hb. by rewrite first_named_first.
  - rewrite <- first_named_none.
    destruct (first_named n (_binary_list self)) as [b|] eqn:E.
    + split; [|done]. intros [l H]. exfalso. revert H.
      unfold BinariesUtil.get_binary_path.
      destruct (_resolved_paths st !! _); [done|].
      by destruct (scan_artifacts _ b _) as [[B a]|].
    + split; [done|]. intros _. by eexists.
Qed.

End BinaryManagerFacts.

(** ** The scenarios, evaluated *)

Section Scenarios.
Import BinariesUtil.

(** On Linux, the descriptor [spirv-opt] of version [V1] resolves to
    the Linux binary of the second archive set, also on a second call. *)
Lemma get_binary_path_first_accepted_witness :
  first_accepted "Linux" spirv_opt_V1 (catalog_binaries sample_catalog)
    (Some (spirv_opt_V1_Linux, "//binaries/tools_V1"%string)) /\
  fst (BinariesUtil.get_binary_path sample_inner_file_path sample_manager
         spirv_opt_V1
         (BinariesUtil.after sample_inner_file_path sample_manager
            [spirv_opt_V1]))
  = Ok "//binaries/tools_V1/v1/bin/spirv-opt"%string.
Proof.
  assert (first_accepted "Linux" spirv_opt_V1 (catalog_binaries sample_catalog)
            (Some (spirv_opt_V1_Linux, "//binaries/tools_V1"%string))) as H.
  { apply first_later; [by intros [[=] _]|].
    apply first_later; [by intros (_ & [=] & _)|].
    apply first_later.
    { intros (_ & _ & Ht). specialize (Ht "Linux"%string (or_intror eq_refl)).
      simpl in Ht. by destruct Ht as [[=]|[[=]|[[=]|[]]]]. }
    apply first_here. repeat split.
    intros t [[]| ->]. by left. }
  split; [exact H|].
  exact (get_binary_path_first_accepted sample_inner_file_path sample_manager
           [spirv_opt_V1] spirv_opt_V1 _ H).
Defined.

(** [spirv-opt] is in the list of the manager, [glslangValidator] is
    not. *)
Lemma get_binary_path_by_name_first_witness :
  (_binary_list sample_manager = [] ++ spirv_opt_V1 :: [] /\
   Forall (fun x => name x <> "spirv-opt"%string) [] /\
   name spirv_opt_V1 = "spirv-opt"%string) /\
  BinariesUtil.get_binary_path_by_name sample_inner_file_path sample_manager
    "spirv-opt" new_store
  = (Ok {| info_path := "//binaries/tools_V1/v1/bin/spirv-opt";
           info_binary := spirv_opt_V1 |},
     snd (BinariesUtil.get_binary_path sample_inner_file_path sample_manager
            spirv_opt_V1 new_store)) /\
  Forall (fun x => name x <> "glslangValidator"%string)
         (_binary_list sample_manager) /\
  exists l,
    fst (BinariesUtil.get_binary_path_by_name sample_inner_file_path
           sample_manager "glslangValidator" new_store)
    = Raise (BinaryNotFound "glslangValidator" l).
Proof.
  assert (Forall (fun x => name x <> "glslangValidator"%string)
                 (_binary_list sample_manager)) as Hnone
    by (by repeat constructor).
  split; [by repeat split|]. split; [|split; [exact Hnone|]].
  - exact (proj1 (get_binary_path_by_name_first sample_inner_file_path
                    sample_manager "spirv-opt" new_store)
             [] spirv_opt_V1 [] eq_refl (Forall_nil_2 _) eq_refl).
  - exact (proj2 (proj2 (get_binary_path_by_name_first sample_inner_file_path
                           sample_manager "glslangValidator" new_store))
             Hnone).
Defined.

End Scenarios.

Section LoopScenario.
Import FuzzLoop.

(** A crash in the [opt_O] sibling: two calls, and the first returned
    the empty list. *)
Lemma siblings_stop_at_first_report_witness :
  fst (iteration nat (fun _ _ w => w) (fun _ _ w => w) (fun w => ([], w))
         sample_handle_test "temp" "t" 0%nat)
  = [] ++ ("temp/t/t_no_opt_test"%string, Returns []) ::
      [("temp/t/t_opt_O_test"%string,
        Returns ["reports/crashes/compile_error/t_opt_O_test_host"%string])] /\
  [("temp/t/t_opt_O_test"%string,
    Returns ["reports/crashes/compile_error/t_opt_O_test_host"%string])] <> [] /\
  snd ("temp/t/t_no_opt_test"%string, Returns []) = Returns [].
Proof.
  pose proof (siblings_stop_at_first_report nat (fun _ _ w => w)
                (fun _ _ w => w) (fun w => ([], w)) sample_handle_test
                "temp" "t" 0%nat) as (_ & H & _).
  assert (fst (iteration nat (fun _ _ w => w) (fun _ _ w => w)
                 (fun w => ([], w)) sample_handle_test "temp" "t" 0%nat)
          = [] ++ ("temp/t/t_no_opt_test"%string, Returns []) ::
              [("temp/t/t_opt_O_test"%string,
                Returns ["reports/crashes/compile_error/t_opt_O_test_host"%string])])
    as E by reflexivity.
  split; [exact E|]. split; [discriminate|].
  exact (H _ _ _ E ltac:(discriminate)).
Defined.

End LoopScenario.

(** ** The must-pass lists *)

Section MustPassFacts.
Import Text AddAmberTestsToCts.







Lemma readlines_line (body rest : str) :
  ~ In newline body ->
  readlines (body ++ newline :: rest) = (body ++ [newline]) :: readlines rest.
Proof.
  induction body as [|c body IH]; intros Hb; [done|]. simpl.
  destruct (c =? newline)%N eqn:E.
  - apply N.eqb_eq in E. destruct Hb. by left.
  - rewrite IH; [done|]. intros H. apply Hb. by right.
Qed.

(** Reading back a text made of complete lines gives these lines. *)
Lemma readlines_concat (ls : list str) :
  Forall complete_line ls -> readlines (concat ls) = ls.
Proof.
  induction 1 as [|l ls (body & -> & Hb) _ IH]; [done|]. simpl.
  rewrite <- app_assoc. simpl. by rewrite readlines_line, IH.
Qed.


Lemma last_cons (l : str) (ls : list str) (d : str) :
  List.last (l :: ls) d = List.last ls l.
Proof.
  revert l d. induction ls as [|x ls IH]; intros l d; [done|].
  change (List.last (l :: x :: ls) d) with (List.last (x :: ls) d).
  by rewrite (IH x d), (IH x l).
Qed.









Lemma last_in (ls : list str) (d : str) :
  ls <> [] -> In (List.last ls d) ls.
Proof.
  destruct ls as [|l ls]; [done|]. intros _. rewrite last_cons.
  revert l. induction ls as [|x ls IH]; intros l; [by left|].
  right. rewrite last_cons. apply IH.
Qed.

Lemma eqb_nil_line (ltw : str) : ltw <> [] -> eqb [] ltw = false.
Proof. by destruct ltw. Qed.







Lemma bak_differs (must_pass_file_path : string) :
  must_pass_file_path +:+ ".bak" <> must_pass_file_path.
Proof.
  induction must_pass_file_path as [|c p IH]; simpl; [done|].
  by intros [=].
Qed.

(** On the files: the must-pass file gets the new content, and the copy
    is removed. *)
Lemma add_amber_test_to_must_pass_content (amber_test_name : str)
      (must_pass_file_path : string) (files : gmap string str) (content : str) :
  files !! must_pass_file_path = Some content ->
  exists files',
    add_amber_test_to_must_pass amber_test_name must_pass_file_path files
    = Some files' /\
    files' !! must_pass_file_path
    = Some (must_pass_content amber_test_name content) /\
    files' !! (must_pass_file_path +:+ ".bak") = None.
Proof.
  intros H. unfold add_amber_test_to_must_pass. rewrite H.
  eexists. split; [done|]. split.
  - rewrite lookup_delete_ne by apply bak_differs. apply lookup_insert_eq.
  - apply lookup_delete_eq.
Qed.

(** C9, what the code does on a list whose last line has no newline:
    the new line is glued to that last line, and a second run adds the
    line once more. *)
Theorem must_pass_second_run_differs :
  must_pass_content (text "b") (text "dEQP-VK.graphicsfuzz.a")
  = text "dEQP-VK.graphicsfuzz.adEQP-VK.graphicsfuzz.b" ++ [newline] /\
  must_pass_content (text "b")
    (must_pass_content (text "b") (text "dEQP-VK.graphicsfuzz.a"))
  = text "dEQP-VK.graphicsfuzz.adEQP-VK.graphicsfuzz.b" ++ [newline] ++
    text "dEQP-VK.graphicsfuzz.b" ++ [newline].
Proof. split; vm_compute; reflexivity. Qed.

End MustPassFacts.

(** ** The C++ table of tests *)

Section CtsCppFacts.
Import Text AddAmberTestsToCts CtsCpp.

Lemma slice_from_app (p r : str) : slice_from (p ++ r) (len p) = r.
Proof.
  unfold slice_from, len. rewrite length_app.
  replace (Z.of_nat (length p) <? 0) with false by (symmetry; apply Z.ltb_ge; lia).
  rewrite Z.min_l by lia. rewrite Nat2Z.id. apply drop_app_length.
Qed.

(** X3: [remove_start (string, start)] returns [r] exactly when
    [string] is [start + r]; it fails when [string] does not start
    with [start]; with the empty prefix it returns the string. *)
Theorem remove_start_strips_prefix :
  (forall string start r : str,
      remove_start string start = Ok r <-> string = start ++ r) /\
  (forall string start : str,
      startswith string start = false ->
      remove_start string start = AssertionError assertion_failed) /\
  (forall string : str, remove_start string [] = Ok string).
Proof.
  assert (H : forall start r : str, remove_start (start ++ r) start = Ok r).
  { intros start r. unfold remove_start.
    by rewrite startswith_app, slice_from_app. }
  split; [|split].
  - intros string start r. split.
    + unfold remove_start. destruct (startswith string start) eqn:E; [|done].
      apply startswith_spec in E as [r' ->]. rewrite slice_from_app.
      by intros [= ->].
    + intros ->. apply H.
  - intros string start E. unfold remove_start. by rewrite E.
  - intros string. apply (H [] string).
Qed.

Lemma slice_to_minus_1 (body : str) :
  slice_to body (-1) = removelast body.
Proof.
  induction body as [|c b _] using rev_ind; [done|].
  rewrite removelast_last. by apply (slice_to_neg_app b [c]).
Qed.

Lemma short_description_of_skip (before rest : list str) :
  Forall (fun l => startswith l SHORT_DESCRIPTION_LINE_PREFIX = false) before ->
  short_description_of (before ++ rest) = short_description_of rest.
Proof.
  induction 1 as [|l before Hl _ IH]; [done|].
  cbn [app short_description_of]. by rewrite Hl.
Qed.

Lemma short_description_of_line (body : str) (rest : list str) :
  short_description_of ((SHORT_DESCRIPTION_LINE_PREFIX ++ body) :: rest)
  = Ok (removelast body).
Proof.
  cbn [short_description_of]. rewrite startswith_app.
  destruct remove_start_strips_prefix as (H & _).
  rewrite (proj2 (H _ _ body) eq_refl). cbn [bind].
  by rewrite slice_to_minus_1.
Qed.

Lemma readlines_concat_app (ls : list str) (rest : str) :
  Forall complete_line ls -> readlines (concat ls ++ rest) = ls ++ readlines rest.
Proof.
  induction 1 as [|l ls (body & -> & Hb) _ IH]; [done|]. simpl.
  rewrite <- !app_assoc. simpl. by rewrite readlines_line, IH.
Qed.

Lemma readlines_no_newline (body : str) :
  ~ In newline body -> body <> [] -> readlines body = [body].
Proof.
  induction body as [|c body IH]; intros Hb Hn; [done|]. simpl.
  destruct (c =? newline)%N eqn:E.
  - apply N.eqb_eq in E. destruct Hb. by left.
  - destruct body as [|c' body]; [done|].
    rewrite IH; [done| |done]. intros H. apply Hb. by right.
Qed.

Lemma prefix_no_newline : ~ In newline SHORT_DESCRIPTION_LINE_PREFIX.
Proof. intros H. vm_compute in H. repeat (destruct H as [[=]|H]). done. Qed.

(** X4: [get_amber_test_short_description] on a file whose lines
    before the first line with the prefix are complete: it returns
    the text between the prefix and the newline of that line; when
    that line is the last one and the file does not end with a
    newline, the last character of the description is lost; and it
    returns the empty string when no line has the prefix. *)
Theorem short_description_first_line (before : list str) (description : str) :
  Forall complete_line before ->
  Forall (fun l => startswith l SHORT_DESCRIPTION_LINE_PREFIX = false) before ->
  ~ In newline description ->
  (forall rest : str,
      get_amber_test_short_description
        (concat before ++ SHORT_DESCRIPTION_LINE_PREFIX ++ description ++
         newline :: rest) = Ok description) /\
  get_amber_test_short_description
    (concat before ++ SHORT_DESCRIPTION_LINE_PREFIX ++ description)
  = Ok (removelast description) /\
  get_amber_test_short_description (concat before) = Ok [].
Proof.
  intros Hc Hb Hd. unfold get_amber_test_short_description.
  split; [|split].
  - intros rest. rewrite readlines_concat_app by done.
    rewrite short_description_of_skip by done.
    rewrite app_assoc, readlines_line; last first.
    { intros [H|H]%in_app_or; [by apply prefix_no_newline|done]. }
    rewrite <- !app_assoc. rewrite short_description_of_line.
    by rewrite removelast_last.
  - rewrite readlines_concat_app by done.
    rewrite short_description_of_skip by done.
    rewrite readlines_no_newline.
    + apply short_description_of_line.
    + intros [H|H]%in_app_or; [by apply prefix_no_newline|done].
    + done.
  - rewrite readlines_concat by done.
    rewrite <- (app_nil_r before).
    by rewrite short_description_of_skip.
Qed.

(** Before the description, a line that ends with the prefix. *)
Lemma short_description_first_line_witness :
  get_amber_test_short_description
    (text "#!amber" ++ [newline] ++
     text "# A test for a bug found by GraphicsFuzz." ++ [newline] ++
     text "# Short description: " ++ text "A fragment shader with a loop" ++
     newline :: text "SHADER vertex v PASSTHROUGH" ++ [newline])
  = Ok (text "A fragment shader with a loop").
Proof.
  apply (short_description_first_line
           [text "#!amber" ++ [newline];
            text "# A test for a bug found by GraphicsFuzz." ++ [newline]]
           (text "A fragment shader with a loop")).
  - repeat constructor.
    + exists (text "#!amber"). split; [done|].
      intros H; vm_compute in H; repeat (destruct H as [[=]|H]); done.
    + exists (text "# A test for a bug found by GraphicsFuzz."). split; [done|].
      intros H; vm_compute in H; repeat (destruct H as [[=]|H]); done.
  - repeat constructor.
  - intros H; vm_compute in H; repeat (destruct H as [[=]|H]); done.
Defined.

(** *** Tabs *)

Lemma expandtabs_from_app (ts : Z) (s t : str) :
  forall j,
    no_line_break s = true ->
    expandtabs_from ts j (s ++ t)
    = expandtabs_from ts j s ++
      expandtabs_from ts (j + len (expandtabs_from ts j s)) t.
Proof.
  induction s as [|c s IH]; intros j Hs.
  - cbn. by rewrite Z.add_0_r.
  - cbn [no_line_break forallb] in Hs.
    apply andb_true_iff in Hs as [Hc Hs].
    apply negb_true_iff in Hc.
    cbn [app expandtabs_from].
    destruct (c =? tab)%N.
    + destruct (0 <? ts) eqn:Ets.
      * rewrite IH by done. rewrite <- app_assoc. do 2 f_equal.
        unfold len. rewrite length_app, repeat_length.
        apply Z.ltb_lt in Ets.
        pose proof (Z.mod_pos_bound j ts Ets). f_equal. lia.
      * by apply IH.
    + rewrite Hc. rewrite IH by done. cbn [app]. do 2 f_equal.
      unfold len. cbn [length]. f_equal. lia.
Qed.

Lemma plain_no_line_break (s : str) : plain s = true -> no_line_break s = true.
Proof.
  unfold plain, no_line_break. rewrite !forallb_forall.
  intros H c Hc. specialize (H c Hc).
  apply negb_true_iff in H. apply negb_true_iff.
  apply orb_false_iff in H as [H ?]. apply orb_false_iff in H as [_ H].
  by rewrite H.
Qed.

Lemma expandtabs_from_plain (ts : Z) (s : str) :
  forall j, plain s = true -> expandtabs_from ts j s = s.
Proof.
  induction s as [|c s IH]; intros j Hs; [done|].
  cbn [plain forallb] in Hs. apply andb_true_iff in Hs as [Hc Hs].
  apply negb_true_iff in Hc.
  apply orb_false_iff in Hc as [Hc _]. apply orb_false_iff in Hc as [Hc _].
  cbn [expandtabs_from]. rewrite Hc. f_equal. by apply IH.
Qed.

Lemma no_line_break_app (s t : str) :
  no_line_break (s ++ t) = no_line_break s && no_line_break t.
Proof. apply forallb_app. Qed.

Lemma no_line_break_tabs (n : nat) : no_line_break (repeat tab n) = true.
Proof. induction n as [|n IH]; [done|]. cbn. apply IH. Qed.

Lemma width_app_plain (ts : Z) (line txt : str) :
  no_line_break line = true -> plain txt = true ->
  width ts (line ++ txt) = width ts line + len txt.
Proof.
  intros Hl Ht. unfold width, expandtabs.
  rewrite expandtabs_from_app by done.
  rewrite (expandtabs_from_plain ts txt _ Ht).
  unfold len. rewrite length_app. lia.
Qed.

Lemma width_nonneg (ts : Z) (line : str) : 0 <= width ts line.
Proof. unfold width, len. lia. Qed.

(** A tab leads to the next multiple of the tab size. *)
Lemma width_app_tab (ts : Z) (line : str) :
  0 < ts -> no_line_break line = true ->
  width ts (line ++ [tab]) = ts * (width ts line / ts + 1).
Proof.
  intros Hts Hl. unfold width, expandtabs.
  rewrite expandtabs_from_app by done.
  cbn [expandtabs_from]. rewrite N.eqb_refl.
  replace (0 <? ts) with true by (symmetry; by apply Z.ltb_lt).
  rewrite app_nil_r. unfold len. rewrite length_app, repeat_length.
  set (L := Z.of_nat (length (expandtabs_from ts 0 line))).
  rewrite Z.add_0_l.
  pose proof (Z.mod_pos_bound L ts Hts).
  pose proof (Z.div_mod L ts ltac:(lia)). nia.
Qed.

(** Without a positive tab size, a tab adds nothing. *)
Lemma expandtabs_from_tab_nothing (ts : Z) (line : str) :
  ts <= 0 ->
  forall j, expandtabs_from ts j (line ++ [tab]) = expandtabs_from ts j line.
Proof.
  intros Hts. induction line as [|c line IH]; intros j; cbn [app expandtabs_from].
  - rewrite N.eqb_refl.
    by replace (0 <? ts) with false by (symmetry; by apply Z.ltb_ge).
  - destruct (c =? tab)%N.
    + replace (0 <? ts) with false by (symmetry; by apply Z.ltb_ge). apply IH.
    + f_equal. apply IH.
Qed.

(** With a positive tab size, a field index that is a multiple of it
    and a line that is not beyond it, the loop ends within
    [field_index - width] rounds, with the line at the field index. *)
Lemma add_tabs_ends (ts fi : Z) (fuel : nat) :
  0 < ts -> fi mod ts = 0 ->
  forall line,
    no_line_break line = true ->
    width ts line <= fi -> fi - width ts line <= Z.of_nat fuel ->
    add_tabs fuel line fi ts = Some (line ++ tabs (fi / ts - width ts line / ts)) /\
    width ts (line ++ tabs (fi / ts - width ts line / ts)) = fi.
Proof.
  intros Hts Hfi.
  assert (Efi : fi = ts * (fi / ts)).
  { pose proof (Z.div_mod fi ts ltac:(lia)). lia. }
  induction fuel as [|fuel IH]; intros line Hl Hle Hfuel.
  - assert (E : width ts line = fi) by lia.
    cbn [add_tabs]. fold (width ts line).
    replace (width ts line <? fi) with false by (symmetry; apply Z.ltb_ge; lia).
    rewrite E, Z.sub_diag. unfold tabs. cbn [Z.to_nat repeat].
    by rewrite app_nil_r.
  - cbn [add_tabs]. fold (width ts line).
    destruct (width ts line <? fi) eqn:Elt.
    + apply Z.ltb_lt in Elt.
      pose proof (width_nonneg ts line) as H0.
      pose proof (width_app_tab ts line Hts Hl) as Ht.
      assert (Hq : width ts line / ts < fi / ts).
      { apply Z.div_lt_upper_bound; lia. }
      assert (Hd : width ts (line ++ [tab]) / ts = width ts line / ts + 1).
      { rewrite Ht. rewrite Z.mul_comm. apply Z.div_mul. lia. }
      assert (Hw : width ts line < width ts (line ++ [tab])).
      { rewrite Ht. pose proof (Z.mod_pos_bound (width ts line) ts Hts).
        pose proof (Z.div_mod (width ts line) ts ltac:(lia)). nia. }
      destruct (IH (line ++ [tab])) as [E1 E2].
      * rewrite no_line_break_app, Hl. done.
      * rewrite Ht. nia.
      * lia.
      * rewrite Hd in E1, E2.
        assert (Et : line ++ tabs (fi / ts - width ts line / ts)
                     = (line ++ [tab]) ++
                       tabs (fi / ts - (width ts line / ts + 1))).
        { rewrite <- app_assoc. f_equal. unfold tabs.
          replace (Z.to_nat (fi / ts - width ts line / ts))
            with (S (Z.to_nat (fi / ts - (width ts line / ts + 1)))) by lia.
          done. }
        by rewrite Et.
    + apply Z.ltb_ge in Elt. assert (E : width ts line = fi) by lia.
      rewrite E, Z.sub_diag. unfold tabs. cbn [Z.to_nat repeat].
      by rewrite app_nil_r.
Qed.

(** Without a positive tab size, the loop never ends on a line that
    is before the field index: the line keeps its width, whatever the
    number of tabs added. *)
Lemma add_tabs_never_ends (ts fi : Z) (line : str) :
  ts <= 0 -> width ts line < fi ->
  (forall fuel, add_tabs fuel line fi ts = None) /\
  (forall n, width ts (line ++ repeat tab n) = width ts line).
Proof.
  intros Hts Hlt.
  assert (Hn : forall n l, width ts (l ++ repeat tab n) = width ts l).
  { induction n as [|n IH]; intros l; [by rewrite app_nil_r|].
    change (repeat tab (S n)) with ([tab] ++ repeat tab n).
    rewrite app_assoc, IH. unfold width, expandtabs.
    by rewrite expandtabs_from_tab_nothing. }
  split; [|intros n; apply Hn].
  intros fuel. revert line Hlt.
  induction fuel as [|fuel IH]; intros line Hlt; cbn [add_tabs];
    fold (width ts line);
    replace (width ts line <? fi) with true by (symmetry; by apply Z.ltb_lt);
    [done|].
  apply IH. by rewrite (Hn 1%nat line : width ts (line ++ [tab]) = _).
Qed.

(** X5: [check_and_add_tabs] with a positive tab size, a field index
    whose column (the index minus one) is a multiple of the tab size,
    and a line without line break: a line whose width, tabs expanded,
    is not beyond the column is returned with tabs added at its end,
    as many as there are tab stops from its width to the column, and
    its width is then the column; a line beyond the column gives the
    assertion error that names the field. *)
Theorem check_and_add_tabs_pads (line : str) (string_name : string)
        (string_value : str) (field_index tab_size : Z) :
  0 < tab_size -> (field_index - 1) mod tab_size = 0 ->
  no_line_break line = true ->
  let n := (field_index - 1) / tab_size - width tab_size line / tab_size in
  (width tab_size line <= field_index - 1 ->
   check_and_add_tabs line string_name string_value field_index tab_size
   = Ok (line ++ tabs n) /\
   width tab_size (line ++ tabs n) = field_index - 1) /\
  (field_index - 1 < width tab_size line ->
   check_and_add_tabs line string_name string_value field_index tab_size
   = AssertionError (too_long string_name string_value)).
Proof.
  intros Hts Hfi Hl n. unfold check_and_add_tabs. fold (width tab_size line).
  split; intros Hw.
  - replace (width tab_size line <=? field_index - 1) with true
      by (symmetry; by apply Z.leb_le).
    cbn [negb].
    pose proof (width_nonneg tab_size line) as H0.
    destruct (add_tabs_ends tab_size (field_index - 1)
                (Z.to_nat (field_index - 1)) Hts Hfi line Hl Hw) as [E1 E2];
      [lia|].
    subst n. unfold width in *. by rewrite E1, E2, Z.eqb_refl.
  - replace (width tab_size line <=? field_index - 1) with false
      by (symmetry; apply Z.leb_gt; lia).
    done.
Qed.

(** The opening bracket of a line of the table, padded to the file
    name. *)
Lemma check_and_add_tabs_pads_witness :
  check_and_add_tabs ([tab; tab] ++ text "{") "internal" (text "internal") 13 4
  = Ok ([tab; tab] ++ text "{" ++ [tab]) /\
  width 4 ([tab; tab] ++ text "{" ++ [tab]) = 12.
Proof.
  destruct (check_and_add_tabs_pads ([tab; tab] ++ text "{") "internal"
              (text "internal") 13 4) as [H _]; [lia|reflexivity|reflexivity|].
  apply H. vm_compute. discriminate.
Defined.

Lemma plain_app (s t : str) : plain (s ++ t) = plain s && plain t.
Proof. apply forallb_app. Qed.

Lemma len_app (s t : str) : len (s ++ t) = len s + len t.
Proof. unfold len. rewrite length_app. lia. Qed.

Lemma no_line_break_tabs_Z (n : Z) : no_line_break (tabs n) = true.
Proof. apply no_line_break_tabs. Qed.

(** A field of plain text added to a line that is at a tab stop, then
    padded to the next field. *)
Lemma pad_field (line txt : str) (string_name : string) (string_value : str)
      (fi : Z) :
  no_line_break line = true -> plain txt = true -> (fi - 1) mod 4 = 0 ->
  let w := width 4 line + len txt in
  let padded := line ++ txt ++ tabs ((fi - 1) / 4 - w / 4) in
  (w <= fi - 1 ->
   check_and_add_tabs (line ++ txt) string_name string_value fi 4 = Ok padded /\
   width 4 padded = fi - 1 /\ no_line_break padded = true) /\
  (fi - 1 < w ->
   check_and_add_tabs (line ++ txt) string_name string_value fi 4
   = AssertionError (too_long string_name string_value)).
Proof.
  intros Hl Ht Hfi w padded.
  assert (Hlt : no_line_break (line ++ txt) = true).
  { rewrite no_line_break_app, Hl. by apply plain_no_line_break. }
  assert (Hw : width 4 (line ++ txt) = w) by (by apply width_app_plain).
  destruct (check_and_add_tabs_pads (line ++ txt) string_name string_value
              fi 4 ltac:(lia) Hfi Hlt) as [H1 H2].
  rewrite Hw in H1, H2. rewrite <- app_assoc in H1. fold padded in H1.
  split; [|done].
  intros Hle. destruct (H1 Hle) as [E1 E2]. repeat split; [done..|].
  unfold padded. rewrite app_assoc, no_line_break_app, Hlt.
  apply no_line_break_tabs_Z.
Qed.

Lemma plain_text_quote : plain [quote] = true.
Proof. reflexivity. Qed.

(** The line of a test, field by field. *)
Lemma cpp_line_to_write_fields (amber_test_name short_description : str) :
  plain amber_test_name = true -> plain short_description = true ->
  get_cpp_line_to_write amber_test_name short_description
  = (if len amber_test_name <=? 37 then
       if len short_description <=? 86 then
         Ok (concat (cpp_fields amber_test_name short_description))
       else AssertionError (too_long "short description" short_description)
     else AssertionError (too_long "amber test name" amber_test_name)) /\
  (len amber_test_name <= 37 -> len short_description <= 86 ->
   map (fun i => width 4 (concat
                   (take i (cpp_fields amber_test_name short_description))))
       [1; 2; 3; 4]%nat
   = [12; 60; 100; 188]).
Proof.
  intros Hn Hd.
  set (name := amber_test_name) in *. set (desc := short_description) in *.
  set (line1 := [tab; tab] ++ text "{" ++ tabs 1).
  set (txt1 := [quote] ++ name ++ text ".amber" ++ [quote] ++ text ",").
  set (txt2 := [quote] ++ name ++ [quote] ++ text ",").
  set (txt3 := [quote] ++ desc ++ [quote]).
  assert (L1 : len txt1 = len name + 9).
  { unfold txt1. rewrite !len_app. change (len [quote]) with 1.
    change (len (text ".amber")) with 6. change (len (text ",")) with 1. lia. }
  assert (L2 : len txt2 = len name + 3).
  { unfold txt2. rewrite !len_app. change (len [quote]) with 1.
    change (len (text ",")) with 1. lia. }
  assert (L3 : len txt3 = len desc + 2).
  { unfold txt3. rewrite !len_app. change (len [quote]) with 1. lia. }
  assert (P1 : plain txt1 = true).
  { unfold txt1. rewrite !plain_app, Hn. reflexivity. }
  assert (P2 : plain txt2 = true).
  { unfold txt2. rewrite !plain_app, Hn. reflexivity. }
  assert (P3 : plain txt3 = true).
  { unfold txt3. rewrite !plain_app, Hd. reflexivity. }
  assert (W1 : width 4 line1 = 12) by reflexivity.
  assert (N1 : no_line_break line1 = true) by reflexivity.
  assert (Hlen : 0 <= len name /\ 0 <= len desc) by (unfold len; lia).
  destruct (pad_field line1 txt1 "amber test name" name 61 N1 P1 eq_refl)
    as [A1 A2].
  rewrite W1, L1 in A1, A2.
  change ((61 - 1) / 4) with 15 in A1.
  replace (12 + (len name + 9)) with (21 + len name) in A1, A2 by lia.
  set (line2 := line1 ++ txt1 ++ tabs (15 - (21 + len name) / 4)) in *.
  assert (E0 : get_cpp_line_to_write name desc
               = (do line <- check_and_add_tabs (line1 ++ txt1)
                               "amber test name" name 61 4 ;
                  do line <- check_and_add_tabs (line ++ txt2)
                               "amber test name" name 101 4 ;
                  do line <- check_and_add_tabs (line ++ txt3)
                               "short description" desc 189 4 ;
                  Ok (line ++ text "}," ++ [newline]))) by reflexivity.
  destruct (Z.leb_spec (len name) 39) as [Hn39|Hn39]; last first.
  { split; [|lia]. rewrite E0, A2 by lia.
    replace (len name <=? 37) with false by (symmetry; apply Z.leb_gt; lia).
    done. }
  destruct A1 as (E1 & W2 & N2); [lia|].
  destruct (pad_field line2 txt2 "amber test name" name 101 N2 P2 eq_refl)
    as [B1 B2].
  rewrite W2, L2 in B1, B2.
  change ((101 - 1) / 4) with 25 in B1.
  replace (61 - 1 + (len name + 3)) with (63 + len name) in B1, B2 by lia.
  set (line3 := line2 ++ txt2 ++ tabs (25 - (63 + len name) / 4)) in *.
  destruct (Z.leb_spec (len name) 37) as [Hn37|Hn37]; last first.
  { split; [|lia]. rewrite E0, E1. cbn [bind]. by rewrite B2 by lia. }
  destruct B1 as (E2 & W3 & N3); [lia|].
  destruct (pad_field line3 txt3 "short description" desc 189 N3 P3 eq_refl)
    as [C1 C2].
  rewrite W3, L3 in C1, C2.
  change ((189 - 1) / 4) with 47 in C1.
  replace (101 - 1 + (len desc + 2)) with (102 + len desc) in C1, C2 by lia.
  set (line4 := line3 ++ txt3 ++ tabs (47 - (102 + len desc) / 4)) in *.
  destruct (Z.leb_spec (len desc) 86) as [Hd86|Hd86]; last first.
  { split; [|lia]. rewrite E0, E1. cbn [bind]. rewrite E2. cbn [bind].
    by rewrite C2 by lia. }
  destruct C1 as (E3 & W4 & N4); [lia|].
  assert (F1 : concat (take 1 (cpp_fields name desc)) = line1).
  { cbn [take cpp_fields concat]. by rewrite app_nil_r. }
  assert (F2 : concat (take 2 (cpp_fields name desc)) = line2).
  { cbn [take cpp_fields concat]. rewrite app_nil_r.
    unfold line2, line1, txt1. by rewrite <- !app_assoc. }
  assert (F3 : concat (take 3 (cpp_fields name desc)) = line3).
  { cbn [take cpp_fields concat]. rewrite app_nil_r.
    unfold line3, line2, line1, txt1, txt2. by rewrite <- !app_assoc. }
  assert (F4 : concat (take 4 (cpp_fields name desc)) = line4).
  { cbn [take cpp_fields concat]. rewrite app_nil_r.
    unfold line4, line3, line2, line1, txt1, txt2, txt3.
    by rewrite <- !app_assoc. }
  split.
  - rewrite E0, E1. cbn [bind]. rewrite E2. cbn [bind]. rewrite E3.
    cbn [bind]. f_equal.
    cbn [cpp_fields concat]. rewrite app_nil_r.
    unfold line4, line3, line2, line1, txt1, txt2, txt3.
    by rewrite <- !app_assoc.
  - intros _ _. cbn [map]. by rewrite F1, F2, F3, F4, W1, W2, W3, W4.
Qed.

(** X6: [get_cpp_line_to_write] for a test name and a description
    without tab or line break.  It succeeds exactly when the name has
    at most 37 characters and the description at most 86; a longer
    name or description gives the assertion error that names it.  The
    line then consists of the five fields with their tabs, and, tabs
    expanded to 4, the file name starts at column 12, the test name at
    column 60, the description at column 100 and the closing bracket
    at column 188. *)
Theorem get_cpp_line_to_write_fields (amber_test_name short_description : str) :
  plain amber_test_name = true -> plain short_description = true ->
  (len amber_test_name <= 37 -> len short_description <= 86 ->
   get_cpp_line_to_write amber_test_name short_description
   = Ok (concat (cpp_fields amber_test_name short_description)) /\
   map (fun i => width 4 (concat
                   (take i (cpp_fields amber_test_name short_description))))
       [1; 2; 3; 4]%nat
   = [12; 60; 100; 188]) /\
  (37 < len amber_test_name ->
   get_cpp_line_to_write amber_test_name short_description
   = AssertionError (too_long "amber test name" amber_test_name)) /\
  (len amber_test_name <= 37 -> 86 < len short_description ->
   get_cpp_line_to_write amber_test_name short_description
   = AssertionError (too_long "short description" short_description)).
Proof.
  intros Hn Hd.
  destruct (cpp_line_to_write_fields amber_test_name short_description Hn Hd)
    as [E W].
  rewrite E. split; [|split].
  - intros H37 H86. split; [|by apply W].
    replace (len amber_test_name <=? 37) with true
      by (symmetry; by apply Z.leb_le).
    by replace (len short_description <=? 86) with true
      by (symmetry; by apply Z.leb_le).
  - intros H37.
    by replace (len amber_test_name <=? 37) with false
      by (symmetry; apply Z.leb_gt; lia).
  - intros H37 H86.
    replace (len amber_test_name <=? 37) with true
      by (symmetry; by apply Z.leb_le).
    by replace (len short_description <=? 86) with false
      by (symmetry; apply Z.leb_gt; lia).
Qed.

(** A name of 18 characters and a description of 39. *)
Lemma get_cpp_line_to_write_fields_witness :
  get_cpp_line_to_write (text "continue-and-merge")
    (text "A fragment shader with two nested loops")
  = Ok (concat (cpp_fields (text "continue-and-merge")
                  (text "A fragment shader with two nested loops"))) /\
  map (fun i => width 4 (concat
                  (take i (cpp_fields (text "continue-and-merge")
                     (text "A fragment shader with two nested loops")))))
      [1; 2; 3; 4]%nat
  = [12; 60; 100; 188].
Proof.
  destruct (get_cpp_line_to_write_fields (text "continue-and-merge")
              (text "A fragment shader with two nested loops")
              eq_refl eq_refl) as [H _].
  apply H; vm_compute; discriminate.
Defined.

(** *** Writing the table *)

Lemma to_tests_array_skip (H : list str) :
  forall out rest,
    Forall (fun l => tests_array_line l = false) H ->
    to_tests_array (H ++ rest) out = to_tests_array rest (out ++ concat H).
Proof.
  induction H as [|l H IH]; intros out rest HH.
  - by rewrite app_nil_r.
  - inversion_clear HH as [|? ? Hl HH'].
    cbn [app to_tests_array concat]. rewrite Hl, IH by done.
    by rewrite <- app_assoc.
Qed.

Lemma to_cpp_insertion_point_unfold (ltw l : str) (rest : list str)
      (line out : str) :
  to_cpp_insertion_point ltw (l :: rest) line out
  = if stops_at ltw l then (l, rest, out)
    else to_cpp_insertion_point ltw rest l (out ++ l).
Proof.
  cbn [to_cpp_insertion_point]. unfold stops_at.
  by destruct (cpp_test_line l), (ge l ltw).
Qed.

Lemma to_cpp_insertion_point_skip (ltw : str) (Q : list str) :
  forall line out rest,
    Forall (fun l => stops_at ltw l = false) Q ->
    to_cpp_insertion_point ltw (Q ++ rest) line out
    = to_cpp_insertion_point ltw rest (List.last Q line) (out ++ concat Q).
Proof.
  induction Q as [|l Q IH]; intros line out rest HQ.
  - by rewrite app_nil_r.
  - inversion_clear HQ as [|? ? Hl HQ'].
    cbn [app]. rewrite to_cpp_insertion_point_unfold, Hl, IH by done.
    rewrite last_cons. cbn [concat]. by rewrite <- app_assoc.
Qed.

(** What [write_cpp_lines] writes: [line] is the line at which the
    second loop stops, or the last line it has read. *)
Lemma write_cpp_lines_at (ltw : str) (H : list str) (t b : str)
      (Q R : list str) :
  Forall (fun l => tests_array_line l = false) H ->
  tests_array_line t = true ->
  Forall (fun l => stops_at ltw l = false) Q ->
  match R with [] => True | x :: _ => stops_at ltw x = true end ->
  write_cpp_lines ltw (H ++ t :: b :: Q ++ R)
  = let line := hd (List.last Q []) R in
    concat (H ++ t :: b :: Q) ++
    (if eqb line ltw then [] else ltw) ++ line ++ concat (tl R).
Proof.
  intros HH Ht HQ HR. unfold write_cpp_lines.
  rewrite to_tests_array_skip by done.
  cbn [to_tests_array]. rewrite Ht. cbn [readline].
  rewrite to_cpp_insertion_point_skip by done.
  destruct R as [|x R]; cbn [hd tl].
  - cbn [to_cpp_insertion_point concat].
    destruct (eqb (List.last Q []) ltw); cbn [negb];
      rewrite ?concat_app; cbn [concat app]; by rewrite <- ?app_assoc, ?app_nil_r.
  - rewrite to_cpp_insertion_point_unfold, HR.
    destruct (eqb x ltw); cbn [negb];
      rewrite ?concat_app; cbn [concat app]; by rewrite <- ?app_assoc.
Qed.

(** X7: [write_cpp_lines] on a file with a line [t] that starts the
    array of tests, a line [b] after it, lines [Q] of the table that
    are smaller than the line to write, and then a line [x] that is
    not a line of the table or is not smaller: the line to write is
    put between [Q] and [x], unless [x] is that very line; every line
    of the file is kept, in its place. *)
Theorem cpp_line_inserted_in_order (line_to_write : str) (H : list str)
        (t b : str) (Q : list str) (x : str) (R : list str) :
  Forall (fun l => tests_array_line l = false) H ->
  tests_array_line t = true ->
  Forall (fun l => stops_at line_to_write l = false) Q ->
  stops_at line_to_write x = true ->
  write_cpp_lines line_to_write (H ++ t :: b :: Q ++ x :: R)
  = concat (H ++ t :: b :: Q ++
            (if eqb x line_to_write then [] else [line_to_write]) ++ x :: R).
Proof.
  intros HH Ht HQ Hx.
  rewrite (write_cpp_lines_at line_to_write H t b Q (x :: R)) by done.
  cbn [hd tl]. rewrite !concat_app. cbn [concat]. rewrite !concat_app.
  destruct (eqb x line_to_write); cbn [concat app];
    by rewrite <- ?app_assoc.
Qed.

(** The line of a test [b] goes between those of [a] and [c]. *)
Lemma cpp_line_inserted_in_order_witness :
  write_cpp_lines ([tab; tab] ++ text "{b}" ++ [newline])
    ([text "static const" ++ [newline]] ++
     ([tab] ++ text "tests[] =" ++ [newline]) ::
     ([tab] ++ text "{" ++ [newline]) ::
     [[tab; tab] ++ text "{a}" ++ [newline]] ++
     ([tab; tab] ++ text "{c}" ++ [newline]) ::
     [[tab] ++ text "};" ++ [newline]])
  = concat
      ([text "static const" ++ [newline]] ++
       ([tab] ++ text "tests[] =" ++ [newline]) ::
       ([tab] ++ text "{" ++ [newline]) ::
       [[tab; tab] ++ text "{a}" ++ [newline]] ++
       [[tab; tab] ++ text "{b}" ++ [newline]] ++
       ([tab; tab] ++ text "{c}" ++ [newline]) ::
       [[tab] ++ text "};" ++ [newline]]).
Proof.
  apply (cpp_line_inserted_in_order ([tab; tab] ++ text "{b}" ++ [newline])
           [text "static const" ++ [newline]]
           ([tab] ++ text "tests[] =" ++ [newline])
           ([tab] ++ text "{" ++ [newline])
           [[tab; tab] ++ text "{a}" ++ [newline]]
           ([tab; tab] ++ text "{c}" ++ [newline])
           [[tab] ++ text "};" ++ [newline]]).
  - by repeat constructor.
  - reflexivity.
  - by repeat constructor.
  - reflexivity.
Defined.

(** X8: [write_cpp_lines] when the file ends before the second loop
    has found where to stop.  Without a line that starts the array of
    tests, and when that line is the last one, the line to write is put
    at the end of the file; when the file ends with lines of the table
    that are smaller, the line to write is put at the end and the last
    line of the file is written once more after it. *)
Theorem cpp_line_at_end_of_file (line_to_write : str) :
  line_to_write <> [] ->
  (forall lines,
      Forall (fun l => tests_array_line l = false) lines ->
      write_cpp_lines line_to_write lines = concat lines ++ line_to_write) /\
  (forall H t,
      Forall (fun l => tests_array_line l = false) H ->
      tests_array_line t = true ->
      write_cpp_lines line_to_write (H ++ [t])
      = concat (H ++ [t]) ++ line_to_write) /\
  (forall H t b Q,
      Forall (fun l => tests_array_line l = false) H ->
      tests_array_line t = true ->
      Forall (fun l => stops_at line_to_write l = false) Q ->
      write_cpp_lines line_to_write (H ++ t :: b :: Q)
      = concat (H ++ t :: b :: Q) ++ line_to_write ++ List.last Q []).
Proof.
  intros Hltw. split; [|split].
  - intros lines HH. unfold write_cpp_lines.
    rewrite <- (app_nil_r lines) at 1.
    rewrite to_tests_array_skip by done.
    cbn [to_tests_array readline to_cpp_insertion_point].
    rewrite eqb_nil_line by done. cbn [negb concat app].
    by rewrite !app_nil_r.
  - intros H t HH Ht. unfold write_cpp_lines.
    rewrite to_tests_array_skip by done.
    cbn [to_tests_array]. rewrite Ht.
    cbn [readline to_cpp_insertion_point].
    rewrite eqb_nil_line by done. cbn [negb concat app].
    rewrite concat_app. cbn [concat]. by rewrite !app_nil_r.
  - intros H t b Q HH Ht HQ.
    pose proof (write_cpp_lines_at line_to_write H t b Q [] HH Ht HQ I) as E.
    rewrite app_nil_r in E. rewrite E. cbn [hd tl concat].
    rewrite app_nil_r.
    destruct Q as [|q Q]; [by rewrite eqb_nil_line|].
    assert (Hq : stops_at line_to_write (List.last (q :: Q) []) = false).
    { rewrite List.Forall_forall in HQ. apply HQ, last_in. done. }
    apply orb_false_iff in Hq as [_ Hq]. unfold ge in Hq. unfold eqb.
    by destruct (compare (List.last (q :: Q) []) line_to_write).
Qed.

(** A table that ends with the line of a test [a]. *)
Lemma cpp_line_at_end_of_file_witness :
  write_cpp_lines ([tab; tab] ++ text "{b}" ++ [newline])
    ([] ++ ([tab] ++ text "tests[] =" ++ [newline]) ::
           ([tab] ++ text "{" ++ [newline]) ::
           [[tab; tab] ++ text "{a}" ++ [newline]])
  = concat ([] ++ ([tab] ++ text "tests[] =" ++ [newline]) ::
                  ([tab] ++ text "{" ++ [newline]) ::
                  [[tab; tab] ++ text "{a}" ++ [newline]]) ++
    ([tab; tab] ++ text "{b}" ++ [newline]) ++
    List.last [[tab; tab] ++ text "{a}" ++ [newline]] [].
Proof.
  destruct (cpp_line_at_end_of_file ([tab; tab] ++ text "{b}" ++ [newline]))
    as (_ & _ & H); [discriminate|].
  apply H.
  - constructor.
  - reflexivity.
  - by repeat constructor.
Defined.

(** *** A second run *)













(** The paths *)

Lemma last_app_nonempty (a b : str) (d : char) :
  b <> [] -> List.last (a ++ b) d = List.last b d.
Proof.
  intros Hb. destruct (exists_last Hb) as (b' & c & ->).
  by rewrite app_assoc, !last_last.
Qed.

Lemma path_join_last (a b : str) (d : char) :
  b <> [] -> List.last (path_join a b) d = List.last b d.
Proof.
  intros Hb. unfold path_join.
  destruct (startswith b _); [done|].
  destruct (_ || _); rewrite ?app_assoc; by apply last_app_nonempty.
Qed.

Lemma amber_test_file_path_last (vk_gl_cts amber_test_name : str) :
  List.last (get_amber_test_file_path vk_gl_cts amber_test_name) 0%N
  = ord "r".
Proof.
  unfold get_amber_test_file_path. cbn [fold_left].
  rewrite path_join_last by (by destruct amber_test_name).
  change (text ".amber") with (text ".ambe" ++ [ord "r"]).
  by rewrite app_assoc, last_last.
Qed.

Lemma cpp_file_path_last (vk_gl_cts : str) :
  List.last (get_graphics_fuzz_tests_cpp_file_path vk_gl_cts) 0%N = ord "p".
Proof.
  unfold get_graphics_fuzz_tests_cpp_file_path. cbn [fold_left].
  by rewrite path_join_last.
Qed.

Lemma paths_differ (vk_gl_cts amber_test_name : str) :
  let amber := get_amber_test_file_path vk_gl_cts amber_test_name in
  let cpp_file := get_graphics_fuzz_tests_cpp_file_path vk_gl_cts in
  amber <> cpp_file /\ amber <> cpp_file ++ text ".bak" /\
  cpp_file <> cpp_file ++ text ".bak".
Proof.
  intros amber cpp_file.
  pose proof (amber_test_file_path_last vk_gl_cts amber_test_name) as Ha.
  pose proof (cpp_file_path_last vk_gl_cts) as Hc.
  fold amber in Ha. fold cpp_file in Hc.
  split; [|split].
  - intros E. rewrite E, Hc in Ha. discriminate.
  - intros E. rewrite E in Ha.
    rewrite last_app_nonempty in Ha by done. discriminate.
  - intros E. apply (f_equal length) in E. rewrite length_app in E.
    cbn in E. lia.
Qed.

(** X9: a run of [add_amber_test_to_cpp] for a test whose name has
    more than 37 characters, or whose description has more than 86
    (both without tab or line break), stops with the assertion error
    that names the text that is too long, after the C++ file has been
    copied: the C++ file is as it was, and the copy
    [cpp_file + ".bak"] is left behind. *)
Theorem too_long_leaves_copy (vk_gl_cts amber_test_name : str)
        (files : gmap str str) (amber_test desc cpp : str) :
  files !! get_amber_test_file_path vk_gl_cts amber_test_name
  = Some amber_test ->
  get_amber_test_short_description amber_test = Ok desc ->
  files !! get_graphics_fuzz_tests_cpp_file_path vk_gl_cts = Some cpp ->
  plain amber_test_name = true -> plain desc = true ->
  37 < len amber_test_name \/ 86 < len desc ->
  let cpp_file := get_graphics_fuzz_tests_cpp_file_path vk_gl_cts in
  let files' := <[cpp_file ++ text ".bak" := cpp]> files in
  add_amber_test_to_cpp vk_gl_cts amber_test_name files
  = Failed (if 37 <? len amber_test_name
            then too_long "amber test name" amber_test_name
            else too_long "short description" desc) files' /\
  files' !! cpp_file = Some cpp /\
  files' !! (cpp_file ++ text ".bak") = Some cpp.
Proof.
  intros Ea Ed Ec Hn Hd Hlong cpp_file files'.
  destruct (paths_differ vk_gl_cts amber_test_name) as (_ & _ & D).
  split; [|split].
  - unfold add_amber_test_to_cpp. rewrite Ea, Ed. rewrite Ec.
    destruct (cpp_line_to_write_fields amber_test_name desc Hn Hd) as [-> _].
    destruct (Z.leb_spec (len amber_test_name) 37) as [H37|H37].
    + replace (37 <? len amber_test_name) with false
        by (symmetry; apply Z.ltb_ge; lia).
      replace (len desc <=? 86) with false
        by (symmetry; apply Z.leb_gt; lia).
      done.
    + by replace (37 <? len amber_test_name) with true
        by (symmetry; apply Z.ltb_lt; lia).
  - unfold files'. by rewrite lookup_insert_ne.
  - unfold files'. by rewrite lookup_insert_eq.
Qed.

(** The name of the test is too long. *)
Lemma too_long_leaves_copy_witness :
  add_amber_test_to_cpp (text "cts") sample_long_name sample_long_cts
  = Failed (too_long "amber test name" sample_long_name)
      (<[get_graphics_fuzz_tests_cpp_file_path (text "cts") ++ text ".bak" :=
           concat sample_cpp]> sample_long_cts).
Proof.
  destruct (paths_differ (text "cts") sample_long_name) as (D & _).
  assert (sample_long_cts !! get_amber_test_file_path (text "cts")
                             sample_long_name = Some sample_amber_test) as H1.
  { unfold sample_long_cts. by rewrite lookup_insert_eq. }
  assert (sample_long_cts !! get_graphics_fuzz_tests_cpp_file_path (text "cts")
          = Some (concat sample_cpp)) as H3.
  { unfold sample_long_cts. rewrite lookup_insert_ne by done.
    by rewrite lookup_insert_eq. }
  destruct (too_long_leaves_copy (text "cts") sample_long_name sample_long_cts
              sample_amber_test (text "A test") (concat sample_cpp)
              H1 eq_refl H3 eq_refl eq_refl) as [E _].
  - left. vm_compute. reflexivity.
  - exact E.
Defined.





End CtsCppFacts.

(** ** Child managers and the built-in recipes *)

Section BuiltInFacts.
Import BinariesUtil BuiltInRecipes.

Variable artifact_get_inner_file_path : string -> string -> Path.

Lemma first_named_app (n : string) (l1 l2 : list Binary) :
  first_named n (l1 ++ l2) =
  match first_named n l1 with
  | Some b => Some b
  | None => first_named n l2
  end.
Proof.
  induction l1 as [|b l1 IH]; [done|]. cbn [app first_named].
  by destruct (String.eqb (name b) n).
Qed.

(** X11: the manager that [get_child_binary_manager] makes looks a
    name up in the list it is given first, and in the list of its
    parent when the given list has no binary of that name; it raises
    [BinaryNotFound] when neither has one.  It resolves paths as its
    parent does, on the same platform, catalog and cache. *)
Theorem child_binary_manager_overrides (self : BinaryManager)
        (binary_list : list Binary) (n : string) :
  let child := get_child_binary_manager self binary_list in
  (forall pre b post,
      binary_list = pre ++ b :: post ->
      Forall (fun x => name x <> n) pre -> name b = n ->
      get_binary_by_name child n = Ok b) /\
  (Forall (fun x => name x <> n) binary_list ->
   get_binary_by_name child n =
   match get_binary_by_name self n with
   | Ok b => Ok b
   | Raise _ => Raise (BinaryNotFound n (binary_list ++ _binary_list self))
   end) /\
  (forall binary st,
      BinariesUtil.get_binary_path artifact_get_inner_file_path child binary st
      = BinariesUtil.get_binary_path artifact_get_inner_file_path self binary
          st).
Proof.
  intros child. unfold get_binary_by_name, get_binary_by_name_from_list.
  cbn [child get_child_binary_manager _binary_list].
  rewrite first_named_app. split; [|split].
  - intros pre b post -> Hpre Hb.
    by rewrite (first_named_first n pre b post Hpre Hb).
  - intros Hnone. rewrite (proj2 (first_named_none n binary_list) Hnone).
    by destruct (first_named n (_binary_list self)).
  - done.
Qed.

(** X12: with the built-in recipes as its catalog, a new manager with
    the default binaries resolves each of them by name on Linux, Mac
    and Windows: to the Debug build for that platform of the project
    that has the tool, at the version of the default binary, under
    [bin] (the SwiftShader ICD under [lib]), with [.exe] added on
    Windows to the tools but not to the ICD. *)
Theorem default_binaries_resolve :
  exists recipes,
    BUILT_IN_BINARY_RECIPES = Some recipes /\
    Forall (fun platform =>
      Forall (fun binary =>
        let self :=
          {| _binary_list := DEFAULT_BINARIES;
             _platform := platform;
             _binary_artifacts := artifacts_of recipes |} in
        fst (BinariesUtil.get_binary_path_by_name artifact_get_inner_file_path
               self (name binary) new_store)
        = Ok {| info_path :=
                  artifact_get_inner_file_path
                    (fst (project_of binary) +:+ "/" +:+
                     snd (project_of binary) +:+ exe_on platform binary)
                    ("//binaries/" +:+ fst (project_of binary) +:+ "_" +:+
                     version binary +:+ "_" +:+ platform +:+ "_x64_Debug");
                info_binary := binary |})
        DEFAULT_BINARIES)
      ["Linux"; "Mac"; "Windows"]%string.
Proof.
  eexists. split; [reflexivity|].
  repeat constructor; vm_compute; reflexivity.
Qed.

End BuiltInFacts.

(** ** The rules of the classifier, one by one *)

Section ClassifierRules.
Import Text Re Fuzz FuzzRules.
Context {U : Unicode}.

Lemma none_occurs_found (triggers : list string) (log_contents : str)
      (trigger : string) :
  none_occurs triggers log_contents -> In trigger triggers ->
  found_in log_contents trigger = false.
Proof.
  intros H Hin. apply found_in_false.
  unfold none_occurs in H. rewrite List.Forall_forall in H. by apply H.
Qed.

(** X13: the four fixed signatures are given in the order of the
    cascade, each when its trigger occurs in the log and no trigger
    before it does; and a log in which none of the nine triggers
    occurs gets ["no_signature"]. *)
Theorem fixed_signatures_in_order (log_contents : str) :
  let occurs trigger := occurs_in (text trigger) log_contents in
  (~ occurs "Shader compilation failed"%string ->
   occurs "Failed to link shaders"%string ->
   get_signature_from_log_contents log_contents = text "link_error") /\
  (~ occurs "Shader compilation failed"%string ->
   ~ occurs "Failed to link shaders"%string ->
   occurs "Calling vkCreateGraphicsPipelines Fail"%string ->
   get_signature_from_log_contents log_contents = text "pipeline_failure") /\
  (~ occurs "Shader compilation failed"%string ->
   ~ occurs "Failed to link shaders"%string ->
   ~ occurs "Calling vkCreateGraphicsPipelines Fail"%string ->
   occurs "Resource deadlock would occur"%string ->
   get_signature_from_log_contents log_contents
   = text "Resource_deadlock_would_occur") /\
  (none_occurs (fixed_triggers ++ message_triggers ++ backtrace_triggers)
     log_contents ->
   get_signature_from_log_contents log_contents = text "no_signature").
Proof.
  intros occurs. unfold get_signature_from_log_contents.
  repeat split.
  - intros H1%found_in_false H2%found_in_spec. by rewrite H1, H2.
  - intros H1%found_in_false H2%found_in_false H3%found_in_spec.
    by rewrite H1, H2, H3.
  - intros H1%found_in_false H2%found_in_false H3%found_in_false
           H4%found_in_spec.
    by rewrite H1, H2, H3, H4.
  - intros H. unfold when.
    rewrite !(none_occurs_found _ _ _ H) by (cbn; tauto). done.
Qed.

(** *** Greedy repetition *)

(** A repetition takes the whole run when the rest of the pattern
    matches after it. *)
Lemma star_greedy (p : char -> bool) (w s' : str) (g : groups) (k : cont)
      (x : found) :
  forall pos,
    forallb p w = true -> ends_run p s' ->
    k (pos + length w)%nat s' g = Some x ->
    star p pos (w ++ s') g k = Some x.
Proof.
  induction w as [|c w IH]; intros pos Hw He Hk.
  - cbn [app]. rewrite Nat.add_0_r in Hk.
    destruct s' as [|c s']; [done|]. cbn [star]. cbn in He. by rewrite He.
  - cbn in Hw. apply andb_true_iff in Hw as [Hc Hw].
    cbn [app star]. rewrite Hc.
    rewrite (IH (S pos)); [done|done|done|].
    by replace (S pos + length w)%nat with (pos + length (c :: w))%nat
      by (cbn; lia).
Qed.

Lemma plus_greedy (cs : cset) (w s' : str) (g : groups) (k : cont)
      (x : found) (pos : nat) :
  w <> [] -> forallb (in_cset cs) w = true -> ends_run (in_cset cs) s' ->
  k (pos + length w)%nat s' g = Some x ->
  m (Plus cs) pos (w ++ s') g k = Some x.
Proof.
  intros Hne Hw He Hk. destruct w as [|c w]; [done|].
  cbn in Hw. apply andb_true_iff in Hw as [Hc Hw].
  cbn [app m]. rewrite Hc. apply star_greedy; [done..|].
  by replace (S pos + length w)%nat with (pos + length (c :: w))%nat
    by (cbn; lia).
Qed.

Lemma plus_greedy_end (cs : cset) (w : str) (g : groups) (k : cont)
      (x : found) (pos : nat) :
  w <> [] -> forallb (in_cset cs) w = true ->
  k (pos + length w)%nat [] g = Some x ->
  m (Plus cs) pos w g k = Some x.
Proof.
  intros Hne Hw Hk. rewrite <- (app_nil_r w) at 1.
  by apply plus_greedy.
Qed.

(** A repetition fails when the rest of the pattern matches after no
    part of the run. *)
Lemma star_fails (p : char -> bool) (w s' : str) (g : groups) (k : cont) :
  forall pos,
    forallb p w = true -> ends_run p s' ->
    (forall i, (i <= length w)%nat ->
               k (pos + i)%nat (drop i w ++ s') g = None) ->
    star p pos (w ++ s') g k = None.
Proof.
  induction w as [|c w IH]; intros pos Hw He Hk.
  - specialize (Hk 0%nat (Nat.le_0_l _)). rewrite Nat.add_0_r in Hk.
    cbn [drop app] in *.
    destruct s' as [|c s']; [done|]. cbn [star]. cbn in He. by rewrite He.
  - cbn in Hw. apply andb_true_iff in Hw as [Hc Hw].
    cbn [app star]. rewrite Hc.
    rewrite (IH (S pos)); [|done|done|].
    + specialize (Hk 0%nat (Nat.le_0_l _)). by rewrite Nat.add_0_r in Hk.
    + intros i Hi. specialize (Hk (S i)). cbn [drop length] in Hk.
      replace (S pos + i)%nat with (pos + S i)%nat by lia.
      apply Hk. lia.
Qed.

Lemma m_lit (l s' : str) (pos : nat) (g : groups) (k : cont) :
  m (Lit l) pos (l ++ s') g k = k (pos + length l)%nat s' g.
Proof. cbn [m]. by rewrite startswith_app, drop_app_length. Qed.

Lemma m_lit_fails (l s : str) (pos : nat) (g : groups) (k : cont) :
  startswith s l = false -> m (Lit l) pos s g k = None.
Proof. intros H. cbn [m]. by rewrite H. Qed.

Lemma search_from_unfold (r : regex) (pos : nat) (s : str) :
  search_from r pos s =
  match m r pos s [] final with
  | Some x => Some x
  | None =>
      match s with
      | [] => None
      | _ :: s' => search_from r (S pos) s'
      end
  end.
Proof. by destruct s. Qed.

(** *** The rule of ["error: line "] *)

Lemma in_cset_digit (c : char) : in_cset digit c = is_digit c.
Proof. cbn. apply orb_false_r. Qed.

Lemma forallb_digit (ds : str) :
  forallb is_digit ds = true -> forallb (in_cset digit) ds = true.
Proof.
  induction ds as [|c ds IH]; [done|]. cbn [forallb].
  intros [Hc Hd]%andb_true_iff. by rewrite in_cset_digit, Hc, IH.
Qed.

Lemma spirv_opt_error_match (ds msg tail : str) :
  ds <> [] -> forallb is_digit ds = true ->
  msg <> [] -> forallb (in_cset spirv_opt_message) msg = true ->
  ends_run (in_cset spirv_opt_message) tail ->
  exists e,
    search PATTERN_SPIRV_OPT_ERROR
      (text "error: line " ++ ds ++ text ": " ++ msg ++ tail)
    = Some (e, [(1%nat, msg)]).
Proof.
  intros Hds Hd Hmsg Hm Ht. eexists.
  unfold search. rewrite search_from_unfold.
  unfold PATTERN_SPIRV_OPT_ERROR.
  change (m (Bol >> ?r) 0 ?s [] final) with (m r 0 s [] final).
  change (m (Lit ?l >> ?r) ?pos ?s ?g ?k)
    with (m (Lit l) pos s g (fun pos' s' g' => m r pos' s' g' k)).
  rewrite m_lit.
  change (m (Plus ?cs >> ?r) ?pos ?s ?g ?k)
    with (m (Plus cs) pos s g (fun pos' s' g' => m r pos' s' g' k)).
  erewrite plus_greedy; [reflexivity|done|by apply forallb_digit|reflexivity|].
  change (m (Lit ?l >> ?r) ?pos ?s ?g ?k)
    with (m (Lit l) pos s g (fun pos' s' g' => m r pos' s' g' k)).
  rewrite m_lit.
  change (m (Group ?n ?r) ?pos ?s ?g ?k)
    with (m r pos s g
            (fun pos' s' g' => k pos' s' ((n, take (pos' - pos) s) :: g'))).
  erewrite plus_greedy; [reflexivity|done|done|done|].
  cbv beta. unfold final. do 3 f_equal. f_equal.
  match goal with
  | |- take ?n _ = _ => replace n with (length msg) by lia
  end.
  by rewrite take_app_length.
Qed.

Lemma search_from_bol_later (r : regex) (s : str) :
  forall pos, (0 < pos)%nat -> search_from (Bol >> r) pos s = None.
Proof.
  induction s as [|c s IH]; intros pos Hpos; rewrite search_from_unfold;
    (destruct pos as [|pos]; [lia|]); cbn [m Nat.eqb]; [done|].
  apply IH. lia.
Qed.

(** A line that does not start with ["error: line "] has no match. *)
Lemma spirv_opt_error_no_match (line : str) :
  startswith line (text "error: line ") = false ->
  search PATTERN_SPIRV_OPT_ERROR line = None.
Proof.
  intros H. unfold search. rewrite search_from_unfold.
  unfold PATTERN_SPIRV_OPT_ERROR.
  change (m (Bol >> ?r) 0 ?s [] final) with (m r 0 s [] final).
  change (m (Lit ?l >> ?r) ?pos ?s ?g ?k)
    with (m (Lit l) pos s g (fun pos' s' g' => m r pos' s' g' k)).
  rewrite m_lit_fails by done.
  destruct line as [|c line]; [done|]. apply search_from_bol_later. lia.
Qed.

Lemma spirv_opt_error_lines_skip (before rest : list str) :
  Forall (fun l => startswith l (text "error: line ") = false) before ->
  spirv_opt_error_lines (before ++ rest) = spirv_opt_error_lines rest.
Proof.
  induction 1 as [|l before Hl _ IH]; [done|].
  cbn [app spirv_opt_error_lines].
  by rewrite spirv_opt_error_no_match.
Qed.

(** *** The lines of a log are parts of it *)

Lemma occurs_in_trans (a b c : str) :
  occurs_in a b -> occurs_in b c -> occurs_in a c.
Proof.
  intros (x & y & ->) (z & t & ->). exists (z ++ x), (y ++ t).
  by rewrite <- !app_assoc.
Qed.

Lemma occurs_in_cons (a s : str) (c : char) :
  occurs_in a s -> occurs_in a (c :: s).
Proof. intros (x & y & ->). by exists (c :: x), y. Qed.

Lemma split_parts (sep : char) (s : str) :
  exists l ls b,
    split sep s = l :: ls /\ s = l ++ b /\
    Forall (fun x => occurs_in x s) ls.
Proof.
  induction s as [|c s (l & ls & b & E & Es & Hls)].
  - by exists [], [], [].
  - cbn [split]. rewrite E. destruct (c =? sep)%N.
    + exists [], (l :: ls), (c :: s). repeat split.
      constructor.
      * apply occurs_in_cons. exists [], b. by rewrite Es.
      * eapply Forall_impl; [exact Hls|]. intros x. apply occurs_in_cons.
    + exists (c :: l), ls, b. repeat split; [by rewrite Es|].
      eapply Forall_impl; [exact Hls|]. intros x. apply occurs_in_cons.
Qed.

Lemma split_occurs (sep : char) (s l : str) :
  In l (split sep s) -> occurs_in l s.
Proof.
  destruct (split_parts sep s) as (l0 & ls & b & -> & Es & Hls).
  intros [<-|Hin].
  - exists [], b. by rewrite Es.
  - rewrite List.Forall_forall in Hls. by apply Hls.
Qed.

Lemma slice_to_take (s : str) (n : nat) :
  slice_to s (Z.of_nat n) = take n s.
Proof.
  unfold slice_to.
  replace (Z.of_nat n <? 0) with false by (symmetry; apply Z.ltb_ge; lia).
  destruct (Z.min_spec (Z.of_nat n) (Z.of_nat (length s))) as [[? ->]|[? ->]].
  - by rewrite Nat2Z.id.
  - rewrite Nat2Z.id, !firstn_all2; [done|lia|lia].
Qed.

(** X14: the rule of ["error: line "], for a log without the triggers
    of the four fixed signatures.  The first line that starts with
    ["error: line "] decides, when it goes on with digits, a colon, a
    space and a message, the longest run of characters of the class of
    the pattern: the signature is the message without its digits, with
    every character that is not a word character turned into an
    underscore, cut to its first 20 characters. *)
Theorem spirv_opt_error_signature (log_contents : str) (before : list str)
        (ds msg tail : str) (after : list str) :
  none_occurs fixed_triggers log_contents ->
  split newline log_contents
  = before ++ (text "error: line " ++ ds ++ text ": " ++ msg ++ tail) :: after ->
  Forall (fun l => startswith l (text "error: line ") = false) before ->
  ds <> [] -> forallb is_digit ds = true ->
  msg <> [] -> forallb (in_cset spirv_opt_message) msg = true ->
  ends_run (in_cset spirv_opt_message) tail ->
  get_signature_from_log_contents log_contents
  = take 20 (map (fun c => if is_word c then c else ord "_")
               (List.filter (fun c => negb (is_digit c)) msg)).
Proof.
  intros Hnone Hsplit Hbefore Hds Hd Hmsg Hm Ht.
  unfold get_signature_from_log_contents, when.
  rewrite !(none_occurs_found _ _ _ Hnone) by (cbn; tauto).
  assert (found_in log_contents "error: line " = true) as ->.
  { apply found_in_spec.
    apply (occurs_in_trans _
             (text "error: line " ++ ds ++ text ": " ++ msg ++ tail)).
    - by exists [], (ds ++ text ": " ++ msg ++ tail).
    - apply (split_occurs newline). rewrite Hsplit.
      apply in_or_app. right. by left. }
  rewrite Hsplit, spirv_opt_error_lines_skip by done.
  cbn [spirv_opt_error_lines].
  destruct (spirv_opt_error_match ds msg tail Hds Hd Hmsg Hm Ht) as [e ->].
  cbn [or_else group Nat.eqb].
  rewrite replace_non_word_spec, remove_numbers_spec.
  apply (slice_to_take _ 20).
Qed.

(** *** The rule of ["#00 pc"] *)

Lemma find_from_first (a sub rest : str) (c0 : char) (sub' : str) :
  sub = c0 :: sub' -> ~ In c0 a ->
  forall i, find_from i (a ++ sub ++ rest) sub = i + Z.of_nat (length a).
Proof.
  intros -> Ha. induction a as [|c a IH]; intros i;
    rewrite find_from_unfold.
  - change ([] ++ ?x) with x. rewrite (startswith_app (c0 :: sub') rest).
    cbn [length]. lia.
  - cbn [app startswith].
    replace (c0 =? c)%N with false; last first.
    { symmetry. apply N.eqb_neq. intros ->. apply Ha. by left. }
    cbn [andb]. rewrite IH.
    + cbn [length]. lia.
    + intros H. apply Ha. by right.
Qed.

Lemma android_backtrace_lines_skip (before rest : list str) :
  Forall (fun l => ~ occurs_in (text "#00 pc") l) before ->
  android_backtrace_lines (before ++ rest) = android_backtrace_lines rest.
Proof.
  induction 1 as [|l before Hl _ IH]; [done|].
  cbn [app android_backtrace_lines].
  apply (found_in_false l "#00 pc") in Hl. unfold found_in in Hl.
  apply negb_false_iff in Hl. by rewrite Hl.
Qed.

Lemma in_cset_word (c : char) : in_cset word c = is_word c.
Proof. cbn. apply orb_false_r. Qed.

Lemma forallb_word (w : str) :
  forallb is_word w = true -> forallb (in_cset word) w = true.
Proof.
  induction w as [|c w IH]; [done|]. cbn [forallb].
  intros [Hc Hw]%andb_true_iff. by rewrite in_cset_word, Hc, IH.
Qed.

(** No match of [PATTERN_CPP_FUNCTION] starts where the text does not
    start with two colons. *)
Lemma cpp_function_not_here (s : str) (pos : nat) :
  startswith s (text "::") = false ->
  m PATTERN_CPP_FUNCTION pos s [] final = None.
Proof.
  intros H. unfold PATTERN_CPP_FUNCTION.
  change (m (Lit ?l >> ?r) ?pos ?s ?g ?k)
    with (m (Lit l) pos s g (fun pos' s' g' => m r pos' s' g' k)).
  by apply m_lit_fails.
Qed.

Lemma cpp_function_skip (pre s : str) :
  ~ In (ord ":") pre ->
  forall pos,
    search_from PATTERN_CPP_FUNCTION pos (pre ++ s)
    = search_from PATTERN_CPP_FUNCTION (pos + length pre) s.
Proof.
  induction pre as [|c pre IH]; intros Hpre pos.
  - cbn [app length]. by rewrite Nat.add_0_r.
  - cbn [app]. rewrite search_from_unfold, cpp_function_not_here.
    + rewrite IH; [|intros H; apply Hpre; by right].
      f_equal. cbn [length]. lia.
    + cbn [startswith text map list_ascii_of_string].
      replace (ord ":" =? c)%N with false; [done|].
      symmetry. apply N.eqb_neq. intros <-. apply Hpre. by left.
Qed.

Lemma word_no_colon (w : str) :
  forallb is_word w = true -> ~ In (ord ":") w.
Proof.
  intros Hw Hin. rewrite forallb_forall in Hw. by specialize (Hw _ Hin).
Qed.

(** The name of a namespace, with the colons of the next name after
    it, is passed over. *)
Lemma cpp_function_skip_qualifier (q t : str) (pos : nat) :
  q <> [] -> forallb is_word q = true ->
  search_from PATTERN_CPP_FUNCTION pos (text "::" ++ q ++ ord ":" :: t)
  = search_from PATTERN_CPP_FUNCTION (pos + 2 + length q) (ord ":" :: t).
Proof.
  intros Hq Hw. rewrite search_from_unfold.
  assert (m PATTERN_CPP_FUNCTION pos (text "::" ++ q ++ ord ":" :: t) []
            final = None) as ->.
  { unfold PATTERN_CPP_FUNCTION.
    change (m (Lit ?l >> ?r) ?pos ?s ?g ?k)
      with (m (Lit l) pos s g (fun pos' s' g' => m r pos' s' g' k)).
    rewrite m_lit.
    change (m (Group ?n ?r >> ?r2) ?pos ?s ?g ?k)
      with (m r pos s g
              (fun pos' s' g' =>
                 m r2 pos' s' ((n, take (pos' - pos) s) :: g') k)).
    destruct q as [|c q]; [done|].
    cbn [forallb] in Hw. apply andb_true_iff in Hw as [Hc Hw].
    cbn [app m]. rewrite in_cset_word, Hc.
    apply star_fails; [by apply forallb_word|reflexivity|].
    intros i Hi. apply m_lit_fails.
    destruct (drop i q) as [|c' q'] eqn:E; [reflexivity|].
    cbn [app startswith text map list_ascii_of_string].
    replace (ord "(" =? c')%N with false; [done|].
    symmetry. apply N.eqb_neq. intros <-.
    assert (In (ord "(") q) as Hin.
    { rewrite <- (take_drop i q), E. apply in_or_app. right. by left. }
    rewrite forallb_forall in Hw. by specialize (Hw _ Hin). }
  destruct q as [|c q]; [done|].
  cbn [forallb] in Hw. apply andb_true_iff in Hw as [Hc Hw].
  change (text "::" ++ (c :: q) ++ ord ":" :: t)
    with (ord ":" :: ord ":" :: c :: q ++ ord ":" :: t).
  cbv iota.
  rewrite search_from_unfold, cpp_function_not_here; last first.
  { cbn [startswith text map list_ascii_of_string]. rewrite N.eqb_refl.
    replace (ord ":" =? c)%N with false; [done|].
    symmetry. apply N.eqb_neq. intros <-. done. }
  change (c :: q ++ ord ":" :: t) with ((c :: q) ++ ord ":" :: t).
  rewrite cpp_function_skip by (apply word_no_colon; cbn; by rewrite Hc, Hw).
  f_equal. cbn [length]. lia.
Qed.

(** The name before the parenthesis is the match. *)
Lemma cpp_function_here (fn rest : str) (pos : nat) :
  fn <> [] -> forallb is_word fn = true ->
  exists e,
    search_from PATTERN_CPP_FUNCTION pos (text "::" ++ fn ++ text "(" ++ rest)
    = Some (e, [(1%nat, fn)]).
Proof.
  intros Hfn Hw. eexists. rewrite search_from_unfold.
  unfold PATTERN_CPP_FUNCTION.
  change (m (Lit ?l >> ?r) ?pos ?s ?g ?k)
    with (m (Lit l) pos s g (fun pos' s' g' => m r pos' s' g' k)).
  rewrite m_lit.
  change (m (Group ?n ?r >> ?r2) ?pos ?s ?g ?k)
    with (m r pos s g
            (fun pos' s' g' =>
               m r2 pos' s' ((n, take (pos' - pos) s) :: g') k)).
  erewrite plus_greedy;
    [reflexivity|done|by apply forallb_word|reflexivity|].
  rewrite m_lit. unfold final. do 3 f_equal. f_equal.
  match goal with
  | |- take ?n _ = _ => replace n with (length fn) by lia
  end.
  by rewrite take_app_length.
Qed.

Lemma cpp_function_match (pre : str) (quals : list str) (fn rest : str) :
  ~ In (ord ":") pre ->
  Forall (fun q => q <> [] /\ forallb is_word q = true) quals ->
  fn <> [] -> forallb is_word fn = true ->
  exists e,
    search PATTERN_CPP_FUNCTION (pre ++ qualified quals fn ++ text "(" ++ rest)
    = Some (e, [(1%nat, fn)]).
Proof.
  intros Hpre Hquals Hfn Hw. unfold search.
  rewrite cpp_function_skip by done.
  generalize (0 + length pre)%nat. clear pre Hpre.
  induction Hquals as [|q quals [Hq Hqw] _ IH]; intros pos.
  - unfold qualified. cbn [map concat app]. rewrite <- !app_assoc.
    by apply cpp_function_here.
  - assert (exists t, qualified quals fn ++ text "(" ++ rest = ord ":" :: t)
      as [t Et].
    { unfold qualified. destruct quals; by eexists. }
    assert (qualified (q :: quals) fn ++ text "(" ++ rest
            = text "::" ++ q ++ qualified quals fn ++ text "(" ++ rest) as ->.
    { unfold qualified. cbn [map concat]. by rewrite <- !app_assoc. }
    rewrite Et, cpp_function_skip_qualifier by done.
    rewrite <- Et. apply IH.
Qed.

(** The first line in which ["#00 pc"] occurs decides, read from
    ["#00 pc"] on. *)
Lemma android_frame_decides (log_contents : str) (before : list str)
      (a frame : str) (after : list str) :
  none_occurs (fixed_triggers ++ message_triggers) log_contents ->
  split newline log_contents = before ++ (a ++ frame) :: after ->
  Forall (fun l => ~ occurs_in (text "#00 pc") l) before ->
  ~ In (ord "#") a -> startswith frame (text "#00 pc") = true ->
  get_signature_from_log_contents log_contents
  = or_else
      (if found_in frame "/amber_ndk" then Some (text "amber_ndk")
       else
         match search PATTERN_CPP_FUNCTION frame with
         | Some (_, g) => Some (group g 1)
         | None =>
             match search PATTERN_C_FUNCTION frame with
             | Some (_, g) => Some (group g 1)
             | None => None
             end
         end)
      (or_else (when log_contents "Backtrace:" (catchsegv_frame log_contents))
         (text "no_signature")).
Proof.
  intros Hnone Hsplit Hbefore Ha [b Hframe]%startswith_spec.
  unfold get_signature_from_log_contents, when.
  rewrite !(none_occurs_found _ _ _ Hnone) by (cbn; tauto).
  cbn [or_else].
  assert (found_in log_contents "#00 pc" = true) as ->.
  { apply found_in_spec. apply (occurs_in_trans _ (a ++ frame)).
    - exists a, b. by rewrite Hframe.
    - apply (split_occurs newline). rewrite Hsplit.
      apply in_or_app. right. by left. }
  rewrite Hsplit, android_backtrace_lines_skip by done.
  cbn [android_backtrace_lines].
  assert (find (a ++ frame) (text "#00 pc") = Z.of_nat (length a)) as ->.
  { rewrite Hframe. unfold find.
    by rewrite (find_from_first a (text "#00 pc") b (ord "#") (text "00 pc")). }
  replace (Z.of_nat (length a) =? -1) with false
    by (symmetry; apply Z.eqb_neq; lia).
  pose proof (slice_from_app a frame) as E. unfold CtsCpp.len in E.
  by rewrite E.
Qed.

(** X15: the rule of ["#00 pc"], for a log without the triggers of
    the rules before it.  The first line in which ["#00 pc"] occurs
    decides, read from ["#00 pc"] on (the frame): a frame in which
    ["/amber_ndk"] occurs gets ["amber_ndk"]; otherwise a frame that
    holds no colon before a qualified name [::q1::...::fn] followed by
    a parenthesis gets the last name, [fn], whatever the namespaces
    before it. *)
Theorem android_frame_signature (log_contents : str) (before : list str)
        (a frame : str) (after : list str) :
  none_occurs (fixed_triggers ++ message_triggers) log_contents ->
  split newline log_contents = before ++ (a ++ frame) :: after ->
  Forall (fun l => ~ occurs_in (text "#00 pc") l) before ->
  ~ In (ord "#") a -> startswith frame (text "#00 pc") = true ->
  (occurs_in (text "/amber_ndk") frame ->
   get_signature_from_log_contents log_contents = text "amber_ndk") /\
  (~ occurs_in (text "/amber_ndk") frame ->
   forall (pre : str) (quals : list str) (fn rest : str),
     frame = pre ++ qualified quals fn ++ text "(" ++ rest ->
     ~ In (ord ":") pre ->
     Forall (fun q => q <> [] /\ forallb is_word q = true) quals ->
     fn <> [] -> forallb is_word fn = true ->
     get_signature_from_log_contents log_contents = fn).
Proof.
  intros Hnone Hsplit Hbefore Ha Hframe.
  rewrite (android_frame_decides _ _ _ _ _ Hnone Hsplit Hbefore Ha Hframe).
  split.
  - intros H%found_in_spec. by rewrite H.
  - intros H%found_in_false pre quals fn rest -> Hpre Hquals Hfn Hw.
    rewrite H.
    by destruct (cpp_function_match pre quals fn rest Hpre Hquals Hfn Hw)
      as [e ->].
Qed.

(** *** The name of a C function *)

Lemma c_function_not_here (s : str) (pos : nat) :
  startswith s (text "(") = false ->
  m PATTERN_C_FUNCTION pos s [] final = None.
Proof.
  intros H. unfold PATTERN_C_FUNCTION.
  change (m (Lit ?l >> ?r) ?pos ?s ?g ?k)
    with (m (Lit l) pos s g (fun pos' s' g' => m r pos' s' g' k)).
  by apply m_lit_fails.
Qed.

Lemma c_function_skip (pre s : str) :
  ~ In (ord "(") pre ->
  forall pos,
    search_from PATTERN_C_FUNCTION pos (pre ++ s)
    = search_from PATTERN_C_FUNCTION (pos + length pre) s.
Proof.
  induction pre as [|c pre IH]; intros Hpre pos.
  - cbn [app length]. by rewrite Nat.add_0_r.
  - cbn [app]. rewrite search_from_unfold, c_function_not_here.
    + rewrite IH; [|intros H; apply Hpre; by right].
      f_equal. cbn [length]. lia.
    + cbn [startswith text map list_ascii_of_string].
      replace (ord "(" =? c)%N with false; [done|].
      symmetry. apply N.eqb_neq. intros <-. apply Hpre. by left.
Qed.

Lemma c_function_match (pre fn tail : str) :
  ~ In (ord "(") pre -> fn <> [] -> forallb is_word fn = true ->
  c_function_tail tail ->
  exists e g,
    search PATTERN_C_FUNCTION (pre ++ text "(" ++ fn ++ tail) = Some (e, g) /\
    group g 1 = fn.
Proof.
  intros Hpre Hfn Hw Htail. unfold search.
  rewrite c_function_skip by done. rewrite search_from_unfold.
  unfold PATTERN_C_FUNCTION.
  change (m (Lit ?l >> ?r) ?pos ?s ?g ?k)
    with (m (Lit l) pos s g (fun pos' s' g' => m r pos' s' g' k)).
  rewrite m_lit.
  change (m (Group ?n ?r >> ?r2) ?pos ?s ?g ?k)
    with (m r pos s g
            (fun pos' s' g' =>
               m r2 pos' s' ((n, take (pos' - pos) s) :: g') k)).
  set (p1 := (0 + length pre + length (text "("))%nat).
  assert (Etake : take (p1 + length fn - p1) (fn ++ tail) = fn).
  { replace (p1 + length fn - p1)%nat with (length fn) by lia.
    by rewrite take_app_length. }
  destruct Htail as [(ds & rest & -> & Hds & Hd)|(rest & ->)].
  - erewrite plus_greedy;
      [|done|by apply forallb_word|reflexivity|]; last first.
    + cbv beta.
      change (m (Group ?n ?r) ?pos ?s ?g ?k)
        with (m r pos s g
                (fun pos' s' g' => k pos' s' ((n, take (pos' - pos) s) :: g'))).
      change (m (Alt ?r1 ?r2) ?pos ?s ?g ?k)
        with (match m r1 pos s g k with
              | Some x => Some x
              | None => m r2 pos s g k
              end).
      change (m (Lit ?l >> ?r) ?pos ?s ?g ?k)
        with (m (Lit l) pos s g (fun pos' s' g' => m r pos' s' g' k)).
      rewrite m_lit.
      change (m (Plus ?cs >> ?r) ?pos ?s ?g ?k)
        with (m (Plus cs) pos s g (fun pos' s' g' => m r pos' s' g' k)).
      erewrite plus_greedy;
        [reflexivity|done|by apply forallb_digit|reflexivity|].
      rewrite m_lit. reflexivity.
    + eexists _, _. split; [reflexivity|]. cbn [group Nat.eqb].
      exact Etake.
  - erewrite plus_greedy;
      [|done|by apply forallb_word|reflexivity|]; last first.
    + cbv beta.
      change (m (Group ?n ?r) ?pos ?s ?g ?k)
        with (m r pos s g
                (fun pos' s' g' => k pos' s' ((n, take (pos' - pos) s) :: g'))).
      change (m (Alt ?r1 ?r2) ?pos ?s ?g ?k)
        with (match m r1 pos s g k with
              | Some x => Some x
              | None => m r2 pos s g k
              end).
      change (m (Lit ?l >> ?r) ?pos ?s ?g ?k)
        with (m (Lit l) pos s g (fun pos' s' g' => m r pos' s' g' k)).
      rewrite m_lit_fails by reflexivity.
      rewrite m_lit. reflexivity.
    + eexists _, _. split; [reflexivity|]. cbn [group Nat.eqb].
      exact Etake.
Qed.

(** X16: the rule of ["#00 pc"], for a frame without colon (so without
    a qualified name) and without ["/amber_ndk"]: when the first
    parenthesis of the frame is followed by a name of word characters
    and then by an offset [+digits)] or by another parenthesis, the
    signature is that name. *)
Theorem android_c_function_signature (log_contents : str)
        (before : list str) (a frame : str) (after : list str)
        (pre fn tail : str) :
  none_occurs (fixed_triggers ++ message_triggers) log_contents ->
  split newline log_contents = before ++ (a ++ frame) :: after ->
  Forall (fun l => ~ occurs_in (text "#00 pc") l) before ->
  ~ In (ord "#") a -> startswith frame (text "#00 pc") = true ->
  ~ occurs_in (text "/amber_ndk") frame -> ~ In (ord ":") frame ->
  frame = pre ++ text "(" ++ fn ++ tail ->
  ~ In (ord "(") pre -> fn <> [] -> forallb is_word fn = true ->
  c_function_tail tail ->
  get_signature_from_log_contents log_contents = fn.
Proof.
  intros Hnone Hsplit Hbefore Ha Hframe Hndk%found_in_false Hcolon E
         Hpre Hfn Hw Htail.
  rewrite (android_frame_decides _ _ _ _ _ Hnone Hsplit Hbefore Ha Hframe).
  rewrite Hndk.
  assert (search PATTERN_CPP_FUNCTION frame = None) as ->.
  { unfold search. rewrite <- (app_nil_r frame).
    rewrite cpp_function_skip by done.
    rewrite search_from_unfold. by rewrite cpp_function_not_here. }
  rewrite E.
  by destruct (c_function_match pre fn tail Hpre Hfn Hw Htail)
    as (e & g & -> & ->).
Qed.

(** *** The rule of ["0 pass, 1 fail"] *)

Lemma amber_error_no_match (line : str) :
  ~ occurs_in (text ": ") line -> search PATTERN_AMBER_ERROR line = None.
Proof.
  intros Hno. destruct (search PATTERN_AMBER_ERROR line) as [[e g]|] eqn:E;
    [|done].
  apply search_sound in E as (pre & p & s0 & s' & -> & M).
  destruct M as (p1 & s1 & g1 & (c & _ & -> & _) & p2 & s2 & g2
                 & (-> & _) & _).
  destruct Hno. exists (pre ++ [c]), s2. by rewrite <- !app_assoc.
Qed.

Lemma amber_error_lines_skip (before rest : list str) :
  Forall (fun l => ~ occurs_in (text ": ") l) before ->
  amber_error_lines (before ++ rest) = amber_error_lines rest.
Proof.
  induction 1 as [|l before Hl _ IH]; [done|].
  cbn [app amber_error_lines]. by rewrite amber_error_no_match.
Qed.

Lemma amber_error_not_here (c x : char) (s : str) (pos : nat) :
  x <> ord ":" -> m PATTERN_AMBER_ERROR pos (c :: x :: s) [] final = None.
Proof.
  intros Hx. unfold PATTERN_AMBER_ERROR. cbn [m].
  destruct (in_cset word c); [|done].
  cbn [startswith text map list_ascii_of_string].
  replace (ord ":" =? x)%N with false; [done|].
  symmetry. apply N.eqb_neq. by intros <-.
Qed.

Lemma amber_error_skip (pre : str) (c : char) (s : str) :
  ~ In (ord ":") (pre ++ [c]) ->
  forall pos,
    search_from PATTERN_AMBER_ERROR pos (pre ++ c :: s)
    = search_from PATTERN_AMBER_ERROR (pos + length pre) (c :: s).
Proof.
  induction pre as [|c' pre IH]; intros Hpre pos.
  - cbn [app length]. by rewrite Nat.add_0_r.
  - cbn [app]. rewrite search_from_unfold.
    assert (forall x t, pre ++ c :: s = x :: t -> x <> ord ":") as Hx.
    { intros x t E ->. apply Hpre. right.
      destruct pre as [|y pre]; cbn in E; injection E as E _;
        rewrite E; by left. }
    destruct (pre ++ c :: s) as [|x t] eqn:E; [by destruct pre|].
    rewrite amber_error_not_here by (by eapply Hx).
    rewrite IH; [|intros H; apply Hpre; by right].
    f_equal. cbn [length]. lia.
Qed.

Lemma amber_error_match (pre : str) (c : char) (ds msg : str) :
  ~ In (ord ":") pre -> is_word c = true ->
  ds <> [] -> forallb is_digit ds = true ->
  msg <> [] -> forallb (in_cset words_and_spaces) msg = true ->
  exists e,
    search PATTERN_AMBER_ERROR
      (pre ++ c :: text ": " ++ ds ++ text ": " ++ msg)
    = Some (e, [(1%nat, msg)]).
Proof.
  intros Hpre Hc Hds Hd Hmsg Hm. eexists. unfold search.
  rewrite amber_error_skip; last first.
  { intros [H|[E|[]]]%in_app_or; [done|]. by rewrite E in Hc. }
  rewrite search_from_unfold. unfold PATTERN_AMBER_ERROR.
  change (m (One ?cs >> ?r) ?pos (?c :: ?s) ?g ?k)
    with (if in_cset cs c then m r (S pos) s g k else None).
  rewrite in_cset_word, Hc.
  change (m (Lit ?l >> ?r) ?pos ?s ?g ?k)
    with (m (Lit l) pos s g (fun pos' s' g' => m r pos' s' g' k)).
  rewrite m_lit.
  change (m (Plus ?cs >> ?r) ?pos ?s ?g ?k)
    with (m (Plus cs) pos s g (fun pos' s' g' => m r pos' s' g' k)).
  erewrite plus_greedy; [reflexivity|done|by apply forallb_digit|reflexivity|].
  change (m (Lit ?l >> ?r) ?pos ?s ?g ?k)
    with (m (Lit l) pos s g (fun pos' s' g' => m r pos' s' g' k)).
  rewrite m_lit.
  change (m (Group ?n ?r >> ?r2) ?pos ?s ?g ?k)
    with (m r pos s g
            (fun pos' s' g' =>
               m r2 pos' s' ((n, take (pos' - pos) s) :: g') k)).
  erewrite plus_greedy_end; [reflexivity|done|done|].
  cbn [m]. unfold final. do 3 f_equal. f_equal.
  match goal with
  | |- take ?n _ = _ => replace n with (length msg) by lia
  end.
  apply firstn_all.
Qed.

(** X17: the rule of ["0 pass, 1 fail"], for a log in which this
    trigger occurs, without the triggers of the four fixed signatures
    and without ["error: line "].  The first line in which a colon and
    a space occur decides, when it holds no colon before a word
    character that is followed by a colon, a space, digits, a colon, a
    space and, to the end of the line, a message of word characters and
    spaces: the signature is the message without its digits, with
    every space turned into an underscore; it is not cut. *)
Theorem amber_error_signature (log_contents : str) (before : list str)
        (pre : str) (c : char) (ds msg : str) (after : list str) :
  none_occurs (fixed_triggers ++ ["error: line "%string]) log_contents ->
  occurs_in (text "0 pass, 1 fail") log_contents ->
  split newline log_contents
  = before ++ (pre ++ c :: text ": " ++ ds ++ text ": " ++ msg) :: after ->
  Forall (fun l => ~ occurs_in (text ": ") l) before ->
  ~ In (ord ":") pre -> is_word c = true ->
  ds <> [] -> forallb is_digit ds = true ->
  msg <> [] -> forallb (in_cset words_and_spaces) msg = true ->
  get_signature_from_log_contents log_contents
  = map (fun c => if is_word c then c else ord "_")
        (List.filter (fun c => negb (is_digit c)) msg).
Proof.
  intros Hnone Htrigger%found_in_spec Hsplit Hbefore Hpre Hc Hds Hd Hmsg Hm.
  unfold get_signature_from_log_contents, when.
  rewrite !(none_occurs_found _ _ _ Hnone) by (cbn; tauto).
  rewrite Htrigger. cbn [or_else].
  rewrite Hsplit, amber_error_lines_skip by done.
  cbn [amber_error_lines].
  destruct (amber_error_match pre c ds msg Hpre Hc Hds Hd Hmsg Hm) as [e ->].
  cbn [or_else group Nat.eqb].
  by rewrite replace_non_word_spec, remove_numbers_spec.
Qed.

(** *** The rule of ["Backtrace:"] *)

(** A repetition gives back what it has taken, as long as the rest of
    the pattern fails. *)
Lemma star_back (p : char -> bool) (v s' : str) (g : groups) (k : cont)
      (pos : nat) :
  forallb p v = true -> ends_run p s' ->
  (forall j, (0 < j <= length v)%nat ->
             k (pos + j)%nat (drop j v ++ s') g = None) ->
  star p pos (v ++ s') g k = k pos (v ++ s') g.
Proof.
  intros Hv He Hk. destruct v as [|c v].
  - cbn [app]. destruct s' as [|c s']; [done|]. cbn [star]. cbn in He.
    by rewrite He.
  - cbn in Hv. apply andb_true_iff in Hv as [Hc Hv].
    cbn [app star]. rewrite Hc.
    rewrite star_fails; [done|done|done|].
    intros i Hi. specialize (Hk (S i)). cbn [drop length] in Hk.
    replace (S pos + i)%nat with (pos + S i)%nat by lia.
    apply Hk. lia.
Qed.

Lemma star_last (p : char -> bool) (w v s' : str) (g : groups) (k : cont)
      (x : found) :
  forall pos,
    forallb p (w ++ v) = true -> ends_run p s' ->
    k (pos + length w)%nat (v ++ s') g = Some x ->
    (forall j, (0 < j <= length v)%nat ->
               k (pos + length w + j)%nat (drop j v ++ s') g = None) ->
    star p pos (w ++ v ++ s') g k = Some x.
Proof.
  induction w as [|c w IH]; intros pos Hwv He Hk Hlater.
  - cbn [app length] in *. rewrite Nat.add_0_r in Hk.
    rewrite star_back; [done|done|done|].
    intros j Hj. specialize (Hlater j Hj). by rewrite Nat.add_0_r in Hlater.
  - cbn in Hwv. apply andb_true_iff in Hwv as [Hc Hwv].
    cbn [app star]. rewrite Hc.
    rewrite (IH (S pos)); [done|done|done| |].
    + by replace (S pos + length w)%nat with (pos + length (c :: w))%nat
        by (cbn; lia).
    + intros j Hj.
      replace (S pos + length w + j)%nat
        with (pos + length (c :: w) + j)%nat by (cbn; lia).
      by apply Hlater.
Qed.

Lemma catchsegv_skip (before s : str) :
  ~ In (ord "B") before ->
  forall pos,
    search_from PATTERN_CATCHSEGV_STACK_FRAME pos (before ++ s)
    = search_from PATTERN_CATCHSEGV_STACK_FRAME (pos + length before) s.
Proof.
  induction before as [|c before IH]; intros Hb pos.
  - cbn [app length]. by rewrite Nat.add_0_r.
  - cbn [app]. rewrite search_from_unfold.
    assert (m PATTERN_CATCHSEGV_STACK_FRAME pos (c :: before ++ s) [] final
            = None) as ->.
    { unfold PATTERN_CATCHSEGV_STACK_FRAME.
      change (m (Lit ?l >> ?r) ?pos ?s ?g ?k)
        with (m (Lit l) pos s g (fun pos' s' g' => m r pos' s' g' k)).
      apply m_lit_fails.
      cbn [startswith text map list_ascii_of_string app].
      replace (ord "B" =? c)%N with false; [done|].
      symmetry. apply N.eqb_neq. intros <-. apply Hb. by left. }
    rewrite IH; [|intros H; apply Hb; by right].
    f_equal. cbn [length]. lia.
Qed.

Lemma catchsegv_match (before dir file sym rest1 rest2 : str) :
  ~ In (ord "B") before ->
  forallb (in_cset Dot) (dir ++ file ++ sym ++ rest1) = true ->
  ends_run (in_cset Dot) rest2 ->
  ~ In (ord "/") (file ++ sym ++ rest1) ->
  forallb (in_cset file_name_chars) file = true ->
  sym <> [] -> forallb (in_cset symbol_chars) sym = true ->
  exists e,
    search PATTERN_CATCHSEGV_STACK_FRAME
      (before ++ (text "Backtrace:" ++ [newline]) ++ dir ++
       (text "/" ++ file ++ text "(" ++ sym ++ text "+" ++ rest1) ++ rest2)
    = Some (e, [(1%nat, file ++ text "(" ++ sym)]).
Proof.
  intros Hb Hdot Hend Hslash Hfile Hsym Hs. eexists. unfold search.
  rewrite catchsegv_skip by done. rewrite search_from_unfold.
  unfold PATTERN_CATCHSEGV_STACK_FRAME.
  change (m (Lit ?l >> ?r) ?pos ?s ?g ?k)
    with (m (Lit l) pos s g (fun pos' s' g' => m r pos' s' g' k)).
  rewrite m_lit.
  change (m (Star ?cs >> ?r) ?pos ?s ?g ?k)
    with (star (in_cset cs) pos s g (fun pos' s' g' => m r pos' s' g' k)).
  rewrite !forallb_app in Hdot.
  destruct (andb_prop _ _ Hdot) as [Hd1 Hd2].
  destruct (andb_prop _ _ Hd2) as [Hd3 Hd4].
  destruct (andb_prop _ _ Hd4) as [Hd5 Hd6].
  erewrite star_last; [reflexivity| |done| |].
  - rewrite !forallb_app, Hd1, Hd3, Hd5, Hd6. reflexivity.
  - change (m (Lit ?l >> ?r) ?pos ?s ?g ?k)
      with (m (Lit l) pos s g (fun pos' s' g' => m r pos' s' g' k)).
    rewrite <- !app_assoc. rewrite m_lit.
    change (m (Group ?n ?r >> ?r2) ?pos ?s ?g ?k)
      with (m r pos s g
              (fun pos' s' g' =>
                 m r2 pos' s' ((n, take (pos' - pos) s) :: g') k)).
    change (m (Star ?cs >> ?r) ?pos ?s ?g ?k)
      with (star (in_cset cs) pos s g (fun pos' s' g' => m r pos' s' g' k)).
    erewrite star_greedy; [reflexivity|done|reflexivity|].
    change (m (Lit ?l >> ?r) ?pos ?s ?g ?k)
      with (m (Lit l) pos s g (fun pos' s' g' => m r pos' s' g' k)).
    rewrite m_lit.
    erewrite plus_greedy; [reflexivity|done|done|reflexivity|].
    cbv beta. rewrite m_lit. unfold final. do 3 f_equal. f_equal.
    match goal with
    | |- take ?n _ = _ =>
        replace n with (length (file ++ text "(" ++ sym))
          by (rewrite !length_app; lia)
    end.
    rewrite !(app_assoc file), !(app_assoc (file ++ text "(")).
    rewrite <- (app_assoc file). by rewrite take_app_length.
  - intros j Hj.
    change (m (Lit ?l >> ?r) ?pos ?s ?g ?k)
      with (m (Lit l) pos s g (fun pos' s' g' => m r pos' s' g' k)).
    apply m_lit_fails.
    destruct j as [|j]; [lia|].
    change (drop (S j) (text "/" ++ ?v)) with (drop j v).
    set (v := file ++ text "(" ++ sym ++ text "+" ++ rest1).
    assert (~ In (ord "/") v) as Hv.
    { unfold v. rewrite !in_app_iff. rewrite !in_app_iff in Hslash.
      intros [H|[H|[H|[H|H]]]]; try tauto.
      - cbn in H. by destruct H as [[=]|[]].
      - cbn in H. by destruct H as [[=]|[]]. }
    destruct (drop j v ++ rest2) as [|c y] eqn:E; [done|].
    cbn [startswith text map list_ascii_of_string].
    replace (ord "/" =? c)%N with false; [done|].
    symmetry. apply N.eqb_neq. intros <-.
    destruct (drop j v) as [|c' y'] eqn:Ed.
    + cbn in E. subst rest2. cbn in Hend. done.
    + cbn in E. injection E as -> _. apply Hv.
      rewrite <- (take_drop j v), Ed. apply in_or_app. right. by left.
Qed.

(** X18: the rule of ["Backtrace:"], for a log without the triggers
    of the rules before it, in which the first line after
    ["Backtrace:"] (no [B] before it in the log) is a frame
    [dir/file(symbol+...]: [file] without slash or parenthesis, the
    symbol without closing parenthesis or plus, and no slash after
    [dir/] to the end of the line.  The signature is [file(symbol], with
    every character that is not a word character turned into an
    underscore, cut to its first 50 characters. *)
Theorem catchsegv_signature (log_contents : str)
        (before dir file sym rest1 rest2 : str) :
  none_occurs (fixed_triggers ++ message_triggers ++ ["#00 pc"%string])
    log_contents ->
  log_contents
  = before ++ (text "Backtrace:" ++ [newline]) ++ dir ++
    (text "/" ++ file ++ text "(" ++ sym ++ text "+" ++ rest1) ++ rest2 ->
  ~ In (ord "B") before ->
  forallb (in_cset Dot) (dir ++ file ++ sym ++ rest1) = true ->
  ends_run (in_cset Dot) rest2 ->
  ~ In (ord "/") (file ++ sym ++ rest1) ->
  forallb (in_cset file_name_chars) file = true ->
  sym <> [] -> forallb (in_cset symbol_chars) sym = true ->
  get_signature_from_log_contents log_contents
  = take 50 (map (fun c => if is_word c then c else ord "_")
               (file ++ text "(" ++ sym)).
Proof.
  intros Hnone E Hb Hdot Hend Hslash Hfile Hsym Hs.
  unfold get_signature_from_log_contents, when.
  rewrite !(none_occurs_found _ _ _ Hnone) by (cbn; tauto).
  cbn [or_else].
  assert (found_in log_contents "Backtrace:" = true) as ->.
  { apply found_in_spec. rewrite E. eexists before, _.
    by rewrite <- !app_assoc. }
  unfold catchsegv_frame. rewrite E.
  destruct (catchsegv_match before dir file sym rest1 rest2
              Hb Hdot Hend Hslash Hfile Hsym Hs) as [e ->].
  cbn [or_else group Nat.eqb].
  rewrite replace_non_word_spec. apply (slice_to_take _ 50).
Qed.

(** *** The rule of ["SPIR-V is not generated for failed compile or
    link"] *)

Lemma glslang_error_no_match (line : str) :
  ~ occurs_in (text ": '") line -> search PATTERN_GLSLANG_ERROR line = None.
Proof.
  intros Hno. destruct (search PATTERN_GLSLANG_ERROR line) as [[e g]|] eqn:E;
    [|done].
  apply search_sound in E as (pre & p & s0 & s' & -> & M).
  destruct M as (p1 & s1 & g1 & (u & _ & _ & -> & _) & p2 & s2 & g2
                 & (-> & _) & p3 & s3 & g3 & (dd & _ & _ & -> & _)
                 & p4 & s4 & g4 & (-> & _) & _).
  destruct Hno. exists (pre ++ u ++ text ":" ++ dd), s4.
  by rewrite <- !app_assoc.
Qed.

Lemma glslang_error_lines_skip (before rest : list str) :
  Forall (fun l => ~ occurs_in (text ": '") l) before ->
  glslang_error_lines (before ++ rest) = glslang_error_lines rest.
Proof.
  induction 1 as [|l before Hl _ IH]; [done|].
  cbn [app glslang_error_lines]. by rewrite glslang_error_no_match.
Qed.

(** No match starts in what is before the name of the file. *)
Lemma glslang_error_not_before (X w Y : str) (pos : nat) :
  X <> [] -> ends_outside_word X -> colon_digit_free (X ++ w) ->
  m PATTERN_GLSLANG_ERROR pos (X ++ w ++ text ":" ++ Y) [] final = None.
Proof.
  intros HX Hend Hfree.
  destruct (m PATTERN_GLSLANG_ERROR pos (X ++ w ++ text ":" ++ Y) [] final)
    as [x|] eqn:E; [|done]. exfalso.
  apply m_sound in E as (pos' & s' & g' & M & _).
  destruct M as (p1 & s1 & g1 & (u & _ & Hu & E1 & _) & p2 & s2 & g2
                 & (E2 & _) & p3 & s3 & g3 & (dd & Hdd & Hd & E3 & _) & _).
  apply forallb_in_cset_word in Hu.
  destruct dd as [|d dd]; [done|].
  cbn [forallb] in Hd. apply andb_true_iff in Hd as [Hd _].
  rewrite in_cset_digit in Hd.
  subst s1 s2. rewrite app_assoc in E1.
  destruct (exists_last HX) as (p & z & ->).
  assert (is_word z = false) as Hz by (by apply (Hend p z)).
  apply app_eq_app in E1 as [l [[E1 E2]|[E1 E2]]].
  - destruct l as [|x0 l].
    + rewrite app_nil_r in E1. rewrite <- E1 in Hu.
      rewrite !forallb_app in Hu. cbn in Hu. rewrite Hz in Hu.
      by rewrite andb_false_r in Hu.
    + cbn in E2. injection E2 as <- E2.
      destruct l as [|y l].
      * cbn in E2. injection E2 as -> _. by vm_compute in Hd.
      * cbn in E2. injection E2 as <- _.
        by rewrite (Hfree u d l E1) in Hd.
  - destruct l as [|x0 l].
    + rewrite app_nil_r in E1. rewrite E1 in Hu.
      rewrite !forallb_app in Hu. cbn in Hu. rewrite Hz in Hu.
      by rewrite andb_false_r in Hu.
    + cbn in E2. injection E2 as <- _.
      apply (word_no_colon u Hu). rewrite E1.
      apply in_or_app. right. by left.
Qed.

Lemma glslang_error_skip (pre w Y : str) :
  forall pos,
    ends_outside_word pre -> colon_digit_free (pre ++ w) ->
    search_from PATTERN_GLSLANG_ERROR pos (pre ++ w ++ text ":" ++ Y)
    = search_from PATTERN_GLSLANG_ERROR (pos + length pre)
        (w ++ text ":" ++ Y).
Proof.
  induction pre as [|c pre IH]; intros pos Hend Hfree.
  - cbn [app length]. by rewrite Nat.add_0_r.
  - rewrite search_from_unfold, glslang_error_not_before by done.
    cbn [app]. rewrite IH.
    + f_equal. cbn [length]. lia.
    + intros p z ->. by apply (Hend (c :: p) z).
    + intros a d b E. apply (Hfree (c :: a) d b). cbn [app]. by rewrite E.
Qed.

Lemma glslang_error_match (pre w ds msg rest : str) :
  ends_outside_word pre -> colon_digit_free (pre ++ w) ->
  w <> [] -> forallb is_word w = true ->
  ds <> [] -> forallb is_digit ds = true ->
  msg <> [] -> forallb (in_cset words_and_spaces) msg = true ->
  exists e,
    search PATTERN_GLSLANG_ERROR
      (pre ++ w ++ text ":" ++ ds ++ text ": '" ++ msg ++ text "'" ++ rest)
    = Some (e, [(1%nat, msg)]).
Proof.
  intros Hend Hfree Hw Hww Hds Hd Hmsg Hm. eexists. unfold search.
  rewrite glslang_error_skip by done.
  rewrite search_from_unfold. unfold PATTERN_GLSLANG_ERROR.
  change (m (Plus ?cs >> ?r) ?pos ?s ?g ?k)
    with (m (Plus cs) pos s g (fun pos' s' g' => m r pos' s' g' k)).
  erewrite plus_greedy; [reflexivity|done|by apply forallb_word|reflexivity|].
  change (m (Lit ?l >> ?r) ?pos ?s ?g ?k)
    with (m (Lit l) pos s g (fun pos' s' g' => m r pos' s' g' k)).
  rewrite m_lit.
  change (m (Plus ?cs >> ?r) ?pos ?s ?g ?k)
    with (m (Plus cs) pos s g (fun pos' s' g' => m r pos' s' g' k)).
  erewrite plus_greedy; [reflexivity|done|by apply forallb_digit|reflexivity|].
  change (m (Lit ?l >> ?r) ?pos ?s ?g ?k)
    with (m (Lit l) pos s g (fun pos' s' g' => m r pos' s' g' k)).
  rewrite m_lit.
  change (m (Group ?n ?r >> ?r2) ?pos ?s ?g ?k)
    with (m r pos s g
            (fun pos' s' g' =>
               m r2 pos' s' ((n, take (pos' - pos) s) :: g') k)).
  erewrite plus_greedy; [reflexivity|done|done|reflexivity|].
  cbv beta. rewrite m_lit. unfold final. do 3 f_equal. f_equal.
  match goal with
  | |- take ?n _ = _ => replace n with (length msg) by lia
  end.
  by rewrite take_app_length.
Qed.

(** X19: the rule of ["SPIR-V is not generated for failed compile or
    link"], for a log in which this trigger occurs, without the
    triggers of the rules before it.  The first line in which [: ']
    occurs decides, when it reads [pre w:digits: 'message' ...] with [w]
    word characters (the end of the name of the file), [pre] empty or
    ending outside a word, no colon of [pre w] followed by a digit, and
    the message of word characters and spaces: the signature is the
    message without its digits, every space turned into an underscore;
    it is not cut. *)
Theorem glslang_error_signature (log_contents : str) (before : list str)
        (pre w ds msg rest : str) (after : list str) :
  none_occurs (fixed_triggers ++ ["error: line "; "0 pass, 1 fail"]%string)
    log_contents ->
  occurs_in (text "SPIR-V is not generated for failed compile or link")
    log_contents ->
  split newline log_contents
  = before ++
    (pre ++ w ++ text ":" ++ ds ++ text ": '" ++ msg ++ text "'" ++ rest)
    :: after ->
  Forall (fun l => ~ occurs_in (text ": '") l) before ->
  ends_outside_word pre -> colon_digit_free (pre ++ w) ->
  w <> [] -> forallb is_word w = true ->
  ds <> [] -> forallb is_digit ds = true ->
  msg <> [] -> forallb (in_cset words_and_spaces) msg = true ->
  get_signature_from_log_contents log_contents
  = map (fun c => if is_word c then c else ord "_")
        (List.filter (fun c => negb (is_digit c)) msg).
Proof.
  intros Hnone Htrigger%found_in_spec Hsplit Hbefore Hend Hfree Hw Hww
         Hds Hd Hmsg Hm.
  unfold get_signature_from_log_contents, when.
  rewrite !(none_occurs_found _ _ _ Hnone) by (cbn; tauto).
  rewrite Htrigger. cbn [or_else].
  rewrite Hsplit, glslang_error_lines_skip by done.
  cbn [glslang_error_lines].
  destruct (glslang_error_match pre w ds msg rest Hend Hfree Hw Hww Hds Hd
              Hmsg Hm) as [e ->].
  cbn [or_else group Nat.eqb].
  by rewrite replace_non_word_spec, remove_numbers_spec.
Qed.

Lemma no_colon_digit_free (s : str) :
  no_colon_digit s = true -> colon_digit_free s.
Proof.
  intros H a d b ->. induction a as [|x a IH].
  - cbn in H. apply andb_true_iff in H as [H _].
    by apply negb_true_iff in H.
  - apply IH. cbn [app no_colon_digit] in H.
    by apply andb_true_iff in H as [_ H].
Qed.

Lemma ends_outside_word_snoc (p : str) (z : char) :
  is_word z = false -> ends_outside_word (p ++ [z]).
Proof. intros Hz p' z' [_ <-]%app_inj_tail. done. Qed.

End ClassifierRules.

Section ClassifierRuleExamples.
Import Text Re Fuzz FuzzRules.

(** A message cut by a colon, after a line of another tool. *)
Lemma spirv_opt_error_signature_witness :
  get_signature_from_log_contents (U := ascii_only)
    (text "glslangValidator: ok" ++ [newline] ++
     text "error: line 12: Invalid opcode 4000: not in SPIR-V 1.3")
  = text "Invalid_opcode_".
Proof.
  apply (spirv_opt_error_signature (U := ascii_only)
           (text "glslangValidator: ok" ++ [newline] ++
            text "error: line 12: Invalid opcode 4000: not in SPIR-V 1.3")
           [text "glslangValidator: ok"]
           (text "12") (text "Invalid opcode 4000")
           (text ": not in SPIR-V 1.3") []).
  - repeat constructor; apply not_occurs_in; vm_compute; reflexivity.
  - vm_compute. reflexivity.
  - repeat constructor.
  - discriminate.
  - reflexivity.
  - discriminate.
  - reflexivity.
  - reflexivity.
Defined.

(** The frame of the specification's third scenario, after a line of
    the log of the device. *)
Lemma android_frame_signature_witness :
  get_signature_from_log_contents (U := ascii_only)
    (text "F DEBUG   : backtrace:" ++ [newline] ++
     text "F DEBUG   :     #00 pc 0000x /lib.so ((anonymous namespace)::Foo::Bar(int)+12)")
  = text "Bar".
Proof.
  destruct (android_frame_signature (U := ascii_only)
              (text "F DEBUG   : backtrace:" ++ [newline] ++
               text "F DEBUG   :     #00 pc 0000x /lib.so ((anonymous namespace)::Foo::Bar(int)+12)")
              [text "F DEBUG   : backtrace:"]
              (text "F DEBUG   :     ")
              (text "#00 pc 0000x /lib.so ((anonymous namespace)::Foo::Bar(int)+12)")
              []) as [_ H].
  - repeat constructor; apply not_occurs_in; vm_compute; reflexivity.
  - vm_compute. reflexivity.
  - repeat constructor. apply not_occurs_in. vm_compute. reflexivity.
  - intros H. vm_compute in H. repeat (destruct H as [[=]|H]). done.
  - reflexivity.
  - assert (~ occurs_in (text "/amber_ndk")
                (text "#00 pc 0000x /lib.so ((anonymous namespace)::Foo::Bar(int)+12)"))
      as Hn by (apply not_occurs_in; vm_compute; reflexivity).
    apply (H Hn
             (text "#00 pc 0000x /lib.so ((anonymous namespace)")
             [text "Foo"] (text "Bar") (text "int)+12)")).
    + reflexivity.
    + intros Hin. vm_compute in Hin. repeat (destruct Hin as [[=]|Hin]). done.
    + repeat constructor. discriminate.
    + discriminate.
    + reflexivity.
Defined.

(** A frame of the C library. *)
Lemma android_c_function_signature_witness :
  get_signature_from_log_contents (U := ascii_only)
    (text "#00 pc 0004f1c3  /system/lib/libc.so (abort+63)")
  = text "abort".
Proof.
  apply (android_c_function_signature (U := ascii_only)
           (text "#00 pc 0004f1c3  /system/lib/libc.so (abort+63)")
           [] [] (text "#00 pc 0004f1c3  /system/lib/libc.so (abort+63)") []
           (text "#00 pc 0004f1c3  /system/lib/libc.so ")
           (text "abort") (text "+63)")).
  - repeat constructor; apply not_occurs_in; vm_compute; reflexivity.
  - vm_compute. reflexivity.
  - constructor.
  - intros [].
  - reflexivity.
  - apply not_occurs_in. vm_compute. reflexivity.
  - intros H. vm_compute in H. repeat (destruct H as [[=]|H]). done.
  - reflexivity.
  - intros H. vm_compute in H. repeat (destruct H as [[=]|H]). done.
  - discriminate.
  - reflexivity.
  - left. exists (text "63"), []. repeat split. discriminate.
Defined.

(** The message of Amber, before the summary. *)
Lemma amber_error_signature_witness :
  get_signature_from_log_contents (U := ascii_only)
    (text "/data/local/tmp/graphicsfuzz/test.amber: 256: probe ssbo format does not match buffer format" ++
     [newline] ++ [newline] ++ text "Summary: 0 pass, 1 fail")
  = text "probe_ssbo_format_does_not_match_buffer_format".
Proof.
  apply (amber_error_signature (U := ascii_only)
           (text "/data/local/tmp/graphicsfuzz/test.amber: 256: probe ssbo format does not match buffer format" ++
            [newline] ++ [newline] ++ text "Summary: 0 pass, 1 fail")
           [] (text "/data/local/tmp/graphicsfuzz/test.ambe") (ord "r")
           (text "256")
           (text "probe ssbo format does not match buffer format")
           [[]; text "Summary: 0 pass, 1 fail"]).
  - repeat constructor; apply not_occurs_in; vm_compute; reflexivity.
  - apply (found_in_spec _ "0 pass, 1 fail"). vm_compute. reflexivity.
  - vm_compute. reflexivity.
  - constructor.
  - intros H. vm_compute in H. repeat (destruct H as [[=]|H]). done.
  - reflexivity.
  - discriminate.
  - reflexivity.
  - discriminate.
  - reflexivity.
Defined.

(** A frame of [spirv-opt], with its address. *)
Lemma catchsegv_signature_witness :
  get_signature_from_log_contents (U := ascii_only)
    ([] ++ (text "Backtrace:" ++ [newline]) ++ text "/data/bin" ++
     (text "/" ++ text "spirv-opt" ++ text "(" ++
      text "_ZN8spvtools3opt4Pass3RunEv" ++ text "+" ++
      text "0x369)[0x5bd6d9]") ++ [])
  = text "spirv_opt__ZN8spvtools3opt4Pass3RunEv".
Proof.
  apply (catchsegv_signature (U := ascii_only) _ [] (text "/data/bin")
           (text "spirv-opt") (text "_ZN8spvtools3opt4Pass3RunEv")
           (text "0x369)[0x5bd6d9]") []).
  - repeat constructor; apply not_occurs_in; vm_compute; reflexivity.
  - reflexivity.
  - intros [].
  - reflexivity.
  - exact I.
  - intros H. vm_compute in H. repeat (destruct H as [[=]|H]). done.
  - reflexivity.
  - discriminate.
  - reflexivity.
Defined.

(** The message of glslangValidator, before the line of the trigger. *)
Lemma glslang_error_signature_witness :
  get_signature_from_log_contents (U := ascii_only)
    (text "ERROR: temp/variant/shader.frag:549: 'variable indexing fragment shader output array' : not supported with this profile: es" ++
     [newline] ++
     text "SPIR-V is not generated for failed compile or link")
  = text "variable_indexing_fragment_shader_output_array".
Proof.
  apply (glslang_error_signature (U := ascii_only)
           (text "ERROR: temp/variant/shader.frag:549: 'variable indexing fragment shader output array' : not supported with this profile: es" ++
            [newline] ++
            text "SPIR-V is not generated for failed compile or link")
           [] (text "ERROR: temp/variant/shader.") (text "frag") (text "549")
           (text "variable indexing fragment shader output array")
           (text " : not supported with this profile: es")
           [text "SPIR-V is not generated for failed compile or link"]).
  - repeat constructor; apply not_occurs_in; vm_compute; reflexivity.
  - apply (found_in_spec _
             "SPIR-V is not generated for failed compile or link").
    vm_compute. reflexivity.
  - vm_compute. reflexivity.
  - constructor.
  - apply (ends_outside_word_snoc (U := ascii_only)
             (text "ERROR: temp/variant/shader") (ord ".")).
    reflexivity.
  - apply (no_colon_digit_free (U := ascii_only)). reflexivity.
  - discriminate.
  - reflexivity.
  - discriminate.
  - reflexivity.
  - discriminate.
  - reflexivity.
Defined.

End ClassifierRuleExamples.

(** ** [handle_glsl_test] *)

Section HandleGlslTestFacts.
Import FuzzLoop HandleGlslTest.
Context {U : Re.Unicode}.

Variable World : Type.
Variable Test : Type.
Variable run_shader_job :
  Path -> Path -> TestGlsl -> Device -> World -> result Path * World.
Variable file_read_text_or_else : Path -> string -> World -> string.
Variable file_read_text : Path -> World -> result Text.str.
Variable copy_dir : Path -> Path -> World -> result Path * World.
Variable test_dir_metadata_read : Path -> World -> result Test.
Variable test_dir_metadata_write :
  Test -> Path -> World -> result unit * World.
Variable run_reduction :
  Path -> Path -> bool -> string -> World -> result Path * World.
Variable symlink_to : Path -> string -> World -> result unit * World.
Variable set_crash_signature : Text.str -> Test -> Test.
Variable device_CopyFrom : Device -> Test -> Test.
Variable device_name : Test -> string.
Variable path_name : Path -> string.
Variable path_of_text : Text.str -> string.

Abbreviation run_devices :=
  (HandleGlslTest.run_devices World run_shader_job file_read_text_or_else).
Abbreviation report_devices :=
  (HandleGlslTest.report_devices World Test file_read_text_or_else
     file_read_text copy_dir test_dir_metadata_read test_dir_metadata_write
     set_crash_signature device_CopyFrom path_name path_of_text).
Abbreviation handle_glsl_test :=
  (HandleGlslTest.handle_glsl_test World Test run_shader_job
     file_read_text_or_else file_read_text copy_dir test_dir_metadata_read
     test_dir_metadata_write run_reduction symlink_to set_crash_signature
     device_CopyFrom device_name path_name path_of_text).
Abbreviation result_get_status :=
  (HandleGlslTest.result_get_status World file_read_text_or_else).

(** The log of the first loop: the devices run are the first of the
    list, and only the last entry can be one that stops the loop. *)
Lemma run_devices_log (test : TestGlsl) (test_dir : Path)
      (devices : list Device) :
  forall w ran0,
  exists log rest,
    snd (run_devices test test_dir devices w ran0) = ran0 ++ log /\
    devices = map fst log ++ rest /\
    (rest <> [] -> exists pre e, log = pre ++ [e] /\ stops_after e = true) /\
    (forall pre e post,
        log = pre ++ e :: post -> post <> [] -> stops_after e = false).
Proof.
  induction devices as [|d ds IH]; intros w ran0.
  - exists [], []. cbn. rewrite app_nil_r. repeat split; [done|].
    intros pre e post E. by destruct pre.
  - cbn [HandleGlslTest.run_devices].
    destruct (run_shader_job _ _ test d w) as [[dir|] w1].
    + set (status := HandleGlslTest.result_get_status _ _ dir w1).
      destruct (HasField d preprocess && String.eqb status "HOST_CRASH")
        eqn:Estop.
      * exists [(d, Some status)], ds. cbn [snd map fst app].
        repeat split.
        -- intros _. by exists [], (d, Some status).
        -- intros pre e post E Hpost. apply (f_equal length) in E.
           rewrite length_app in E. cbn in E. destruct post; [done|].
           cbn in E. lia.
      * destruct (IH w1 (ran0 ++ [(d, Some status)]))
          as (log & rest & E1 & E2 & Hlast & Hmid).
        exists ((d, Some status) :: log), rest.
        rewrite E1, <- app_assoc. cbn [app map fst]. rewrite E2.
        repeat split.
        -- intros Hrest. destruct (Hlast Hrest) as (pre & e & -> & He).
           by exists ((d, Some status) :: pre), e.
        -- intros pre e post E Hpost. destruct pre as [|x pre].
           ++ cbn in E. by injection E as <- _.
           ++ cbn in E. injection E as _ E. by apply (Hmid pre e post).
    + exists [(d, None)], ds. cbn [snd map fst app]. repeat split.
      * intros _. by exists [], (d, None).
      * intros pre e post E Hpost. apply (f_equal length) in E.
        rewrite length_app in E. cbn in E. destruct post; [done|].
        cbn in E. lia.
Qed.

Lemma handle_glsl_test_ran (test : TestGlsl) (test_dir reports_dir : Path)
      (active_devices : list Device) (w : World) :
  snd (handle_glsl_test test test_dir reports_dir active_devices w)
  = snd (run_devices test test_dir active_devices w []).
Proof.
  unfold HandleGlslTest.handle_glsl_test.
  destruct (run_devices test test_dir active_devices w [])
    as [[[[]|] w1] ran]; [|done].
  destruct (report_devices _ _ _ _ _) as [[report_paths|] w2]; [|done].
  by destruct (HandleGlslTest.reduce_reports _ _ _ _ _ _ _ _)
    as [[[]|] w3].
Qed.

(** X20: the first loop of [handle_glsl_test] calls [run_shader_job]
    for the active devices in order, and for no device after one whose
    call raised or that is a preprocess device with the status
    [HOST_CRASH] after its run: the devices run are the first of the
    list; when some device is not run, the last one run has stopped the
    loop; and no device but the last one run has. *)
Theorem devices_stop_after_preprocess_crash (test : TestGlsl)
        (test_dir reports_dir : Path) (active_devices : list Device)
        (w : World) :
  let ran :=
    snd (handle_glsl_test test test_dir reports_dir active_devices w) in
  (exists rest,
      active_devices = map fst ran ++ rest /\
      (rest <> [] -> exists pre e, ran = pre ++ [e] /\ stops_after e = true)) /\
  (forall pre e post,
      ran = pre ++ e :: post -> post <> [] -> stops_after e = false).
Proof.
  intros ran. subst ran. rewrite handle_glsl_test_ran.
  destruct (run_devices_log test test_dir active_devices w [])
    as (log & rest & -> & E & Hlast & Hmid).
  cbn [app]. split; [by exists rest|done].
Qed.

Lemma report_devices_none (test_dir reports_dir : Path)
      (devices : list Device) (w : World) (report_paths : list Path) :
  Forall (fun d =>
            crashed (result_get_status
                       (test_get_results_directory test_dir (name d) true) w)
            = false) devices ->
  report_devices test_dir reports_dir devices w report_paths
  = (Returns report_paths, w).
Proof.
  induction 1 as [|d ds Hd _ IH]; [done|].
  cbn [HandleGlslTest.report_devices].
  apply orb_false_iff in Hd as [H1 H2]. by rewrite H1, H2.
Qed.

(** X21: when the first loop of [handle_glsl_test] has come to its end
    and no active device has the status [CRASH] or [HOST_CRASH] then
    (a device that was not run, or timed out, has another status),
    [handle_glsl_test] returns no report path and leaves the files as
    the runs left them: nothing is copied to the reports and nothing is
    reduced. *)
Theorem no_crash_no_report (test : TestGlsl) (test_dir reports_dir : Path)
        (active_devices : list Device) (w w1 : World)
        (ran : list (Device * option string)) :
  run_devices test test_dir active_devices w [] = (Returns tt, w1, ran) ->
  Forall (fun d =>
            crashed (result_get_status
                       (test_get_results_directory test_dir (name d) true) w1)
            = false) active_devices ->
  handle_glsl_test test test_dir reports_dir active_devices w
  = (Returns [], w1, ran).
Proof.
  intros E H. unfold HandleGlslTest.handle_glsl_test.
  by rewrite E, report_devices_none.
Qed.

End HandleGlslTestFacts.

Section HandleGlslTestScenario.
Import FuzzLoop HandleGlslTest.

(** Two devices that succeed: both are run, and there is no report. *)
Lemma no_crash_no_report_witness :
  HandleGlslTest.handle_glsl_test (U := Re.ascii_only) nat unit
    sample_run_shader_job sample_status
    (fun _ _ => Raises) (fun _ d w => (Returns d, w))
    (fun _ _ => Raises) (fun _ _ w => (Returns tt, w))
    (fun _ _ _ _ w => (Raises, w)) (fun _ _ w => (Returns tt, w))
    (fun _ t => t) (fun _ t => t) (fun _ => "pixel"%string)
    (fun p => p) (fun _ => "signature"%string)
    sample_test_glsl "temp/t/t_opt_O_test" "reports" sample_devices 0%nat
  = (Returns [], 2%nat,
     [ ({| name := "host_preprocessor"; device := Some preprocess |},
        Some "SUCCESS"%string);
       ({| name := "pixel"; device := Some android |},
        Some "SUCCESS"%string) ]).
Proof.
  apply (no_crash_no_report (U := Re.ascii_only) nat unit).
  - reflexivity.
  - by repeat constructor.
Defined.

End HandleGlslTestScenario.
